(** * AgentText/Scripts: the command-line wrappers, embedded and verified

    The nine scripts under [AgentText/Scripts] share one skeleton: an import
    guard, an [argparse] parser, the construction of the [AgentText] client,
    one delegated call, and a JSON envelope printed on standard output.

    The embedding keeps that skeleton.  A script is a computation in a small
    trace-and-exception monad [M]; everything outside the repository (the
    [agenttext] package, the file system, the clock and the interrupt signal)
    is a [world] of oracles whose replies are either a value or a raised
    exception.  The observable behaviour of a run is the list of [event]s it
    performed and the [status] the process ended with. *)

From Stdlib Require Import String Ascii List ZArith Bool DecimalString Lia.
From Stdlib Require DecimalNat.
Import ListNotations.
Local Open Scope list_scope.
Local Open Scope string_scope.
Set Warnings "-register-all".

(** ** Python strings

    A [str] is modelled as a [string] whose characters are the code points
    below 256; every literal of the scripts is ASCII. *)

Module PyStr.

(** [str.isspace] on a single character: TAB..CR, FS..US, SPACE, NEL and
    NBSP are the whitespace code points below 256. *)
Definition isspace (c : ascii) : bool :=
  let n := nat_of_ascii c in
  (((9 <=? n) && (n <=? 13)) || ((28 <=? n) && (n <=? 32))
   || (n =? 133) || (n =? 160))%nat.

Fixpoint lstrip (s : string) : string :=
  match s with
  | String c s' => if isspace c then lstrip s' else s
  | EmptyString => EmptyString
  end.

Fixpoint rstrip (s : string) : string :=
  match s with
  | EmptyString => EmptyString
  | String c s' =>
      match rstrip s' with
      | EmptyString => if isspace c then EmptyString else String c EmptyString
      | r => String c r
      end
  end.

(** [s.strip()] *)
Definition strip (s : string) : string := rstrip (lstrip s).

(** [s.split(sep)] for a one-character separator: every occurrence cuts,
    so the result is never empty and keeps empty pieces. *)
Fixpoint split (sep : ascii) (s : string) : list string :=
  match s with
  | EmptyString => [EmptyString]
  | String c s' =>
      if Ascii.eqb c sep then EmptyString :: split sep s'
      else match split sep s' with
           | piece :: pieces => String c piece :: pieces
           | [] => [String c EmptyString]
           end
  end.

(** [sep.join(pieces)] *)
Definition join (sep : string) (pieces : list string) : string :=
  String.concat sep pieces.

(** [sub in s] *)
Fixpoint contains (sub s : string) : bool :=
  String.prefix sub s
  || match s with
     | EmptyString => false
     | String _ s' => contains sub s'
     end.

(** Truth value of a string: only the empty string is false. *)
Definition truthy (s : string) : bool :=
  match s with EmptyString => false | String _ _ => true end.

(** [str(n)] for a length and for an [int]. *)
Definition of_nat (n : nat) : string := NilEmpty.string_of_uint (Nat.to_uint n).
Definition of_Z (z : Z) : string := NilZero.string_of_int (Z.to_int z).

Definition hex_digit (n : nat) : ascii :=
  ascii_of_nat (if n <? 10 then 48 + n else 87 + n)%nat.

(** Characters that [repr] writes as an escape. *)
Definition printable (c : ascii) : bool :=
  let n := nat_of_ascii c in
  ((32 <=? n) && negb ((127 <=? n) && (n <=? 160)) && negb (n =? 173))%nat.

Definition repr_char (quote : ascii) (c : ascii) : string :=
  let n := nat_of_ascii c in
  if Ascii.eqb c quote || Ascii.eqb c "\"%char then String "\" (String c "")
  else if (n =? 9)%nat then "\t"
  else if (n =? 10)%nat then "\n"
  else if (n =? 13)%nat then "\r"
  else if printable c then String c ""
  else String "\" (String "x" (String (hex_digit (n / 16)%nat)
                                  (String (hex_digit (n mod 16)%nat) ""))).

Fixpoint mem_char (c : ascii) (s : string) : bool :=
  match s with
  | EmptyString => false
  | String d s' => Ascii.eqb c d || mem_char c s'
  end.

Fixpoint escape (quote : ascii) (s : string) : string :=
  match s with
  | EmptyString => EmptyString
  | String c s' => repr_char quote c ++ escape quote s'
  end.

(** [repr(s)]: single quotes, unless the string has a single quote and no
    double quote. *)
Definition dquote : ascii := ascii_of_nat 34.

Definition repr (s : string) : string :=
  let quote : ascii :=
    if mem_char "'" s && negb (mem_char dquote s) then dquote else "'"%char in
  String quote (escape quote s ++ String quote "").

End PyStr.

(** ** Python values

    The values that travel through the scripts: what [json.load] reads, what
    the client returns, and the envelopes handed to [json.dumps].  A [dict]
    keeps its items in insertion order; a [float] is carried as its [repr];
    any other object is carried as its type name, its [str] and its
    [repr]. *)

Inductive pyvalue : Type :=
| PNone
| PBool (b : bool)
| PInt (z : Z)
| PFloat (text : string)
| PStr (s : string)
| PList (xs : list pyvalue)
| PTuple (xs : list pyvalue)
| PDict (items : list (pyvalue * pyvalue))
| PObject (type_name str_text repr_text : string).

Definition is_list (v : pyvalue) : bool :=
  match v with PList _ => true | _ => false end.

Definition is_dict (v : pyvalue) : bool :=
  match v with PDict _ => true | _ => false end.

(** [repr(v)] *)
Fixpoint py_repr (v : pyvalue) : string :=
  match v with
  | PNone => "None"
  | PBool true => "True"
  | PBool false => "False"
  | PInt z => PyStr.of_Z z
  | PFloat text => text
  | PStr s => PyStr.repr s
  | PList xs => "[" ++ PyStr.join ", " (map py_repr xs) ++ "]"
  | PTuple xs =>
      match xs with
      | [x] => "(" ++ py_repr x ++ ",)"
      | _ => "(" ++ PyStr.join ", " (map py_repr xs) ++ ")"
      end
  | PDict items =>
      "{" ++ PyStr.join ", "
               (map (fun kv => let '(k, x) := kv in py_repr k ++ ": " ++ py_repr x)
                    items)
          ++ "}"
  | PObject _ _ repr_text => repr_text
  end.

(** [str(v)]: differs from [repr] on strings and on objects only. *)
Definition py_str (v : pyvalue) : string :=
  match v with
  | PStr s => s
  | PObject _ str_text _ => str_text
  | _ => py_repr v
  end.

(** [len(v)] of a list. *)
Definition py_len (xs : list pyvalue) : Z := Z.of_nat (length xs).

(** [d[key]] for a string key; the first item wins. *)
Fixpoint lookup_item (key : string) (items : list (pyvalue * pyvalue))
  : option pyvalue :=
  match items with
  | [] => None
  | (PStr k, x) :: rest => if String.eqb k key then Some x else lookup_item key rest
  | _ :: rest => lookup_item key rest
  end.

Definition dict_get (key : string) (d : pyvalue) : option pyvalue :=
  match d with
  | PDict items => lookup_item key items
  | _ => None
  end.

(** ** [json.dumps]

    [json.dumps] raises [TypeError] on the first value, in document order,
    that has no JSON form: an object that is none of the basic types, or a
    dictionary key that is not [str], [int], [float], [bool] or [None]. *)

Definition python_type (v : pyvalue) : string :=
  match v with
  | PNone => "NoneType"
  | PBool _ => "bool"
  | PInt _ => "int"
  | PFloat _ => "float"
  | PStr _ => "str"
  | PList _ => "list"
  | PTuple _ => "tuple"
  | PDict _ => "dict"
  | PObject type_name _ _ => type_name
  end.

Definition json_key_error (k : pyvalue) : option string :=
  match k with
  | PNone | PBool _ | PInt _ | PFloat _ | PStr _ => None
  | _ => Some ("keys must be str, int, float, bool or None, not " ++ python_type k)
  end.

Definition or_else {A} (x y : option A) : option A :=
  match x with Some _ => x | None => y end.

Fixpoint json_error (v : pyvalue) : option string :=
  match v with
  | PNone | PBool _ | PInt _ | PFloat _ | PStr _ => None
  | PList xs | PTuple xs =>
      fold_right or_else None (map json_error xs)
  | PDict items =>
      fold_right or_else None
        (map (fun kv => let '(k, x) := kv in or_else (json_key_error k) (json_error x))
             items)
  | PObject type_name _ _ =>
      Some ("Object of type " ++ type_name ++ " is not JSON serializable")
  end.

(** ** Exceptions

    An exception is its class and its [str].  The class is the most specific
    of the classes the scripts name in an [except] clause; [OtherException]
    is any other subclass of [Exception], [OtherBaseException] anything else
    that only derives from [BaseException]. *)

Inductive exception_class : Type :=
| ImportError
| FileNotFoundError
| JSONDecodeError
| AgentTextConnectionException
| AgentTextAPIException
| TypeError
| OtherException
| KeyboardInterrupt
| SystemExit (code : Z)
| OtherBaseException.

Record exn : Type := Exn { exn_class : exception_class; exn_str : string }.

(** The classes of an [except] clause. *)
Inductive except_class : Type :=
| exc_ImportError
| exc_FileNotFoundError
| exc_JSONDecodeError
| exc_AgentTextConnectionException
| exc_AgentTextAPIException
| exc_KeyboardInterrupt
| exc_Exception.

(** [isinstance(e, cls)] *)
Definition isinstance_exn (e : exn) (cls : except_class) : bool :=
  match cls, exn_class e with
  | exc_ImportError, ImportError => true
  | exc_FileNotFoundError, FileNotFoundError => true
  | exc_JSONDecodeError, JSONDecodeError => true
  | exc_AgentTextConnectionException, AgentTextConnectionException => true
  | exc_AgentTextAPIException, AgentTextAPIException => true
  | exc_KeyboardInterrupt, KeyboardInterrupt => true
  | exc_Exception, (KeyboardInterrupt | SystemExit _ | OtherBaseException) => false
  | exc_Exception, _ => true
  | _, _ => false
  end.

(** ** Effects

    What a script does that the outside can see, in order. *)

Inductive client_call : Type :=
| messages_send (to content : string)
| messages_send_files (to : string) (file_paths : list string) (text : string)
| messages_send_file (to file_path : string) (text : option string)
| messages_send_batch (messages : list pyvalue)
| messages_list (filters : list (string * pyvalue))
| messages_get_unread
| chats_list (filters : list (string * pyvalue))
| watcher_start_webhook (webhook : pyvalue)
| watcher_start_callback
| watcher_stop
| watcher_status.

Inductive event : Type :=
| Import                                  (* from agenttext import ... *)
| ParseArgs (argv : list string)          (* parser.parse_args() *)
| UsageMessage                            (* argparse usage error, on stderr *)
| HelpMessage                             (* argparse help text, on stdout *)
| PathExists (path : string)              (* os.path.exists(path) *)
| LoadJson (path : string)                (* open(path) and json.load *)
| Construct (base_url : option string) (timeout : option Z)   (* AgentText(...) *)
| Call (c : client_call)                  (* a method of the client *)
| Print (doc : pyvalue) (indent : option nat) (flush : bool)
                                          (* print(json.dumps(doc, indent=...)) *)
| Sleep.                                  (* time.sleep(1) *)

Inductive outcome (A : Type) : Type :=
| Returns (a : A)
| Raises (e : exn).
Arguments Returns {A} a.
Arguments Raises {A} e.

(** The monad of the scripts: the events performed so far, then a value or
    the exception that is propagating. *)
Definition M (A : Type) : Type := (list event * outcome A)%type.

Definition ret {A} (a : A) : M A := ([], Returns a).

Definition raise {A} (e : exn) : M A := ([], Raises e).

Definition bind {A B} (m : M A) (f : A -> M B) : M B :=
  match m with
  | (t, Returns a) => let '(t', r) := f a in ((t ++ t')%list, r)
  | (t, Raises e) => (t, Raises e)
  end.

Definition emit (ev : event) : M unit := ([ev], Returns tt).

(** An effect whose result the outside decides. *)
Definition ask {A} (ev : event) (reply : outcome A) : M A := ([ev], reply).

Declare Scope py_scope.
Delimit Scope py_scope with py.
Notation "x <- m ;; k" := (bind m (fun x => k))
  (at level 61, m at next level, right associativity) : py_scope.
Notation "m ;; k" := (bind m (fun _ => k))
  (at level 61, right associativity) : py_scope.
Local Open Scope py_scope.

(** [try: body except cls1 as e: h1 except cls2 as e: h2 ...]: the first
    clause whose class the exception is an instance of handles it; an
    exception raised by a handler propagates. *)
Fixpoint find_handler {A} (e : exn) (handlers : list (except_class * (exn -> M A)))
  : option (M A) :=
  match handlers with
  | [] => None
  | (cls, h) :: rest =>
      if isinstance_exn e cls then Some (h e) else find_handler e rest
  end.

Definition try_except {A} (body : M A) (handlers : list (except_class * (exn -> M A)))
  : M A :=
  match body with
  | (t, Returns a) => (t, Returns a)
  | (t, Raises e) =>
      match find_handler e handlers with
      | Some (t', r) => ((t ++ t')%list, r)
      | None => (t, Raises e)
      end
  end.

(** [sys.exit(code)] *)
Definition sys_exit {A} (code : Z) : M A :=
  raise (Exn (SystemExit code) (PyStr.of_Z code)).

(** [print(json.dumps(doc, indent=indent), flush=flush)] *)
Definition print_json (doc : pyvalue) (indent : option nat) (flush : bool) : M unit :=
  match json_error doc with
  | Some msg => raise (Exn TypeError msg)
  | None => emit (Print doc indent flush)
  end.

(** How the process ends: [SystemExit] gives its code, a normal return 0,
    any other exception leaves the interpreter with a traceback. *)
Inductive status : Type :=
| Exited (code : Z)
| Traceback (e : exn).

Definition run_process (m : M unit) : list event * status :=
  match m with
  | (t, Returns _) => (t, Exited 0)
  | (t, Raises e) =>
      match exn_class e with
      | SystemExit code => (t, Exited code)
      | _ => (t, Traceback e)
      end
  end.

(** ** The world outside the repository *)

Record world : Type := World {
  (** whether [from agenttext import ...] succeeds *)
  w_import : outcome unit;
  (** [os.path.exists] *)
  w_exists : string -> bool;
  (** [open(path, 'r')] followed by [json.load] *)
  w_load : string -> outcome pyvalue;
  (** [AgentText(base_url=..., timeout=...)] *)
  w_construct : option string -> option Z -> outcome unit;
  (** the reply of the client to a call *)
  w_call : client_call -> outcome pyvalue;
  (** the [n]-th [time.sleep(1)] of the watch loop: it returns, or a signal
      or an error ends it *)
  w_sleep : nat -> outcome unit;
  (** the messages the package hands to the callback: index 0 while
      [watcher.start] runs, index [n+1] during the [n]-th sleep *)
  w_incoming : nat -> list pyvalue
}.

(** A computation followed by one that may lie outside the model ([None]):
    when the first part raises, the second is never reached. *)
Definition bind_opt {A B} (m : M A) (k : A -> option (M B)) : option (M B) :=
  match m with
  | (t, Raises e) => Some (t, Raises e)
  | (t, Returns a) =>
      match k a with
      | Some (t', r) => Some ((t ++ t')%list, r)
      | None => None
      end
  end.

(** ** [argparse]

    The parsers of the scripts use positionals and long options with the
    [store] and [store_true] actions, [type=int] and [choices].  The model
    covers the command lines whose words are: a declared option string
    ([--files]), a declared option with its value attached ([--files=a]),
    [-h] or [--help], or a word that does not start with [-].  Any other
    word starting with [-] (abbreviated options, [--], negative numbers)
    is outside the model and [parse_args] answers [None] for it. *)

Module argparse.

Inductive conversion (T : Type) : Type :=
| Accept (x : T)
| Reject
| Unmodelled.
Arguments Accept {T} x.
Arguments Reject {T}.
Arguments Unmodelled {T}.

Definition is_digit (c : ascii) : bool :=
  let n := nat_of_ascii c in ((48 <=? n) && (n <=? 57))%nat.

Definition is_letter (c : ascii) : bool :=
  let n := nat_of_ascii c in
  (((65 <=? n) && (n <=? 90)) || ((97 <=? n) && (n <=? 122)))%nat.

Fixpoint all_digits (s : string) : bool :=
  match s with
  | EmptyString => true
  | String c s' => is_digit c && all_digits s'
  end.

Fixpoint has_letter (s : string) : bool :=
  match s with
  | EmptyString => false
  | String c s' => is_letter c || has_letter s'
  end.

Fixpoint digits_value (acc : Z) (s : string) : Z :=
  match s with
  | EmptyString => acc
  | String c s' => digits_value (10 * acc + Z.of_nat (nat_of_ascii c - 48)) s'
  end.

(** [int(s)] as [type=int] applies it: a plain run of at most 4300 digits
    is accepted; the empty string and a string with a letter are
    rejected; signs, underscores and surrounding whitespace are outside
    the model. *)
Definition int (s : string) : conversion Z :=
  match s with
  | EmptyString => Reject
  | _ =>
      if all_digits s && (String.length s <=? 4300)%nat
      then Accept (digits_value 0 s)
      else if has_letter s then Reject else Unmodelled
  end.

Inductive parse_result (A : Type) : Type :=
| Parsed (ns : A)        (* the namespace *)
| HelpExit               (* help printed, exit 0 *)
| UsageError.            (* usage printed on stderr, exit 2 *)
Arguments Parsed {A} ns.
Arguments HelpExit {A}.
Arguments UsageError {A}.

Inductive token : Type :=
| Word                                           (* an argument *)
| Flag (name : string) (explicit : option string)  (* an option string *)
| Unknown.                                       (* outside the model *)

Section Parser.

(** [A] is the namespace of the parser. *)
Context {A : Type}.

Inductive action : Type :=
| store (choices : option (list string)) (set : string -> A -> A)
| store_int (set : Z -> A -> A)
| store_true (set : A -> A).

(** One [parser.add_argument(name, ...)]. *)
Record argument : Type := add_argument { name : string; act : action }.

(** [defaults] is the namespace before any argument is seen.  A positional
has no default: its field is written by the time a namespace is returned,
the command line being rejected otherwise, so what [defaults] holds there
never shows. *)
Record ArgumentParser : Type :=
  { defaults : A; arguments : list argument }.

Definition is_optional (a : argument) : bool :=
  String.prefix "-" (name a).

Definition positionals (p : ArgumentParser) : list argument :=
  filter (fun a => negb (is_optional a)) (arguments p).

Definition find_optional (p : ArgumentParser) (flag : string) : option argument :=
  find (fun a => is_optional a && String.eqb (name a) flag) (arguments p).

Definition is_help (flag : string) : bool :=
  String.eqb flag "-h" || String.eqb flag "--help".

Definition declared (p : ArgumentParser) (flag : string) : bool :=
  is_help flag
  || match find_optional p flag with Some _ => true | None => false end.

(** The part before and the part after the first [=]. *)
Fixpoint split_eq (s : string) : option (string * string) :=
  match s with
  | EmptyString => None
  | String c s' =>
      if Ascii.eqb c "="%char then Some (EmptyString, s')
      else match split_eq s' with
           | Some (l, r) => Some (String c l, r)
           | None => None
           end
  end.

Definition classify (p : ArgumentParser) (tok : string) : token :=
  if negb (String.prefix "-" tok) then Word
  else if declared p tok then Flag tok None
  else if String.prefix "--" tok then
    match split_eq tok with
    | Some (flag, value) =>
        if declared p flag then Flag flag (Some value) else Unknown
    | None => Unknown
    end
  else Unknown.

Definition allowed (choices : option (list string)) (value : string) : bool :=
  match choices with
  | None => true
  | Some cs => existsb (String.eqb value) cs
  end.

(** An action that takes one argument, applied to it. *)
Definition take (a : argument) (value : string) (ns : A)
           (k : A -> option (parse_result A)) : option (parse_result A) :=
  match act a with
  | store choices set =>
      if allowed choices value then k (set value ns) else Some UsageError
  | store_int set =>
      match int value with
      | Accept z => k (set z ns)
      | Reject => Some UsageError
      | Unmodelled => None
      end
  | store_true _ => None
  end.

(** The words are consumed left to right.  [pending] are the
    positionals not yet filled, [extras] records a word that no
    positional could take. *)
Fixpoint parse_loop (p : ArgumentParser) (pending : list argument)
         (extras : bool) (ns : A) (argv : list string)
  : option (parse_result A) :=
  match argv with
  | [] =>
      match pending with
      | [] => Some (if extras then UsageError else Parsed ns)
      | _ :: _ => Some UsageError
      end
  | tok :: rest =>
      match classify p tok with
      | Unknown => None
      | Word =>
          match pending with
          | [] => parse_loop p [] true ns rest
          | a :: pending' =>
              take a tok ns (fun ns' => parse_loop p pending' extras ns' rest)
          end
      | Flag flag explicit =>
          if is_help flag then
            match explicit with
            | None => Some HelpExit
            | Some _ => Some UsageError
            end
          else
            match find_optional p flag with
            | None => None
            | Some a =>
                match act a, explicit, rest with
                | store_true set, None, _ => parse_loop p pending extras (set ns) rest
                | store_true _, Some _, _ => Some UsageError
                | _, Some value, _ =>
                    take a value ns (fun ns' => parse_loop p pending extras ns' rest)
                | _, None, [] => Some UsageError
                | _, None, value :: rest' =>
                    match classify p value with
                    | Word =>
                        take a value ns
                             (fun ns' => parse_loop p pending extras ns' rest')
                    | Flag _ _ => Some UsageError
                    | Unknown => None
                    end
                end
            end
      end
  end.

(** [parser.parse_args()] on [sys.argv[1:]] *)
Definition parse_args (p : ArgumentParser) (argv : list string)
  : option (parse_result A) :=
  parse_loop p (positionals p) false (defaults p) argv.

(** The same parser as a judgment: [parses p pending ns argv r] when the
words [argv], read from the namespace [ns] with the positionals [pending]
still to fill, are accepted and leave the namespace [r]. *)

(** The action of [a] accepts [value] and turns [ns] into [ns']. *)
Definition applies (a : argument) (value : string) (ns ns' : A) : Prop :=
  match act a with
  | store choices set => allowed choices value = true /\ ns' = set value ns
  | store_int set => exists z, int value = Accept z /\ ns' = set z ns
  | store_true _ => False
  end.

Inductive parses (p : ArgumentParser)
  : list argument -> A -> list string -> A -> Prop :=
| parses_done ns :
    parses p [] ns [] ns
| parses_positional a pending tok rest ns ns' r :
    classify p tok = Word ->
    applies a tok ns ns' ->
    parses p pending ns' rest r ->
    parses p (a :: pending) ns (tok :: rest) r
| parses_switch pending tok flag a set rest ns r :
    classify p tok = Flag flag None ->
    is_help flag = false ->
    find_optional p flag = Some a ->
    act a = store_true set ->
    parses p pending (set ns) rest r ->
    parses p pending ns (tok :: rest) r
| parses_attached pending tok flag value a rest ns ns' r :
    classify p tok = Flag flag (Some value) ->
    is_help flag = false ->
    find_optional p flag = Some a ->
    applies a value ns ns' ->
    parses p pending ns' rest r ->
    parses p pending ns (tok :: rest) r
| parses_option pending tok flag value a rest ns ns' r :
    classify p tok = Flag flag None ->
    is_help flag = false ->
    find_optional p flag = Some a ->
    classify p value = Word ->
    applies a value ns ns' ->
    parses p pending ns' rest r ->
    parses p pending ns (tok :: value :: rest) r.

(** The action of [a] keeps the property [P] of the namespace. *)
Definition preserves (P : A -> Prop) (a : argument) : Prop :=
  match act a with
  | store _ set => forall value ns, P ns -> P (set value ns)
  | store_int set => forall z ns, P ns -> P (set z ns)
  | store_true set => forall ns, P ns -> P (set ns)
  end.

End Parser.

Arguments action A : clear implicits.
Arguments argument A : clear implicits.
Arguments ArgumentParser A : clear implicits.

End argparse.

Import argparse.

(** [args = parser.parse_args()] inside [main]: the namespace, or the exit
    that [argparse] performs itself. *)
Definition parse_args_or_exit {A} (argv : list string) (r : parse_result A) : M A :=
  emit (ParseArgs argv) ;;
  match r with
  | Parsed ns => ret ns
  | HelpExit => emit HelpMessage ;; sys_exit 0
  | UsageError => emit UsageMessage ;; sys_exit 2
  end.

(** ** Pieces every script repeats *)

(** [main()] of a script with a parser: parse, then the body. *)
Definition parse_then {A} (p : ArgumentParser A) (body : world -> A -> M unit)
           (w : world) (argv : list string) : option (M unit) :=
  option_map (fun r => a <- parse_args_or_exit argv r ;; body w a)
             (parse_args p argv).

(** A dictionary literal with string keys. *)
Definition py_dict (items : list (string * pyvalue)) : pyvalue :=
  PDict (map (fun kv => (PStr (fst kv), snd kv)) items).

(** [print(json.dumps({"success": False, "error": msg}))] then
    [sys.exit(1)] *)
Definition fail_with (msg : string) : M unit :=
  print_json (py_dict [("success", PBool false); ("error", PStr msg)]) None false ;;
  sys_exit 1.

(** The [try: from agenttext import ... except ImportError:] at the top of a
    script; [hint] is the installation advice of its message. *)
Definition import_guard (w : world) (hint : string) : M unit :=
  try_except (ask Import (w_import w))
    [(exc_ImportError,
      fun _ => fail_with ("AgentText package not installed. Run: " ++ hint))].

(** A script file run as a program: the import guard, then [main()]. *)
Definition guarded {X} (hint : string) (main : world -> X -> option (M unit))
           (w : world) (x : X) : option (M unit) :=
  bind_opt (import_guard w hint) (fun _ => main w x).

Definition install_editable : string := "pip3 install -e /path/to/agenttext_package".

(** [AgentText(base_url=..., timeout=...)] *)
Definition AgentText (w : world) (base_url : option string) (timeout : option Z)
  : M unit :=
  ask (Construct base_url timeout) (w_construct w base_url timeout).

Definition call (w : world) (c : client_call) : M pyvalue :=
  ask (Call c) (w_call w c).

(** The three [except] clauses that close the [try] of the seven scripts
    importing the exception classes. *)
Definition client_handlers (base_url : string) : list (except_class * (exn -> M unit)) :=
  [(exc_AgentTextConnectionException,
    fun e => fail_with ("Connection error: " ++ exn_str e
                        ++ ". Make sure the API server is running on " ++ base_url));
   (exc_AgentTextAPIException,
    fun e => fail_with ("API error: " ++ exn_str e));
   (exc_Exception,
    fun e => fail_with (exn_str e))].

(** [x if isinstance(x, dict) else str(x)] *)
Definition dict_or_str (x : pyvalue) : pyvalue :=
  if is_dict x then x else PStr (py_str x).

(** ** The scripts

    One module per script.  [args] is the namespace of its parser,
    [main_with] what [main] does once the command line is parsed, [main]
    the whole of [main()], and [script] the file run as a program: import
    guard, then [main()]. *)

Definition default_base_url : string := "http://localhost:3000".

Module batch_send.

Record args : Type := Args { json_file : string; base_url : string }.

Definition parser : ArgumentParser args :=
  {| defaults := Args "" default_base_url;
     arguments :=
       [ add_argument "json_file" (store None (fun v a => Args v (base_url a)));
         add_argument "--base-url" (store None (fun v a => Args (json_file a) v)) ] |}.

Definition main_with (w : world) (a : args) : M unit :=
  try_except
    (messages <- ask (LoadJson (json_file a)) (w_load w (json_file a)) ;;
     match messages with
     | PList msgs =>
         AgentText w (Some (base_url a)) (Some 30%Z) ;;
         results <- call w (messages_send_batch msgs) ;;
         print_json
           (py_dict [("success", PBool true);
                     ("message", PStr ("Sent " ++ PyStr.of_nat (length msgs) ++ " messages"));
                     ("results", if is_list results then results else PList [])])
           (Some 2%nat) false
     | _ =>
         print_json
           (py_dict [("success", PBool false);
                     ("error", PStr "JSON file must contain an array of messages")])
           None false ;;
         sys_exit 1
     end)
    ((exc_FileNotFoundError,
      fun _ => fail_with ("File not found: " ++ json_file a))
     :: (exc_JSONDecodeError,
         fun e => fail_with ("Invalid JSON: " ++ exn_str e))
     :: client_handlers (base_url a)).

Definition main : world -> list string -> option (M unit) :=
  parse_then parser main_with.

Definition script : world -> list string -> option (M unit) :=
  guarded install_editable main.

End batch_send.

Module get_messages.

Record args : Type :=
  Args { limit : Z; sender : option string; unread_only : bool; base_url : string }.

Definition parser : ArgumentParser args :=
  {| defaults := Args 10 None false default_base_url;
     arguments :=
       [ add_argument "--limit"
           (store_int (fun v a => Args v (sender a) (unread_only a) (base_url a)));
         add_argument "--sender"
           (store None (fun v a => Args (limit a) (Some v) (unread_only a) (base_url a)));
         add_argument "--unread-only"
           (store_true (fun a => Args (limit a) (sender a) true (base_url a)));
         add_argument "--base-url"
           (store None (fun v a => Args (limit a) (sender a) (unread_only a) v)) ] |}.

Definition filters (a : args) : list (string * pyvalue) :=
  ([("limit", PInt (limit a))]
   ++ match sender a with
      | Some s => if PyStr.truthy s then [("sender", PStr s)] else []
      | None => []
      end
   ++ (if unread_only a then [("unreadOnly", PBool true)] else []))%list.

Definition main_with (w : world) (a : args) : M unit :=
  try_except
    (AgentText w (Some (base_url a)) (Some 30%Z) ;;
     messages <- call w (messages_list (filters a)) ;;
     print_json
       (py_dict [("success", PBool true);
                 ("messages", if is_list messages || is_dict messages
                              then messages else PList []);
                 ("count", match messages with
                           | PList xs => PInt (py_len xs)
                           | _ => PInt 0
                           end)])
       (Some 2%nat) false)
    (client_handlers (base_url a)).

Definition main : world -> list string -> option (M unit) :=
  parse_then parser main_with.

Definition script : world -> list string -> option (M unit) :=
  guarded install_editable main.

End get_messages.

Module get_unread.

Record args : Type := Args { base_url : string }.

Definition parser : ArgumentParser args :=
  {| defaults := Args default_base_url;
     arguments := [ add_argument "--base-url" (store None (fun v _ => Args v)) ] |}.

Definition main_with (w : world) (a : args) : M unit :=
  try_except
    (AgentText w (Some (base_url a)) (Some 30%Z) ;;
     unread <- call w messages_get_unread ;;
     print_json (py_dict [("success", PBool true); ("unread", unread)])
                (Some 2%nat) false)
    (client_handlers (base_url a)).

Definition main : world -> list string -> option (M unit) :=
  parse_then parser main_with.

Definition script : world -> list string -> option (M unit) :=
  guarded install_editable main.

End get_unread.

Module list_chats.

Record args : Type :=
  Args { limit : Z; type : option string; base_url : string }.

Definition parser : ArgumentParser args :=
  {| defaults := Args 20 None default_base_url;
     arguments :=
       [ add_argument "--limit"
           (store_int (fun v a => Args v (type a) (base_url a)));
         add_argument "--type"
           (store (Some ["group"; "direct"])
                  (fun v a => Args (limit a) (Some v) (base_url a)));
         add_argument "--base-url"
           (store None (fun v a => Args (limit a) (type a) v)) ] |}.

Definition filters (a : args) : list (string * pyvalue) :=
  ([("limit", PInt (limit a))]
   ++ match type a with
      | Some t => if PyStr.truthy t then [("type", PStr t)] else []
      | None => []
      end)%list.

Definition main_with (w : world) (a : args) : M unit :=
  try_except
    (AgentText w (Some (base_url a)) (Some 30%Z) ;;
     chats <- call w (chats_list (filters a)) ;;
     print_json
       (py_dict [("success", PBool true);
                 ("chats", if is_list chats then chats else PList []);
                 ("count", match chats with
                           | PList xs => PInt (py_len xs)
                           | _ => PInt 0
                           end)])
       (Some 2%nat) false)
    (client_handlers (base_url a)).

Definition main : world -> list string -> option (M unit) :=
  parse_then parser main_with.

Definition script : world -> list string -> option (M unit) :=
  guarded install_editable main.

End list_chats.

Module send_file.

Record args : Type :=
  Args { recipient : string; file_path : string; text : option string;
         base_url : string }.

Definition parser : ArgumentParser args :=
  {| defaults := Args "" "" None default_base_url;
     arguments :=
       [ add_argument "recipient"
           (store None (fun v a => Args v (file_path a) (text a) (base_url a)));
         add_argument "file_path"
           (store None (fun v a => Args (recipient a) v (text a) (base_url a)));
         add_argument "--text"
           (store None (fun v a => Args (recipient a) (file_path a) (Some v) (base_url a)));
         add_argument "--base-url"
           (store None (fun v a => Args (recipient a) (file_path a) (text a) v)) ] |}.

Definition main_with (w : world) (a : args) : M unit :=
  found <- ask (PathExists (file_path a)) (Returns (w_exists w (file_path a))) ;;
  (if negb found then fail_with ("File not found: " ++ file_path a) else ret tt) ;;
  try_except
    (AgentText w (Some (base_url a)) (Some 30%Z) ;;
     result <- call w (messages_send_file (recipient a) (file_path a) (text a)) ;;
     print_json
       (py_dict [("success", PBool true);
                 ("message", PStr ("File sent to " ++ recipient a));
                 ("file", PStr (file_path a));
                 ("result", dict_or_str result)])
       None false)
    (client_handlers (base_url a)).

Definition main : world -> list string -> option (M unit) :=
  parse_then parser main_with.

Definition script : world -> list string -> option (M unit) :=
  guarded install_editable main.

End send_file.

Module send_message.

Record args : Type :=
  Args { recipient : string; message : string; files : option string;
         base_url : string }.

Definition parser : ArgumentParser args :=
  {| defaults := Args "" "" None default_base_url;
     arguments :=
       [ add_argument "recipient"
           (store None (fun v a => Args v (message a) (files a) (base_url a)));
         add_argument "message"
           (store None (fun v a => Args (recipient a) v (files a) (base_url a)));
         add_argument "--files"
           (store None (fun v a => Args (recipient a) (message a) (Some v) (base_url a)));
         add_argument "--base-url"
           (store None (fun v a => Args (recipient a) (message a) (files a) v)) ] |}.

(** [if args.files:] is false for [None] and for the empty string. *)
Definition files_given (a : args) : option string :=
  match files a with
  | Some s => if PyStr.truthy s then Some s else None
  | None => None
  end.

Definition main_with (w : world) (a : args) : M unit :=
  try_except
    (AgentText w (Some (base_url a)) (Some 30%Z) ;;
     result <-
       match files_given a with
       | Some s =>
           let file_paths := map PyStr.strip (PyStr.split "," s) in
           call w (messages_send_files (recipient a) file_paths (message a))
       | None =>
           call w (messages_send (recipient a) (message a))
       end ;;
     print_json
       (py_dict [("success", PBool true);
                 ("message", PStr ("Message sent to " ++ recipient a));
                 ("result", dict_or_str result)])
       None false)
    (client_handlers (base_url a)).

Definition main : world -> list string -> option (M unit) :=
  parse_then parser main_with.

Definition script : world -> list string -> option (M unit) :=
  guarded install_editable main.

End send_message.

Module watcher.

Record args : Type :=
  Args { action : string; webhook_url : option string; base_url : string }.

Definition parser : ArgumentParser args :=
  {| defaults := Args "" None default_base_url;
     arguments :=
       [ add_argument "action"
           (store (Some ["start"; "stop"; "status"])
                  (fun v a => Args v (webhook_url a) (base_url a)));
         add_argument "--webhook-url"
           (store None (fun v a => Args (action a) (Some v) (base_url a)));
         add_argument "--base-url"
           (store None (fun v a => Args (action a) (webhook_url a) v)) ] |}.

(** [{'url': args.webhook_url} if args.webhook_url else None] *)
Definition webhook (a : args) : pyvalue :=
  match webhook_url a with
  | Some u => if PyStr.truthy u then py_dict [("url", PStr u)] else PNone
  | None => PNone
  end.

Definition main_with (w : world) (a : args) : M unit :=
  try_except
    (AgentText w (Some (base_url a)) (Some 30%Z) ;;
     if String.eqb (action a) "start" then
       result <- call w (watcher_start_webhook (webhook a)) ;;
       print_json
         (py_dict [("success", PBool true);
                   ("action", PStr "start");
                   ("message", PStr "Watcher started");
                   ("result", dict_or_str result)])
         None false
     else if String.eqb (action a) "stop" then
       result <- call w watcher_stop ;;
       print_json
         (py_dict [("success", PBool true);
                   ("action", PStr "stop");
                   ("message", PStr "Watcher stopped");
                   ("result", dict_or_str result)])
         None false
     else if String.eqb (action a) "status" then
       result <- call w watcher_status ;;
       print_json
         (py_dict [("success", PBool true);
                   ("action", PStr "status");
                   ("status", dict_or_str result)])
         (Some 2%nat) false
     else ret tt)
    (client_handlers (base_url a)).

Definition main : world -> list string -> option (M unit) :=
  parse_then parser main_with.

Definition script : world -> list string -> option (M unit) :=
  guarded install_editable main.

End watcher.

Module simple_test.

(** [AgentText()] takes no argument here, and the script reads no command
    line. *)
Definition main (w : world) : M unit :=
  try_except
    (AgentText w None None ;;
     result <- call w (messages_send "+9255776728" "Hello!") ;;
     print_json
       (py_dict [("success", PBool true);
                 ("message", PStr "Test message sent successfully!");
                 ("result", dict_or_str result)])
       None false)
    [(exc_Exception, fun e => fail_with (exn_str e))].

Definition script (w : world) : option (M unit) :=
  guarded install_editable (fun w (_ : unit) => Some (main w)) w tt.

End simple_test.

Module watch_messages.

(** Callback for new messages *)
Definition on_message (message : pyvalue) : M unit :=
  print_json (py_dict [("event", PStr "message"); ("data", dict_or_str message)])
             None true.

(** The package calls the callback once per incoming message; what the
    callback prints is seen, an exception escaping it stays inside the
    package. *)
Definition deliver (messages : list pyvalue) : list event :=
  concat (map (fun m => fst (on_message m)) messages).

(** [client.watcher.start(callback=on_message)] *)
Definition start (w : world) : M pyvalue :=
  ((Call watcher_start_callback :: deliver (w_incoming w 0))%list,
   w_call w watcher_start_callback).

(** [time.sleep(1)], the [n]-th of the loop *)
Definition sleep (w : world) (n : nat) : M unit :=
  ((Sleep :: deliver (w_incoming w (S n)))%list, w_sleep w n).

(** [while True: time.sleep(1)]: the loop only ends by an exception;
    [None] when [fuel] iterations did not see one. *)
Fixpoint watch_loop (w : world) (fuel n : nat) : option (M unit) :=
  match fuel with
  | O => None
  | S fuel' => bind_opt (sleep w n) (fun _ => watch_loop w fuel' (S n))
  end.

Definition handlers : list (except_class * (exn -> M unit)) :=
  [(exc_KeyboardInterrupt,
    fun _ => print_json (py_dict [("success", PBool true);
                                  ("message", PStr "Watcher stopped")])
                        None true);
   (exc_Exception,
    fun e => print_json (py_dict [("success", PBool false);
                                  ("error", PStr (exn_str e))])
                        None true ;;
             sys_exit 1)].

Definition main (w : world) (fuel : nat) : option (M unit) :=
  option_map (fun body => try_except body handlers)
    (bind_opt
       (AgentText w (Some "http://localhost:3000") None ;;
        print_json (py_dict [("success", PBool true);
                             ("message", PStr "Starting message watcher...")])
                   None true ;;
        start w)
       (fun _ => watch_loop w fuel 0)).

Definition script : world -> nat -> option (M unit) :=
  guarded "pip3 install agenttext" main.

End watch_messages.

(** ** The nine commands *)

Inductive command : Type :=
| BatchSend
| GetMessages
| GetUnread
| ListChats
| SendFile
| SendMessage
| Watcher
| WatchMessages
| SimpleTest.

(** One run of a command: the events in order and how the process ended.
    [None] when the command line is outside the [argparse] model, or when
    the watch loop is still running after [fuel] sleeps. *)
Definition run (c : command) (w : world) (argv : list string) (fuel : nat)
  : option (list event * status) :=
  option_map run_process
    match c with
    | BatchSend => batch_send.script w argv
    | GetMessages => get_messages.script w argv
    | GetUnread => get_unread.script w argv
    | ListChats => list_chats.script w argv
    | SendFile => send_file.script w argv
    | SendMessage => send_message.script w argv
    | Watcher => watcher.script w argv
    | WatchMessages => watch_messages.script w fuel
    | SimpleTest => simple_test.script w
    end.

(** The namespace of one of the seven parsers. *)
Inductive namespace : Type :=
| batch_send_args (a : batch_send.args)
| get_messages_args (a : get_messages.args)
| get_unread_args (a : get_unread.args)
| list_chats_args (a : list_chats.args)
| send_file_args (a : send_file.args)
| send_message_args (a : send_message.args)
| watcher_args (a : watcher.args).

(** What [main()] does after [parse_args()], whatever the command line
    that gave the namespace. *)
Definition main_after_parse (w : world) (ns : namespace) : M unit :=
  match ns with
  | batch_send_args a => batch_send.main_with w a
  | get_messages_args a => get_messages.main_with w a
  | get_unread_args a => get_unread.main_with w a
  | list_chats_args a => list_chats.main_with w a
  | send_file_args a => send_file.main_with w a
  | send_message_args a => send_message.main_with w a
  | watcher_args a => watcher.main_with w a
  end.

(** [args.base_url] *)
Definition base_url_of (ns : namespace) : string :=
  match ns with
  | batch_send_args a => batch_send.base_url a
  | get_messages_args a => get_messages.base_url a
  | get_unread_args a => get_unread.base_url a
  | list_chats_args a => list_chats.base_url a
  | send_file_args a => send_file.base_url a
  | send_message_args a => send_message.base_url a
  | watcher_args a => watcher.base_url a
  end.

(** ** Vocabulary of the statements *)

(** The document carries [success] with the given truth value. *)
Definition success_is (b : bool) (doc : pyvalue) : Prop :=
  dict_get "success" doc = Some (PBool b).

Definition is_failure_print (ev : event) : bool :=
  match ev with
  | Print doc _ _ =>
      match dict_get "success" doc with
      | Some (PBool false) => true
      | _ => false
      end
  | _ => false
  end.

(** A failure envelope was printed during the run. *)
Definition prints_failure (t : list event) : Prop :=
  exists doc indent flush, In (Print doc indent flush) t /\ success_is false doc.

(** Every event of a computation satisfies [Q]. *)
Definition all_events {A} (Q : event -> Prop) (m : M A) : Prop :=
  Forall Q (fst m).

(** No failure envelope is printed. *)
Definition quiet {A} (m : M A) : Prop :=
  all_events (fun ev => is_failure_print ev = false) m.

(** No failure envelope is printed, or the computation ends in
    [sys.exit(1)]. *)
Definition failure_exits {A} (m : M A) : Prop :=
  quiet m \/ exists s, snd m = Raises (Exn (SystemExit 1) s).

(** The commands that build an [argparse] parser. *)
Definition has_parser (c : command) : bool :=
  match c with
  | WatchMessages | SimpleTest => false
  | _ => true
  end.

(** The client signalled a connection failure during the run: the
    constructor or the method that the trace shows was answered by an
    [AgentTextConnectionException]. *)
Definition connection_failure (w : world) (t : list event) : Prop :=
  exists e,
    exn_class e = AgentTextConnectionException
    /\ ((exists b tm, In (Construct b tm) t /\ w_construct w b tm = Raises e)
        \/ (exists c, In (Call c) t /\ w_call w c = Raises e)).

(** The event is not the construction of a client, or it is the
    construction with these arguments. *)
Definition constructs (base_url : option string) (timeout : option Z)
           (ev : event) : Prop :=
  forall b tm, ev = Construct b tm -> b = base_url /\ tm = timeout.

(** The event does not involve the client. *)
Definition no_client (ev : event) : Prop :=
  match ev with
  | Construct _ _ | Call _ => False
  | _ => True
  end.

Definition is_parsed {A} (r : option (parse_result A)) : bool :=
  match r with
  | Some (Parsed _) => true
  | _ => false
  end.

(** The command takes the command line: its parser accepts it, or the
    script never looks at it. *)
Definition accepts (c : command) (argv : list string) : bool :=
  match c with
  | BatchSend => is_parsed (parse_args batch_send.parser argv)
  | GetMessages => is_parsed (parse_args get_messages.parser argv)
  | GetUnread => is_parsed (parse_args get_unread.parser argv)
  | ListChats => is_parsed (parse_args list_chats.parser argv)
  | SendFile => is_parsed (parse_args send_file.parser argv)
  | SendMessage => is_parsed (parse_args send_message.parser argv)
  | Watcher => is_parsed (parse_args watcher.parser argv)
  | WatchMessages | SimpleTest => true
  end.

(** The parser declares [--base-url] as an option that stores its
    argument in the field [get], whose default is the local server, and no
    other argument writes that field. *)
Definition base_url_option {A} (p : ArgumentParser A) (get : A -> string) : Prop :=
  get (defaults p) = default_base_url
  /\ (forall a, In a (arguments p) -> name a <> "--base-url" ->
                preserves (fun ns => get ns = default_base_url) a)
  /\ exists a0 set,
      find_optional p "--base-url" = Some a0
      /\ act a0 = store None set
      /\ forall u ns, get (set u ns) = u.

(** The only client the event may construct is the one against [base],
    the only call it may make is [c0]. *)
Definition only_client (base : string) (c0 : client_call) (ev : event) : Prop :=
  match ev with
  | Construct b tm => b = Some base /\ tm = Some 30%Z
  | Call c => c = c0
  | _ => True
  end.

Definition not_a_call (ev : event) : Prop :=
  match ev with
  | Call _ => False
  | _ => True
  end.

(** The computation ends in [sys.exit(1)] after printing a failure envelope
    whose error contains [base], the base URL its client was constructed
    with. *)
Definition reports_connection (base : string) (m : M unit) : Prop :=
  (exists s, snd m = Raises (Exn (SystemExit 1) s))
  /\ In (Construct (Some base) (Some 30%Z)) (fst m)
  /\ exists err,
      In (Print (py_dict [("success", PBool false); ("error", PStr err)]) None false)
         (fst m)
      /\ PyStr.contains base err = true.

(** The shape shared by the seven scripts: after some local steps [pre],
    build the client, make one call, hand the reply to [k]; the three
    client handlers close the [try], after the handlers [extra]. *)
Definition attempt (w : world) (base : string) (c0 : client_call)
           (k : pyvalue -> M unit) (pre : list event)
           (extra : list (except_class * (exn -> M unit))) : M unit :=
  try_except
    ((pre, Returns tt) ;;
     AgentText w (Some base) (Some 30%Z) ;;
     v <- call w c0 ;;
     k v)
    (extra ++ client_handlers base).

(** No word of the command line starts with the option string. *)
Definition absent (flag : string) (argv : list string) : bool :=
  forallb (fun tok => negb (String.prefix flag tok)) argv.

(** Shapes of strings: made of whitespace only, starting with a
    whitespace character, ending with one. *)
Fixpoint all_space (s : string) : bool :=
  match s with
  | EmptyString => true
  | String c s' => PyStr.isspace c && all_space s'
  end.

Definition head_space (s : string) : bool :=
  match s with
  | EmptyString => false
  | String c _ => PyStr.isspace c
  end.

Fixpoint last_space (s : string) : bool :=
  match s with
  | EmptyString => false
  | String c EmptyString => PyStr.isspace c
  | String _ s' => last_space s'
  end.

(** What the legacy watcher prints when it is interrupted. *)
Definition watcher_stopped : event :=
  Print (py_dict [("success", PBool true); ("message", PStr "Watcher stopped")])
        None true.

(** *** Sample worlds *)

(** Everything works; the client answers every call with [reply]. *)
Definition calm (reply : pyvalue) : world :=
  {| w_import := Returns tt;
     w_exists := fun _ => true;
     w_load := fun _ => Returns (PList [py_dict [("to", PStr "+1234567890");
                                                 ("content", PStr "Hello!")];
                                        py_dict [("to", PStr "user@example.com");
                                                 ("content", PStr "Hi there!")]]);
     w_construct := fun _ _ => Returns tt;
     w_call := fun _ => Returns reply;
     w_sleep := fun _ => Returns tt;
     w_incoming := fun _ => [] |}.

(** The package is not installed. *)
Definition not_installed : world :=
  {| w_import := Raises (Exn ImportError "No module named 'agenttext'");
     w_exists := fun _ => true;
     w_load := fun _ => Returns PNone;
     w_construct := fun _ _ => Returns tt;
     w_call := fun _ => Returns PNone;
     w_sleep := fun _ => Returns tt;
     w_incoming := fun _ => [] |}.

(** The API server is down: every call of the client is refused. *)
Definition server_down : world :=
  {| w_import := Returns tt;
     w_exists := fun _ => true;
     w_load := fun _ => Returns (PList []);
     w_construct := fun _ _ => Returns tt;
     w_call := fun _ => Raises (Exn AgentTextConnectionException "Connection refused");
     w_sleep := fun _ => Returns tt;
     w_incoming := fun _ => [] |}.

(** No file exists; a file that is read holds a JSON object. *)
Definition empty_disk : world :=
  {| w_import := Returns tt;
     w_exists := fun _ => false;
     w_load := fun _ => Returns (py_dict [("to", PStr "+1234567890")]);
     w_construct := fun _ _ => Returns tt;
     w_call := fun _ => Returns PNone;
     w_sleep := fun _ => Returns tt;
     w_incoming := fun _ => [] |}.

(** One message arrives during the first sleep, Ctrl-C during the third. *)
Definition interrupted : world :=
  {| w_import := Returns tt;
     w_exists := fun _ => true;
     w_load := fun _ => Returns PNone;
     w_construct := fun _ _ => Returns tt;
     w_call := fun _ => Returns PNone;
     w_sleep := fun n => if Nat.eqb n 2 then Raises (Exn KeyboardInterrupt "")
                         else Returns tt;
     w_incoming := fun n => if Nat.eqb n 1 then [py_dict [("text", PStr "hi")]]
                            else [] |}.

(** ** Vocabulary of the further properties *)

Definition map_result {A B} (f : A -> B) (r : parse_result A) : parse_result B :=
  match r with
  | Parsed ns => Parsed (f ns)
  | HelpExit => HelpExit
  | UsageError => UsageError
  end.

(** [parser.parse_args()] of a command, its namespace tagged with the
    script it belongs to; the two scripts without a parser have none. *)
Definition parse_command (c : command) (argv : list string)
  : option (parse_result namespace) :=
  match c with
  | BatchSend => option_map (map_result batch_send_args) (parse_args batch_send.parser argv)
  | GetMessages =>
      option_map (map_result get_messages_args) (parse_args get_messages.parser argv)
  | GetUnread => option_map (map_result get_unread_args) (parse_args get_unread.parser argv)
  | ListChats => option_map (map_result list_chats_args) (parse_args list_chats.parser argv)
  | SendFile => option_map (map_result send_file_args) (parse_args send_file.parser argv)
  | SendMessage =>
      option_map (map_result send_message_args) (parse_args send_message.parser argv)
  | Watcher => option_map (map_result watcher_args) (parse_args watcher.parser argv)
  | WatchMessages | SimpleTest => None
  end.

(** The failure envelope [{"success": false, "error": msg}]. *)
Definition failure_doc (msg : string) : pyvalue :=
  py_dict [("success", PBool false); ("error", PStr msg)].

Definition is_print (ev : event) : bool :=
  match ev with Print _ _ _ => true | _ => false end.

Definition is_construct (ev : event) : bool :=
  match ev with Construct _ _ => true | _ => false end.

Definition is_call (ev : event) : bool :=
  match ev with Call _ => true | _ => false end.

(** Nothing is printed. *)
Definition silent (t : list event) : Prop :=
  Forall (fun ev => is_print ev = false) t.

(** The documents printed, in order. *)
Fixpoint printed (t : list event) : list pyvalue :=
  match t with
  | [] => []
  | Print doc _ _ :: rest => doc :: printed rest
  | _ :: rest => printed rest
  end.

Definition how_many (f : event -> bool) (t : list event) : nat :=
  length (filter f t).

(** The computation prints nothing, or prints one document as its last
    step: a success envelope and it returns, or a failure envelope and it
    leaves through [sys.exit(1)]. *)
Definition answers (m : M unit) : Prop :=
  silent (fst m)
  \/ exists t doc indent flush,
      fst m = (t ++ [Print doc indent flush])%list
      /\ silent t
      /\ ((success_is true doc /\ snd m = Returns tt)
          \/ (success_is false doc /\ exists s, snd m = Raises (Exn (SystemExit 1) s))).

(** The computation performs no event of the kind [f]. *)
Definition free {A} (f : event -> bool) (m : M A) : Prop :=
  all_events (fun ev => f ev = false) m.

(** The computation performs at most [n] events of the kind [f]. *)
Definition at_most {A} (f : event -> bool) (n : nat) (m : M A) : Prop :=
  (how_many f (fst m) <= n)%nat.

(** The client raised [e] during the run: in its constructor or in the
    method that the trace shows. *)
Definition client_raised (w : world) (t : list event) (e : exn) : Prop :=
  (exists b tm, In (Construct b tm) t /\ w_construct w b tm = Raises e)
  \/ (exists c, In (Call c) t /\ w_call w c = Raises e).

(** The [except] clauses that close the [try] of a script with a parser. *)
Definition handlers_of (ns : namespace) : list (except_class * (exn -> M unit)) :=
  match ns with
  | batch_send_args a =>
      (exc_FileNotFoundError,
       fun _ => fail_with ("File not found: " ++ batch_send.json_file a))
      :: (exc_JSONDecodeError,
          fun e => fail_with ("Invalid JSON: " ++ exn_str e))
      :: client_handlers (batch_send.base_url a)
  | _ => client_handlers (base_url_of ns)
  end.

(** The event is local, or the construction of this client, or this
    call. *)
Definition in_session (b : option string) (tm : option Z) (c0 : client_call)
           (ev : event) : Prop :=
  match ev with
  | Construct b' tm' => b' = b /\ tm' = tm
  | Call c => c = c0
  | _ => True
  end.

(** How the process ends when [e] propagates out of [main]. *)
Definition status_of (e : exn) : status :=
  match exn_class e with
  | SystemExit code => Exited code
  | _ => Traceback e
  end.

(** Every call of the client raises [e]. *)
Definition refusing (e : exn) : world :=
  {| w_import := Returns tt;
     w_exists := fun _ => true;
     w_load := fun _ => Returns (PList []);
     w_construct := fun _ _ => Returns tt;
     w_call := fun _ => Raises e;
     w_sleep := fun _ => Returns tt;
     w_incoming := fun _ => [] |}.

(** Reading any JSON file raises [e]. *)
Definition unreadable (e : exn) : world :=
  {| w_import := Returns tt;
     w_exists := fun _ => true;
     w_load := fun _ => Raises e;
     w_construct := fun _ _ => Returns tt;
     w_call := fun _ => Returns PNone;
     w_sleep := fun _ => Returns tt;
     w_incoming := fun _ => [] |}.

(** The client answered [v]: the method that the trace shows returned
    it. *)
Definition client_answered (w : world) (t : list event) (v : pyvalue) : Prop :=
  exists c, In (Call c) t /\ w_call w c = Returns v.

(** What a script with a parser writes of the reply [v] into its success
    envelope, apart from the count. *)
Definition forwarded (ns : namespace) (v : pyvalue) : pyvalue :=
  match ns with
  | batch_send_args _ => if is_list v then v else PList []
  | get_messages_args _ => if is_list v || is_dict v then v else PList []
  | get_unread_args _ => v
  | list_chats_args _ => if is_list v then v else PList []
  | send_file_args _ | send_message_args _ | watcher_args _ => dict_or_str v
  end.

(** What a run looks like whose outcome the reply decided. *)
Definition decided (x : pyvalue) (m : M unit) : Prop :=
  match json_error x with
  | None =>
      snd m = Returns tt
      /\ exists t0 doc indent key,
          fst m = (t0 ++ [Print doc indent false])%list
          /\ silent t0 /\ success_is true doc /\ dict_get key doc = Some x
  | Some msg =>
      snd m = Raises (Exn (SystemExit 1) "1")
      /\ exists t0,
          fst m = (t0 ++ [Print (failure_doc msg) None false])%list /\ silent t0
  end.

(** How many positional arguments the parser of a command declares. *)
Definition required (c : command) : nat :=
  match c with
  | BatchSend => length (positionals batch_send.parser)
  | GetMessages => length (positionals get_messages.parser)
  | GetUnread => length (positionals get_unread.parser)
  | ListChats => length (positionals list_chats.parser)
  | SendFile => length (positionals send_file.parser)
  | SendMessage => length (positionals send_message.parser)
  | Watcher => length (positionals watcher.parser)
  | WatchMessages | SimpleTest => 0
  end.

(** The line that the legacy watcher prints for the message [m]. *)
Definition event_doc (m : pyvalue) : pyvalue :=
  py_dict [("event", PStr "message"); ("data", dict_or_str m)].

(** The messages that arrive during the start of the watcher and its
    first [n] sleeps, in order. *)
Definition incoming_until (w : world) (n : nat) : list pyvalue :=
  concat (map (w_incoming w) (seq 0 (S n))).

(** Every print of the trace is a single line that is flushed. *)
Definition flushed (t : list event) : Prop :=
  Forall (fun ev => match ev with
                    | Print _ indent flush => indent = None /\ flush = true
                    | _ => True
                    end) t.

(** How often the character occurs in the string. *)
Fixpoint count_char (c : ascii) (s : string) : nat :=
  match s with
  | EmptyString => 0
  | String d s' => ((if Ascii.eqb d c then 1 else 0) + count_char c s')%nat
  end.

(** The string has a whitespace character. *)
Fixpoint any_space (s : string) : bool :=
  match s with
  | EmptyString => false
  | String c s' => PyStr.isspace c || any_space s'
  end.

(** A file path as [send message] forwards it: without a comma and
    without whitespace at either end. *)
Definition trimmed_piece (p : string) : Prop :=
  PyStr.mem_char "," p = false /\ head_space p = false /\ last_space p = false.

(** ** Laws of the monad *)

Section Laws.

Context {A B : Type}.

Lemma bind_returns (t : list event) (a : A) (k : A -> M B) :
  bind (t, Returns a) k = ((t ++ fst (k a))%list, snd (k a)).
Proof. unfold bind. destruct (k a). reflexivity. Qed.

Lemma bind_raises (t : list event) (e : exn) (k : A -> M B) :
  bind (t, Raises e) k = (t, Raises e).
Proof. reflexivity. Qed.

Lemma system_exit_not_caught (code : Z) (s : string)
      (handlers : list (except_class * (exn -> M A))) :
  find_handler (Exn (SystemExit code) s) handlers = None.
Proof.
  induction handlers as [| [cls h] rest IH]; simpl; [reflexivity |].
  destruct cls; simpl; exact IH.
Qed.

Lemma find_handler_In (e : exn) (handlers : list (except_class * (exn -> M A)))
      (m : M A) :
  find_handler e handlers = Some m ->
  exists cls h, In (cls, h) handlers /\ isinstance_exn e cls = true /\ m = h e.
Proof.
  induction handlers as [| [cls h] rest IH]; simpl; [discriminate |].
  destruct (isinstance_exn e cls) eqn:Hc.
  - intros [= <-]. exists cls, h. auto.
  - intros H. destruct (IH H) as (cls' & h' & Hin & Hi & Hm).
    exists cls', h'. auto.
Qed.

End Laws.

Section AllEvents.

Variable Q : event -> Prop.

Lemma all_events_ret {A} (a : A) : all_events Q (ret a).
Proof. constructor. Qed.

Lemma all_events_raise {A} (e : exn) : all_events Q (@raise A e).
Proof. constructor. Qed.

Lemma all_events_ask {A} (ev : event) (reply : outcome A) :
  Q ev -> all_events Q (ask ev reply).
Proof. intros H. repeat constructor. exact H. Qed.

Lemma all_events_emit (ev : event) : Q ev -> all_events Q (emit ev).
Proof. intros H. repeat constructor. exact H. Qed.

Lemma all_events_print_json doc indent flush :
  Q (Print doc indent flush) -> all_events Q (print_json doc indent flush).
Proof.
  intros H. unfold print_json. destruct (json_error doc).
  - constructor.
  - apply all_events_emit, H.
Qed.

Lemma all_events_bind {A B} (m : M A) (k : A -> M B) :
  all_events Q m -> (forall a, all_events Q (k a)) -> all_events Q (bind m k).
Proof.
  destruct m as [t [a | e]]; intros Hm Hk.
  - rewrite bind_returns. apply Forall_app. split; [exact Hm | apply Hk].
  - exact Hm.
Qed.

Lemma all_events_try {A} (body : M A) handlers :
  all_events Q body ->
  (forall cls h e, In (cls, h) handlers -> all_events Q (h e)) ->
  all_events Q (try_except body handlers).
Proof.
  destruct body as [t [a | e]]; intros Hb Hh; simpl; [exact Hb |].
  destruct (find_handler e handlers) as [[t' r] |] eqn:Hf; [| exact Hb].
  apply find_handler_In in Hf. destruct Hf as (cls & h & Hin & _ & Heq).
  apply Forall_app. split; [exact Hb |].
  specialize (Hh cls h e Hin). rewrite <- Heq in Hh. exact Hh.
Qed.

Lemma all_events_bind_opt {A B} (m : M A) (k : A -> option (M B)) r :
  all_events Q m ->
  (forall a m', k a = Some m' -> all_events Q m') ->
  bind_opt m k = Some r -> all_events Q r.
Proof.
  destruct m as [t [a | e]]; simpl; intros Hm Hk.
  - destruct (k a) as [[t' r'] |] eqn:Hka; [| discriminate].
    intros [= <-]. apply Forall_app. split; [exact Hm |].
    exact (Hk a _ Hka).
  - intros [= <-]. exact Hm.
Qed.

End AllEvents.

(** ** Failure envelopes and the exit code *)

Ltac events :=
  unfold quiet, AgentText, call;
  repeat first
    [ apply all_events_ret
    | apply all_events_raise
    | apply all_events_ask
    | apply all_events_emit
    | apply all_events_print_json
    | apply all_events_bind
    | intro
    | reflexivity
    | match goal with
      | |- all_events _ (match ?x with _ => _ end) => destruct x
      end ].

Lemma failure_exits_quiet {A} (m : M A) : quiet m -> failure_exits m.
Proof. intros H. left. exact H. Qed.

Lemma failure_exits_returns {A} (t : list event) (a : A) :
  failure_exits (t, Returns a) -> quiet (t, Returns a).
Proof. intros [H | [s H]]; [exact H | discriminate]. Qed.

Lemma failure_exits_bind {A B} (m : M A) (k : A -> M B) :
  failure_exits m -> (forall a, failure_exits (k a)) -> failure_exits (bind m k).
Proof.
  destruct m as [t [a | e]]; intros Hm Hk.
  - apply failure_exits_returns in Hm. rewrite bind_returns.
    destruct (Hk a) as [Hq | [s Hs]].
    + left. apply Forall_app. split; assumption.
    + right. exists s. exact Hs.
  - destruct Hm as [Hq | [s Hs]].
    + left. exact Hq.
    + right. exists s. simpl in *. injection Hs as ->. reflexivity.
Qed.

Lemma failure_exits_try {A} (body : M A) handlers :
  failure_exits body ->
  (forall cls h e, In (cls, h) handlers -> failure_exits (h e)) ->
  failure_exits (try_except body handlers).
Proof.
  destruct body as [t [a | e]]; intros Hb Hh; simpl; [exact Hb |].
  destruct Hb as [Hq | [s Hs]].
  - destruct (find_handler e handlers) as [[t' r] |] eqn:Hf; [| left; exact Hq].
    apply find_handler_In in Hf. destruct Hf as (cls & h & Hin & _ & Heq).
    specialize (Hh cls h e Hin). rewrite <- Heq in Hh.
    destruct Hh as [Hq' | [s Hs]].
    + left. apply Forall_app. split; assumption.
    + right. exists s. exact Hs.
  - simpl in Hs. injection Hs as ->. rewrite system_exit_not_caught.
    right. exists s. reflexivity.
Qed.

Lemma failure_exits_bind_opt {A B} (m : M A) (k : A -> option (M B)) r :
  failure_exits m ->
  (forall a m', k a = Some m' -> failure_exits m') ->
  bind_opt m k = Some r -> failure_exits r.
Proof.
  destruct m as [t [a | e]]; simpl; intros Hm Hk.
  - apply failure_exits_returns in Hm.
    destruct (k a) as [[t' r'] |] eqn:Hka; [| discriminate].
    intros [= <-]. destruct (Hk a _ Hka) as [Hq | [s Hs]].
    + left. apply Forall_app. split; assumption.
    + right. exists s. exact Hs.
  - intros [= <-]. destruct Hm as [Hq | [s Hs]].
    + left. exact Hq.
    + right. exists s. simpl in *. injection Hs as ->. reflexivity.
Qed.

Lemma failure_exits_fail_with (msg : string) : failure_exits (fail_with msg).
Proof. right. exists (PyStr.of_Z 1). reflexivity. Qed.

Lemma failure_exits_client_handlers (base_url : string) cls h e :
  In (cls, h) (client_handlers base_url) -> failure_exits (h e).
Proof.
  simpl. intros [[= <- <-] | [[= <- <-] | [[= <- <-] | []]]];
    apply failure_exits_fail_with.
Qed.

Lemma failure_exits_import_guard (w : world) (hint : string) :
  failure_exits (import_guard w hint).
Proof.
  apply failure_exits_try.
  - apply failure_exits_quiet. events.
  - simpl. intros cls h e [[= <- <-] | []]. apply failure_exits_fail_with.
Qed.

Lemma failure_exits_guarded {X} hint (main : world -> X -> option (M unit)) w x m :
  (forall m', main w x = Some m' -> failure_exits m') ->
  guarded hint main w x = Some m -> failure_exits m.
Proof.
  intros Hmain. apply failure_exits_bind_opt.
  - apply failure_exits_import_guard.
  - intros _. exact Hmain.
Qed.

Lemma quiet_parse_args_or_exit {A} argv (r : parse_result A) :
  quiet (parse_args_or_exit argv r).
Proof. unfold parse_args_or_exit, sys_exit. destruct r; events. Qed.

Lemma failure_exits_parse_then {A} (p : ArgumentParser A) body w argv m :
  (forall a, failure_exits (body w a)) ->
  parse_then p body w argv = Some m -> failure_exits m.
Proof.
  intros Hbody. unfold parse_then.
  destruct (parse_args p argv) as [r |]; simpl; [| discriminate].
  intros [= <-]. apply failure_exits_bind.
  - apply failure_exits_quiet, quiet_parse_args_or_exit.
  - intros a. apply Hbody.
Qed.

Lemma failure_exits_batch_send w a : failure_exits (batch_send.main_with w a).
Proof.
  apply failure_exits_try.
  - apply failure_exits_bind; [apply failure_exits_quiet; events |].
    intros messages.
    destruct messages;
      try (right; exists (PyStr.of_Z 1); reflexivity).
    apply failure_exits_quiet. events.
  - intros cls h e [[= <- <-] | [[= <- <-] | Hin]];
      try apply failure_exits_fail_with.
    exact (failure_exits_client_handlers _ _ _ _ Hin).
Qed.

Lemma failure_exits_get_messages w a : failure_exits (get_messages.main_with w a).
Proof.
  apply failure_exits_try; [| apply failure_exits_client_handlers].
  apply failure_exits_quiet. events.
Qed.

Lemma failure_exits_get_unread w a : failure_exits (get_unread.main_with w a).
Proof.
  apply failure_exits_try; [| apply failure_exits_client_handlers].
  apply failure_exits_quiet. events.
Qed.

Lemma failure_exits_list_chats w a : failure_exits (list_chats.main_with w a).
Proof.
  apply failure_exits_try; [| apply failure_exits_client_handlers].
  apply failure_exits_quiet. events.
Qed.

Lemma failure_exits_send_file w a : failure_exits (send_file.main_with w a).
Proof.
  apply failure_exits_bind; [apply failure_exits_quiet; events |].
  intros found. apply failure_exits_bind.
  - destruct found; simpl.
    + apply failure_exits_quiet. events.
    + apply failure_exits_fail_with.
  - intros _. apply failure_exits_try; [| apply failure_exits_client_handlers].
    apply failure_exits_quiet. events.
Qed.

Lemma failure_exits_send_message w a : failure_exits (send_message.main_with w a).
Proof.
  apply failure_exits_try; [| apply failure_exits_client_handlers].
  apply failure_exits_quiet. events.
Qed.

Lemma failure_exits_watcher w a : failure_exits (watcher.main_with w a).
Proof.
  apply failure_exits_try; [| apply failure_exits_client_handlers].
  apply failure_exits_quiet. events.
Qed.

Lemma failure_exits_simple_test w : failure_exits (simple_test.main w).
Proof.
  apply failure_exits_try.
  - apply failure_exits_quiet. events.
  - simpl. intros cls h e [[= <- <-] | []]. apply failure_exits_fail_with.
Qed.

(** What holds of the events of the callback holds of the events of the
    loop. *)
Lemma all_events_deliver (Q : event -> Prop) (messages : list pyvalue) :
  (forall m, all_events Q (watch_messages.on_message m)) ->
  Forall Q (watch_messages.deliver messages).
Proof.
  intros Hcb. induction messages as [| m rest IH]; [constructor |].
  unfold watch_messages.deliver. simpl. apply Forall_app. split; [| exact IH].
  exact (Hcb m).
Qed.

Lemma all_events_watch_loop (Q : event -> Prop) w fuel :
  Q Sleep ->
  (forall m, all_events Q (watch_messages.on_message m)) ->
  forall n m, watch_messages.watch_loop w fuel n = Some m -> all_events Q m.
Proof.
  intros Hsleep Hcb.
  induction fuel as [| fuel IH]; intros n m; [discriminate |].
  cbn [watch_messages.watch_loop]. apply all_events_bind_opt.
  - constructor; [exact Hsleep | apply all_events_deliver, Hcb].
  - intros _ m'. apply IH.
Qed.

(** What the callback prints has no [success] key. *)
Lemma quiet_on_message (m : pyvalue) : quiet (watch_messages.on_message m).
Proof. unfold watch_messages.on_message. events. Qed.

Lemma failure_exits_watch_messages w fuel m :
  watch_messages.main w fuel = Some m -> failure_exits m.
Proof.
  unfold watch_messages.main.
  destruct (bind_opt _ _) as [body |] eqn:Hbody; simpl; [| discriminate].
  intros [= <-]. apply failure_exits_try.
  - apply failure_exits_quiet. revert Hbody. apply all_events_bind_opt.
    + unfold watch_messages.start. events.
      constructor; [reflexivity | apply all_events_deliver, quiet_on_message].
    + intros _ m'. apply all_events_watch_loop; [reflexivity |].
      apply quiet_on_message.
  - simpl. intros cls h e [[= <- <-] | [[= <- <-] | []]].
    + apply failure_exits_quiet. events.
    + right. exists (PyStr.of_Z 1). reflexivity.
Qed.

(** Every command, on every path: a failure envelope on standard output
    means the program is leaving through [sys.exit(1)]. *)
Lemma failure_exits_command c w argv fuel m :
  match c with
  | BatchSend => batch_send.script w argv
  | GetMessages => get_messages.script w argv
  | GetUnread => get_unread.script w argv
  | ListChats => list_chats.script w argv
  | SendFile => send_file.script w argv
  | SendMessage => send_message.script w argv
  | Watcher => watcher.script w argv
  | WatchMessages => watch_messages.script w fuel
  | SimpleTest => simple_test.script w
  end = Some m ->
  failure_exits m.
Proof.
  destruct c; apply failure_exits_guarded; intros m'.
  - apply failure_exits_parse_then, failure_exits_batch_send.
  - apply failure_exits_parse_then, failure_exits_get_messages.
  - apply failure_exits_parse_then, failure_exits_get_unread.
  - apply failure_exits_parse_then, failure_exits_list_chats.
  - apply failure_exits_parse_then, failure_exits_send_file.
  - apply failure_exits_parse_then, failure_exits_send_message.
  - apply failure_exits_parse_then, failure_exits_watcher.
  - apply failure_exits_watch_messages.
  - intros [= <-]. apply failure_exits_simple_test.
Qed.

Lemma quiet_no_failure {A} (m : M A) : quiet m -> ~ prints_failure (fst m).
Proof.
  intros Hq (doc & indent & flush & Hin & Hs).
  unfold quiet, all_events in Hq. rewrite Forall_forall in Hq.
  specialize (Hq _ Hin). unfold success_is in Hs. simpl in Hq.
  rewrite Hs in Hq. discriminate.
Qed.

(** ** The interrupt that stops the watch loop *)

Lemma watch_loop_raises (w : world) (e : exn) : forall n k fuel,
  (forall i, (k <= i < k + n)%nat -> w_sleep w i = Returns tt) ->
  w_sleep w (k + n) = Raises e ->
  (n < fuel)%nat ->
  exists t, watch_messages.watch_loop w fuel k = Some (t, Raises e).
Proof.
  induction n as [| n IH]; intros k fuel Hret Hraise Hfuel;
    (destruct fuel as [| fuel]; [lia |]);
    cbn [watch_messages.watch_loop]; unfold watch_messages.sleep.
  - rewrite Nat.add_0_r in Hraise. rewrite Hraise. simpl. eauto.
  - rewrite (Hret k) by lia. simpl.
    destruct (IH (S k) fuel) as [t Ht].
    + intros i Hi. apply Hret. lia.
    + replace (S k + n)%nat with (k + S n)%nat by lia. exact Hraise.
    + lia.
    + rewrite Ht. eauto.
Qed.

Lemma watch_messages_interrupted (w : world) (n fuel : nat) reply msg :
  w_construct w (Some "http://localhost:3000") None = Returns tt ->
  w_call w watcher_start_callback = Returns reply ->
  (forall i, (i < n)%nat -> w_sleep w i = Returns tt) ->
  w_sleep w n = Raises (Exn KeyboardInterrupt msg) ->
  (n < fuel)%nat ->
  exists t,
    watch_messages.main w fuel = Some ((t ++ [watcher_stopped])%list, Returns tt).
Proof.
  intros Hc Hs Hret Hraise Hfuel.
  destruct (watch_loop_raises w (Exn KeyboardInterrupt msg) n 0 fuel) as [t Ht];
    [intros i Hi; apply Hret; lia | exact Hraise | exact Hfuel |].
  unfold watch_messages.main, watch_messages.start, AgentText, ask.
  rewrite Hc, Hs, Ht. simpl. eexists.
  rewrite !app_comm_cons. reflexivity.
Qed.

Lemma failure_exits_status (m : M unit) t st :
  failure_exits m -> run_process m = (t, st) -> prints_failure t -> st = Exited 1.
Proof.
  destruct m as [t' r]. intros [Hq | [s Hs]] Hrun Hfail.
  - exfalso. apply (quiet_no_failure _ Hq).
    destruct r as [[] | e]; simpl in Hrun.
    + injection Hrun as <- _. exact Hfail.
    + destruct (exn_class e); injection Hrun as <- _; exact Hfail.
  - simpl in Hs. subst r. simpl in Hrun. injection Hrun as _ <-. reflexivity.
Qed.

(** C1.  On every path of every script, a printed envelope with
    [success = false] means the process exits with code 1: this holds of
    every run of the nine commands, and of the rest of [main] from any
    namespace the parser may have produced.  In the legacy watch loop a
    keyboard interrupt is caught: once the interrupt arrives (and the loop
    is given that many iterations) the last thing printed is the envelope
    [{"success": true, "message": "Watcher stopped"}] and the process exits
    with code 0. *)
Theorem failure_envelope_exit_code :
  (forall c w argv fuel t st,
      run c w argv fuel = Some (t, st) -> prints_failure t -> st = Exited 1)
  /\
  (forall w ns t st,
      run_process (main_after_parse w ns) = (t, st) ->
      prints_failure t -> st = Exited 1)
  /\
  (forall w argv n fuel reply msg,
      w_import w = Returns tt ->
      w_construct w (Some "http://localhost:3000") None = Returns tt ->
      w_call w watcher_start_callback = Returns reply ->
      (forall i, (i < n)%nat -> w_sleep w i = Returns tt) ->
      w_sleep w n = Raises (Exn KeyboardInterrupt msg) ->
      (n < fuel)%nat ->
      exists t,
        run WatchMessages w argv fuel = Some ((t ++ [watcher_stopped])%list, Exited 0)
        /\ success_is true (py_dict [("success", PBool true);
                                     ("message", PStr "Watcher stopped")])).
Proof.
  split; [| split].
  - intros c w argv fuel t st Hrun Hfail. unfold run in Hrun.
    destruct (match c with BatchSend => _ | _ => _ end) as [m |] eqn:Hm;
      [| discriminate].
    apply failure_exits_command in Hm. simpl in Hrun. injection Hrun as Hrun.
    exact (failure_exits_status m t st Hm Hrun Hfail).
  - intros w ns t st. apply failure_exits_status.
    destruct ns; simpl;
      [ apply failure_exits_batch_send | apply failure_exits_get_messages
      | apply failure_exits_get_unread | apply failure_exits_list_chats
      | apply failure_exits_send_file | apply failure_exits_send_message
      | apply failure_exits_watcher ].
  - intros w argv n fuel reply msg Hi Hc Hs Hret Hraise Hfuel.
    destruct (watch_messages_interrupted w n fuel reply msg Hc Hs Hret Hraise Hfuel)
      as [t Ht].
    exists (Import :: t)%list. split; [| reflexivity].
    unfold run, watch_messages.script, guarded, import_guard, ask.
    rewrite Hi. simpl. rewrite Ht. reflexivity.
Qed.

Lemma failure_envelope_exit_code_witness :
  (run SimpleTest server_down [] 0
   = Some ([Import; Construct None None;
            Call (messages_send "+9255776728" "Hello!");
            Print (py_dict [("success", PBool false);
                            ("error", PStr "Connection refused")]) None false],
           Exited 1)
   /\ Exited 1 = Exited 1)
  /\ (run_process (main_after_parse empty_disk
                     (send_file_args (send_file.Args "+1234567890" "/tmp/missing.png"
                                                     None "http://localhost:3000")))
      = ([PathExists "/tmp/missing.png";
          Print (py_dict [("success", PBool false);
                          ("error", PStr "File not found: /tmp/missing.png")])
                None false],
         Exited 1)
      /\ Exited 1 = Exited 1)
  /\ exists t,
      run WatchMessages interrupted [] 3
      = Some ((t ++ [watcher_stopped])%list, Exited 0)
      /\ success_is true (py_dict [("success", PBool true);
                                   ("message", PStr "Watcher stopped")]).
Proof.
  split; [| split].
  - split; [reflexivity |].
    apply (proj1 failure_envelope_exit_code SimpleTest server_down [] 0%nat
             [Import; Construct None None;
              Call (messages_send "+9255776728" "Hello!");
              Print (py_dict [("success", PBool false);
                              ("error", PStr "Connection refused")]) None false]).
    + reflexivity.
    + exists (py_dict [("success", PBool false); ("error", PStr "Connection refused")]),
        None, false.
      split; [simpl; auto | reflexivity].
  - split; [reflexivity |].
    apply (proj1 (proj2 failure_envelope_exit_code) empty_disk
             (send_file_args (send_file.Args "+1234567890" "/tmp/missing.png"
                                             None "http://localhost:3000"))
             [PathExists "/tmp/missing.png";
              Print (py_dict [("success", PBool false);
                              ("error", PStr "File not found: /tmp/missing.png")])
                    None false]).
    + reflexivity.
    + exists (py_dict [("success", PBool false);
                       ("error", PStr "File not found: /tmp/missing.png")]),
        None, false.
      split; [simpl; auto | reflexivity].
  - apply (proj2 (proj2 failure_envelope_exit_code) interrupted [] 2%nat 3%nat PNone "").
    + reflexivity.
    + reflexivity.
    + reflexivity.
    + intros i Hi. destruct i as [| [| i]]; [reflexivity | reflexivity | lia].
    + reflexivity.
    + lia.
Defined.

(** ** Substrings *)

Lemma prefix_append (s t : string) : String.prefix s (s ++ t) = true.
Proof.
  induction s as [| c s IH]; simpl; [destruct t; reflexivity |].
  destruct (ascii_dec c c) as [_ | Hne]; [exact IH | contradiction].
Qed.

Lemma contains_prefix (sub s : string) :
  String.prefix sub s = true -> PyStr.contains sub s = true.
Proof. destruct s; simpl; intros ->; reflexivity. Qed.

Lemma contains_middle (pre sub post : string) :
  PyStr.contains sub (pre ++ sub ++ post) = true.
Proof.
  induction pre as [| c pre IH].
  - apply contains_prefix. exact (prefix_append sub post).
  - simpl. rewrite IH. apply orb_true_r.
Qed.

Lemma contains_suffix (pre sub : string) : PyStr.contains sub (pre ++ sub) = true.
Proof.
  replace (pre ++ sub) with (pre ++ sub ++ "").
  - apply contains_middle.
  - f_equal. induction sub as [| c sub IH]; simpl; [reflexivity | now rewrite IH].
Qed.

(** ** A run whose import and command line are fine *)

Lemma guarded_parsed {A} hint (p : ArgumentParser A) body w argv a :
  w_import w = Returns tt ->
  parse_args p argv = Some (Parsed a) ->
  guarded hint (parse_then p body) w argv
  = Some ((Import :: ParseArgs argv :: fst (body w a))%list, snd (body w a)).
Proof.
  intros Hi Hp. unfold guarded, import_guard, ask, parse_then.
  rewrite Hi, Hp. simpl. destruct (body w a). reflexivity.
Qed.

(** ** Missing package *)

(** C7.  In every script, when the import of the [agenttext] package fails,
    the only things the process does are the failed import and the print of
    one failure envelope whose error names the package; it exits with
    code 1.  No command line is parsed: the run has no [ParseArgs] event,
    whatever the command line is. *)
Theorem import_failure_is_reported :
  forall c w argv fuel msg,
    w_import w = Raises (Exn ImportError msg) ->
    exists err,
      run c w argv fuel
      = Some ([Import;
               Print (py_dict [("success", PBool false); ("error", PStr err)])
                     None false],
              Exited 1)
      /\ PyStr.contains "AgentText package not installed" err = true
      /\ PyStr.contains "pip3 install" err = true.
Proof.
  intros c w argv fuel msg Hi.
  destruct c;
    unfold run, batch_send.script, get_messages.script, get_unread.script,
      list_chats.script, send_file.script, send_message.script, watcher.script,
      watch_messages.script, simple_test.script, guarded, import_guard, ask;
    rewrite Hi; simpl; eexists; (split; [reflexivity |]); split; reflexivity.
Qed.

Lemma import_failure_is_reported_witness :
  w_import not_installed = Raises (Exn ImportError "No module named 'agenttext'")
  /\ exists err,
      run Watcher not_installed ["--no-such-flag"] 0
      = Some ([Import;
               Print (py_dict [("success", PBool false); ("error", PStr err)])
                     None false],
              Exited 1)
      /\ PyStr.contains "AgentText package not installed" err = true
      /\ PyStr.contains "pip3 install" err = true.
Proof.
  split; [reflexivity |].
  apply (import_failure_is_reported Watcher not_installed ["--no-such-flag"] 0%nat
           "No module named 'agenttext'").
  reflexivity.
Defined.

(** ** Local input checks *)

(** C4.  [send file]: when the path given as [file_path] does not exist,
    the run is exactly: import, parse, the existence test, one failure
    envelope whose error contains the path; exit code 1.  The client is
    never constructed and never called. *)
Theorem send_file_missing_path :
  forall w argv fuel a,
    w_import w = Returns tt ->
    parse_args send_file.parser argv = Some (Parsed a) ->
    w_exists w (send_file.file_path a) = false ->
    exists err,
      run SendFile w argv fuel
      = Some ([Import; ParseArgs argv; PathExists (send_file.file_path a);
               Print (py_dict [("success", PBool false); ("error", PStr err)])
                     None false],
              Exited 1)
      /\ PyStr.contains (send_file.file_path a) err = true.
Proof.
  intros w argv fuel a Hi Hp He.
  unfold run, send_file.script, send_file.main.
  rewrite (guarded_parsed _ _ _ _ _ a Hi Hp).
  unfold send_file.main_with, ask. rewrite He. simpl.
  eexists. split; [reflexivity |].
  exact (contains_suffix "File not found: " (send_file.file_path a)).
Qed.

Lemma send_file_missing_path_witness :
  w_import empty_disk = Returns tt
  /\ parse_args send_file.parser ["+1234567890"; "/tmp/missing.png"]
     = Some (Parsed (send_file.Args "+1234567890" "/tmp/missing.png" None
                                    "http://localhost:3000"))
  /\ w_exists empty_disk "/tmp/missing.png" = false
  /\ exists err,
      run SendFile empty_disk ["+1234567890"; "/tmp/missing.png"] 0
      = Some ([Import; ParseArgs ["+1234567890"; "/tmp/missing.png"];
               PathExists "/tmp/missing.png";
               Print (py_dict [("success", PBool false); ("error", PStr err)])
                     None false],
              Exited 1)
      /\ PyStr.contains "/tmp/missing.png" err = true.
Proof.
  split; [reflexivity |]. split; [reflexivity |]. split; [reflexivity |].
  apply (send_file_missing_path empty_disk ["+1234567890"; "/tmp/missing.png"] 0%nat
           (send_file.Args "+1234567890" "/tmp/missing.png" None
                           "http://localhost:3000"));
    reflexivity.
Defined.

(** C5.  [batch send]: when the file parses as JSON to anything but an
    array, the run is exactly: import, parse, the read of the file, one
    failure envelope with the error "JSON file must contain an array of
    messages"; exit code 1.  The client is not constructed and [send_batch]
    is not called. *)
Theorem batch_send_rejects_non_array :
  forall w argv fuel a v,
    w_import w = Returns tt ->
    parse_args batch_send.parser argv = Some (Parsed a) ->
    w_load w (batch_send.json_file a) = Returns v ->
    is_list v = false ->
    run BatchSend w argv fuel
    = Some ([Import; ParseArgs argv; LoadJson (batch_send.json_file a);
             Print (py_dict [("success", PBool false);
                             ("error", PStr "JSON file must contain an array of messages")])
                   None false],
            Exited 1).
Proof.
  intros w argv fuel a v Hi Hp Hl Hv.
  unfold run, batch_send.script, batch_send.main.
  rewrite (guarded_parsed _ _ _ _ _ a Hi Hp).
  unfold batch_send.main_with, ask. rewrite Hl.
  destruct v; try discriminate Hv; reflexivity.
Qed.

Lemma batch_send_rejects_non_array_witness :
  w_import empty_disk = Returns tt
  /\ parse_args batch_send.parser ["messages.json"]
     = Some (Parsed (batch_send.Args "messages.json" "http://localhost:3000"))
  /\ w_load empty_disk "messages.json" = Returns (py_dict [("to", PStr "+1234567890")])
  /\ is_list (py_dict [("to", PStr "+1234567890")]) = false
  /\ run BatchSend empty_disk ["messages.json"] 0
     = Some ([Import; ParseArgs ["messages.json"]; LoadJson "messages.json";
              Print (py_dict [("success", PBool false);
                              ("error", PStr "JSON file must contain an array of messages")])
                    None false],
             Exited 1).
Proof.
  repeat (split; [reflexivity |]).
  apply (batch_send_rejects_non_array empty_disk ["messages.json"] 0%nat
           (batch_send.Args "messages.json" "http://localhost:3000")
           (py_dict [("to", PStr "+1234567890")]));
    reflexivity.
Defined.

(** ** Success envelopes *)

Lemma json_error_last k1 v1 k2 v2 k3 v3 :
  json_error v1 = None -> json_error v2 = None ->
  json_error (py_dict [(k1, v1); (k2, v2); (k3, v3)]) = json_error v3.
Proof.
  intros H1 H2. simpl. rewrite H1, H2. simpl.
  destruct (json_error v3); reflexivity.
Qed.

Lemma json_error_middle k1 v1 k2 v2 k3 v3 :
  json_error v1 = None -> json_error v3 = None ->
  json_error (py_dict [(k1, v1); (k2, v2); (k3, v3)]) = json_error v2.
Proof.
  intros H1 H3. simpl. rewrite H1, H3. simpl.
  destruct (json_error v2); reflexivity.
Qed.

(** Splits a hypothesis [In ev [e1; ...; en]] into its cases and drops the
    ones whose constructors differ. *)
Ltac in_trace H :=
  simpl in H;
  repeat (destruct H as [H | H]; try discriminate H);
  try contradiction.

(** C6.  [batch send]: the file holds an array of [N] messages and the
    client's [send_batch] returns.  Then every success envelope the run
    prints has a [message] that contains the decimal [N] and a [results]
    that is an array; and when what [send_batch] returned can be written as
    JSON, that envelope is printed and the exit code is 0. *)
Theorem batch_send_reports_count :
  forall w argv fuel a msgs results,
    w_import w = Returns tt ->
    parse_args batch_send.parser argv = Some (Parsed a) ->
    w_load w (batch_send.json_file a) = Returns (PList msgs) ->
    w_construct w (Some (batch_send.base_url a)) (Some 30%Z) = Returns tt ->
    w_call w (messages_send_batch msgs) = Returns results ->
    exists t st,
      run BatchSend w argv fuel = Some (t, st)
      /\ (forall doc indent flush,
             In (Print doc indent flush) t -> success_is true doc ->
             (exists m, dict_get "message" doc = Some (PStr m)
                        /\ PyStr.contains (PyStr.of_nat (length msgs)) m = true)
             /\ (exists xs, dict_get "results" doc = Some (PList xs)))
      /\ ((is_list results = true -> json_error results = None) ->
          st = Exited 0
          /\ exists doc, In (Print doc (Some 2%nat) false) t /\ success_is true doc).
Proof.
  intros w argv fuel a msgs results Hi Hp Hl Hc Hs.
  unfold run, batch_send.script, batch_send.main.
  rewrite (guarded_parsed _ _ _ _ _ a Hi Hp).
  unfold batch_send.main_with, AgentText, call, ask. rewrite Hl.
  cbn [bind]. rewrite Hc. cbn [bind]. rewrite Hs. cbn [bind].
  unfold print_json. rewrite json_error_last by reflexivity.
  destruct (json_error (if is_list results then results else PList []))
    as [msg |] eqn:Hj.
  - simpl. eexists. eexists. split; [reflexivity |]. split.
    + intros doc indent flush Hin Hsucc. exfalso. in_trace Hin.
      injection Hin as <- _ _. discriminate Hsucc.
    + intros Hser. exfalso. destruct (is_list results) eqn:Hr.
      * rewrite Hser in Hj by reflexivity. discriminate.
      * discriminate.
  - simpl. eexists. eexists. split; [reflexivity |]. split.
    + intros doc indent flush Hin Hsucc. in_trace Hin.
      injection Hin as <- _ _. split.
      * eexists. split; [reflexivity |].
        exact (contains_middle "Sent " (PyStr.of_nat (length msgs)) " messages").
      * destruct results; simpl; eauto.
    + intros _. split; [reflexivity |].
      eexists. split; [do 5 right; left; reflexivity | reflexivity].
Qed.

Lemma batch_send_reports_count_witness :
  exists t st,
    run BatchSend (calm (PList [PStr "sent"; PStr "sent"])) ["messages.json"] 0
    = Some (t, st)
    /\ (forall doc indent flush,
           In (Print doc indent flush) t -> success_is true doc ->
           (exists m, dict_get "message" doc = Some (PStr m)
                      /\ PyStr.contains "2" m = true)
           /\ (exists xs, dict_get "results" doc = Some (PList xs)))
    /\ ((is_list (PList [PStr "sent"; PStr "sent"]) = true ->
         json_error (PList [PStr "sent"; PStr "sent"]) = None) ->
        st = Exited 0
        /\ exists doc, In (Print doc (Some 2%nat) false) t /\ success_is true doc).
Proof.
  apply (batch_send_reports_count
           (calm (PList [PStr "sent"; PStr "sent"])) ["messages.json"] 0%nat
           (batch_send.Args "messages.json" "http://localhost:3000")
           [py_dict [("to", PStr "+1234567890"); ("content", PStr "Hello!")];
            py_dict [("to", PStr "user@example.com"); ("content", PStr "Hi there!")]]
           (PList [PStr "sent"; PStr "sent"]));
    reflexivity.
Defined.

(** C10.  [get messages] and [list chats]: once the client has answered
    with a value [v], every success envelope printed has [count] equal to
    the length of [v] when [v] is a list and to 0 otherwise; in
    [list chats] its [chats] field is [v] when [v] is a list and the empty
    array otherwise.  When the part of [v] that is forwarded can be written
    as JSON the envelope is printed and the exit code is 0. *)
Theorem count_is_length_of_list :
  (forall w argv fuel a v,
      w_import w = Returns tt ->
      parse_args get_messages.parser argv = Some (Parsed a) ->
      w_construct w (Some (get_messages.base_url a)) (Some 30%Z) = Returns tt ->
      w_call w (messages_list (get_messages.filters a)) = Returns v ->
      exists t st,
        run GetMessages w argv fuel = Some (t, st)
        /\ (forall doc indent flush,
               In (Print doc indent flush) t -> success_is true doc ->
               dict_get "count" doc
               = Some (PInt match v with
                            | PList xs => Z.of_nat (length xs)
                            | _ => 0
                            end))
        /\ ((is_list v || is_dict v = true -> json_error v = None) ->
            st = Exited 0
            /\ exists doc, In (Print doc (Some 2%nat) false) t /\ success_is true doc))
  /\
  (forall w argv fuel a v,
      w_import w = Returns tt ->
      parse_args list_chats.parser argv = Some (Parsed a) ->
      w_construct w (Some (list_chats.base_url a)) (Some 30%Z) = Returns tt ->
      w_call w (chats_list (list_chats.filters a)) = Returns v ->
      exists t st,
        run ListChats w argv fuel = Some (t, st)
        /\ (forall doc indent flush,
               In (Print doc indent flush) t -> success_is true doc ->
               dict_get "count" doc
               = Some (PInt match v with
                            | PList xs => Z.of_nat (length xs)
                            | _ => 0
                            end)
               /\ dict_get "chats" doc
                  = Some match v with
                         | PList _ => v
                         | _ => PList []
                         end)
        /\ ((is_list v = true -> json_error v = None) ->
            st = Exited 0
            /\ exists doc, In (Print doc (Some 2%nat) false) t /\ success_is true doc)).
Proof.
  split; intros w argv fuel a v Hi Hp Hc Hs.
  - unfold run, get_messages.script, get_messages.main.
    rewrite (guarded_parsed _ _ _ _ _ a Hi Hp).
    unfold get_messages.main_with, AgentText, call, ask.
    rewrite Hc. cbn [bind]. rewrite Hs. cbn [bind].
    unfold print_json.
    rewrite json_error_middle by (try reflexivity; destruct v; reflexivity).
    destruct (json_error (if is_list v || is_dict v then v else PList []))
      as [msg |] eqn:Hj.
    + simpl. eexists. eexists. split; [reflexivity |]. split.
      * intros doc indent flush Hin Hsucc. exfalso. in_trace Hin.
        injection Hin as <- _ _. discriminate Hsucc.
      * intros Hser. exfalso. destruct (is_list v || is_dict v) eqn:Hr.
        -- rewrite Hser in Hj by reflexivity. discriminate.
        -- discriminate.
    + simpl. eexists. eexists. split; [reflexivity |]. split.
      * intros doc indent flush Hin Hsucc. in_trace Hin.
        injection Hin as <- _ _. destruct v; reflexivity.
      * intros _. split; [reflexivity |].
        eexists. split; [do 4 right; left; reflexivity | reflexivity].
  - unfold run, list_chats.script, list_chats.main.
    rewrite (guarded_parsed _ _ _ _ _ a Hi Hp).
    unfold list_chats.main_with, AgentText, call, ask.
    rewrite Hc. cbn [bind]. rewrite Hs. cbn [bind].
    unfold print_json.
    rewrite json_error_middle by (try reflexivity; destruct v; reflexivity).
    destruct (json_error (if is_list v then v else PList [])) as [msg |] eqn:Hj.
    + simpl. eexists. eexists. split; [reflexivity |]. split.
      * intros doc indent flush Hin Hsucc. exfalso. in_trace Hin.
        injection Hin as <- _ _. discriminate Hsucc.
      * intros Hser. exfalso. destruct (is_list v) eqn:Hr.
        -- rewrite Hser in Hj by reflexivity. discriminate.
        -- discriminate.
    + simpl. eexists. eexists. split; [reflexivity |]. split.
      * intros doc indent flush Hin Hsucc. in_trace Hin.
        injection Hin as <- _ _. destruct v; split; reflexivity.
      * intros _. split; [reflexivity |].
        eexists. split; [do 4 right; left; reflexivity | reflexivity].
Qed.

Lemma count_is_length_of_list_witness :
  (exists t st,
      run GetMessages (calm (PList [PStr "m1"; PStr "m2"; PStr "m3"]))
          ["--unread-only"] 0 = Some (t, st)
      /\ (forall doc indent flush,
             In (Print doc indent flush) t -> success_is true doc ->
             dict_get "count" doc = Some (PInt 3))
      /\ ((true = true -> json_error (PList [PStr "m1"; PStr "m2"; PStr "m3"]) = None) ->
          st = Exited 0
          /\ exists doc, In (Print doc (Some 2%nat) false) t /\ success_is true doc))
  /\
  (exists t st,
      run ListChats (calm (PStr "no chats")) ["--type"; "group"] 0 = Some (t, st)
      /\ (forall doc indent flush,
             In (Print doc indent flush) t -> success_is true doc ->
             dict_get "count" doc = Some (PInt 0)
             /\ dict_get "chats" doc = Some (PList []))
      /\ ((false = true -> json_error (PStr "no chats") = None) ->
          st = Exited 0
          /\ exists doc, In (Print doc (Some 2%nat) false) t /\ success_is true doc)).
Proof.
  split.
  - apply (proj1 count_is_length_of_list
             (calm (PList [PStr "m1"; PStr "m2"; PStr "m3"])) ["--unread-only"] 0%nat
             (get_messages.Args 10 None true "http://localhost:3000")
             (PList [PStr "m1"; PStr "m2"; PStr "m3"]));
      reflexivity.
  - apply (proj2 count_is_length_of_list
             (calm (PStr "no chats")) ["--type"; "group"] 0%nat
             (list_chats.Args 20 (Some "group") "http://localhost:3000")
             (PStr "no chats"));
      reflexivity.
Defined.

(** ** The watcher's status *)

(** C8, as stated, fails: the client answers [status()] with [True], the
    envelope is a success, and its [status] field is the string ["True"],
    not the value the client returned. *)
Lemma watcher_status_is_stringified :
  w_call (calm (PBool true)) watcher_status = Returns (PBool true)
  /\ run Watcher (calm (PBool true)) ["status"] 0
     = Some ([Import; ParseArgs ["status"];
              Construct (Some "http://localhost:3000") (Some 30%Z);
              Call watcher_status;
              Print (py_dict [("success", PBool true);
                              ("action", PStr "status");
                              ("status", PStr "True")])
                    (Some 2%nat) false],
             Exited 0)
  /\ dict_get "status" (py_dict [("success", PBool true);
                                 ("action", PStr "status");
                                 ("status", PStr "True")])
     <> Some (PBool true).
Proof.
  split; [reflexivity |]. split; [reflexivity |]. discriminate.
Qed.

(** C8, amended.  [watcher status]: when [status()] returns [result], and
    [result] can be written as JSON in case it is a dict, the run prints
    one envelope with [success = true], [action = "status"] and a [status]
    field that is [result] itself when [result] is a dict and [str(result)]
    otherwise; the exit code is 0. *)
Theorem watcher_status_envelope :
  forall w argv fuel a result,
    w_import w = Returns tt ->
    parse_args watcher.parser argv = Some (Parsed a) ->
    watcher.action a = "status" ->
    w_construct w (Some (watcher.base_url a)) (Some 30%Z) = Returns tt ->
    w_call w watcher_status = Returns result ->
    (is_dict result = true -> json_error result = None) ->
    run Watcher w argv fuel
    = Some ([Import; ParseArgs argv;
             Construct (Some (watcher.base_url a)) (Some 30%Z);
             Call watcher_status;
             Print (py_dict [("success", PBool true);
                             ("action", PStr "status");
                             ("status", match result with
                                        | PDict _ => result
                                        | _ => PStr (py_str result)
                                        end)])
                   (Some 2%nat) false],
            Exited 0).
Proof.
  intros w argv fuel a result Hi Hp Ha Hc Hs Hser.
  unfold run, watcher.script, watcher.main.
  rewrite (guarded_parsed _ _ _ _ _ a Hi Hp).
  unfold watcher.main_with, AgentText, call, ask.
  rewrite Hc, Ha. cbn [bind String.eqb Ascii.eqb Bool.eqb]. rewrite Hs. cbn [bind].
  unfold print_json. rewrite json_error_last by reflexivity.
  assert (Hj : json_error (dict_or_str result) = None).
  { unfold dict_or_str. destruct (is_dict result) eqn:Hd; [auto | reflexivity]. }
  rewrite Hj. unfold dict_or_str. destruct result; reflexivity.
Qed.

Lemma watcher_status_envelope_witness :
  w_import (calm (py_dict [("running", PBool true)])) = Returns tt
  /\ parse_args watcher.parser ["status"]
     = Some (Parsed (watcher.Args "status" None "http://localhost:3000"))
  /\ run Watcher (calm (py_dict [("running", PBool true)])) ["status"] 0
     = Some ([Import; ParseArgs ["status"];
              Construct (Some "http://localhost:3000") (Some 30%Z);
              Call watcher_status;
              Print (py_dict [("success", PBool true);
                              ("action", PStr "status");
                              ("status", py_dict [("running", PBool true)])])
                    (Some 2%nat) false],
             Exited 0).
Proof.
  split; [reflexivity |]. split; [reflexivity |].
  apply (watcher_status_envelope
           (calm (py_dict [("running", PBool true)])) ["status"] 0%nat
           (watcher.Args "status" None "http://localhost:3000")
           (py_dict [("running", PBool true)]));
    reflexivity.
Defined.

(** ** Splitting and stripping the [--files] value *)

Lemma split_nonempty (sep : ascii) (s : string) : PyStr.split sep s <> [].
Proof.
  destruct s as [| c s]; simpl; [discriminate |].
  destruct (Ascii.eqb c sep); [discriminate |].
  destruct (PyStr.split sep s); discriminate.
Qed.

(** Joining the pieces with the separator gives the string back. *)
Lemma split_join (sep : ascii) (s : string) :
  PyStr.join (String sep "") (PyStr.split sep s) = s.
Proof.
  unfold PyStr.join. induction s as [| c s IH]; simpl; [reflexivity |].
  destruct (Ascii.eqb c sep) eqn:Hc.
  - apply Ascii.eqb_eq in Hc. subst c.
    destruct (PyStr.split sep s) as [| piece pieces] eqn:Hs.
    + exfalso. exact (split_nonempty sep s Hs).
    + simpl. simpl in IH. rewrite IH. reflexivity.
  - destruct (PyStr.split sep s) as [| piece pieces] eqn:Hs.
    + exfalso. exact (split_nonempty sep s Hs).
    + simpl. simpl in IH. destruct pieces; simpl in *; rewrite <- IH; reflexivity.
Qed.

(** No piece contains the separator. *)
Lemma split_pieces (sep : ascii) (s : string) :
  Forall (fun piece => PyStr.mem_char sep piece = false) (PyStr.split sep s).
Proof.
  induction s as [| c s IH]; simpl; [repeat constructor |].
  destruct (Ascii.eqb c sep) eqn:Hc.
  - constructor; [reflexivity | exact IH].
  - destruct (PyStr.split sep s) as [| piece pieces].
    + repeat constructor. simpl. rewrite Ascii.eqb_sym, Hc. reflexivity.
    + inversion IH as [| ? ? Hp Hps]; subst. constructor; [| exact Hps].
      simpl. rewrite Ascii.eqb_sym, Hc. exact Hp.
Qed.

Lemma lstrip_decomposition (s : string) :
  exists pre, s = pre ++ PyStr.lstrip s /\ all_space pre = true.
Proof.
  induction s as [| c s (pre & Heq & Hpre)]; [exists ""; auto |].
  simpl. destruct (PyStr.isspace c) eqn:Hc.
  - exists (String c pre). simpl. rewrite Hc. split; [congruence | exact Hpre].
  - exists "". auto.
Qed.

Lemma rstrip_decomposition (s : string) :
  exists post, s = PyStr.rstrip s ++ post /\ all_space post = true.
Proof.
  induction s as [| c s (post & Heq & Hpost)]; [exists ""; auto |].
  simpl. destruct (PyStr.rstrip s) as [| d r] eqn:Hr.
  - destruct (PyStr.isspace c) eqn:Hc.
    + exists (String c post). simpl in *. rewrite Hc. split; [congruence | exact Hpost].
    + exists post. simpl in *. split; [congruence | exact Hpost].
  - exists post. simpl in *. split; [congruence | exact Hpost].
Qed.

(** What [strip] removes is whitespace at both ends, and nothing else. *)
Lemma strip_decomposition (s : string) :
  exists pre post,
    s = pre ++ PyStr.strip s ++ post
    /\ all_space pre = true /\ all_space post = true.
Proof.
  destruct (lstrip_decomposition s) as (pre & Hs & Hpre).
  destruct (rstrip_decomposition (PyStr.lstrip s)) as (post & Hl & Hpost).
  exists pre, post. unfold PyStr.strip. rewrite <- Hl. auto.
Qed.

Lemma lstrip_head (s : string) : head_space (PyStr.lstrip s) = false.
Proof.
  induction s as [| c s IH]; simpl; [reflexivity |].
  destruct (PyStr.isspace c) eqn:Hc; [exact IH | exact Hc].
Qed.

Lemma rstrip_head (s : string) :
  head_space s = false -> head_space (PyStr.rstrip s) = false.
Proof.
  destruct s as [| c s]; simpl; [reflexivity |]. intros Hc.
  destruct (PyStr.rstrip s); [rewrite Hc |]; exact Hc.
Qed.

Lemma rstrip_last (s : string) : last_space (PyStr.rstrip s) = false.
Proof.
  induction s as [| c s IH]; simpl; [reflexivity |].
  destruct (PyStr.rstrip s) as [| d r] eqn:Hr.
  - destruct (PyStr.isspace c) eqn:Hc; simpl; [reflexivity | exact Hc].
  - exact IH.
Qed.

(** A stripped string neither starts nor ends with whitespace. *)
Lemma strip_trimmed (s : string) :
  head_space (PyStr.strip s) = false /\ last_space (PyStr.strip s) = false.
Proof.
  split; [apply rstrip_head, lstrip_head | apply rstrip_last].
Qed.

(** C9.  [send message]: [--files ""] parses to the empty string, and with
    [files] empty or absent the one call made on the client is the plain
    [send(to, content)].  Only a non-empty [--files] value selects
    [send_files]; its [file_paths] are the pieces of the value cut at the
    commas, each one stripped of surrounding whitespace. *)
Theorem files_flag_selects_the_call :
  (forall r m,
      String.prefix "-" r = false -> String.prefix "-" m = false ->
      parse_args send_message.parser [r; m; "--files"; ""]
      = Some (Parsed (send_message.Args r m (Some "") "http://localhost:3000")))
  /\
  (forall w argv fuel a,
      w_import w = Returns tt ->
      parse_args send_message.parser argv = Some (Parsed a) ->
      w_construct w (Some (send_message.base_url a)) (Some 30%Z) = Returns tt ->
      exists t st,
        run SendMessage w argv fuel = Some (t, st)
        /\ forall c,
            In (Call c) t <->
            c = match send_message.files a with
                | Some (String _ _ as s) =>
                    messages_send_files (send_message.recipient a)
                                        (map PyStr.strip (PyStr.split "," s))
                                        (send_message.message a)
                | _ =>
                    messages_send (send_message.recipient a) (send_message.message a)
                end).
Proof.
  split.
  - intros r m Hr Hm. unfold parse_args. simpl.
    unfold classify. rewrite Hr. simpl.
    unfold take. simpl. unfold classify. rewrite Hm. reflexivity.
  - intros w argv fuel a Hi Hp Hc.
    unfold run, send_message.script, send_message.main.
    rewrite (guarded_parsed _ _ _ _ _ a Hi Hp).
    unfold send_message.main_with, send_message.files_given, AgentText, call, ask.
    rewrite Hc. cbn [bind].
    destruct (send_message.files a) as [[| c0 s] |]; cbn [PyStr.truthy];
      match goal with
      | |- context [w_call w ?c] => destruct (w_call w c) as [result | [cls msg]]
      end;
      cbn [bind]; unfold print_json;
      try match goal with
          | |- context [json_error ?d] => destruct (json_error d)
          end;
      try destruct cls; simpl;
      (eexists; eexists; split; [reflexivity |]);
      (intros c; split;
       [ intros Hin; in_trace Hin; injection Hin as <-; reflexivity
       | intros ->; simpl; auto 10 ]).
Qed.

Lemma files_flag_selects_the_call_witness :
  parse_args send_message.parser ["+1234567890"; "Hello!"; "--files"; ""]
  = Some (Parsed (send_message.Args "+1234567890" "Hello!" (Some "")
                                    "http://localhost:3000"))
  /\ (exists t st,
         run SendMessage (calm PNone) ["+1234567890"; "Hello!"; "--files"; ""] 0
         = Some (t, st)
         /\ forall c, In (Call c) t <-> c = messages_send "+1234567890" "Hello!")
  /\ (exists t st,
         run SendMessage (calm PNone)
             ["+1234567890"; "Hello!"; "--files"; " a.png , b c.pdf,"] 0
         = Some (t, st)
         /\ forall c,
             In (Call c) t <->
             c = messages_send_files "+1234567890" ["a.png"; "b c.pdf"; ""] "Hello!").
Proof.
  split; [| split].
  - apply (proj1 files_flag_selects_the_call "+1234567890" "Hello!"); reflexivity.
  - apply (proj2 files_flag_selects_the_call (calm PNone)
             ["+1234567890"; "Hello!"; "--files"; ""] 0%nat
             (send_message.Args "+1234567890" "Hello!" (Some "")
                                "http://localhost:3000"));
      reflexivity.
  - apply (proj2 files_flag_selects_the_call (calm PNone)
             ["+1234567890"; "Hello!"; "--files"; " a.png , b c.pdf,"] 0%nat
             (send_message.Args "+1234567890" "Hello!" (Some " a.png , b c.pdf,")
                                "http://localhost:3000"));
      reflexivity.
Defined.

(** ** The parser and its judgment *)

Section ParserFacts.

Context {A : Type} (p : ArgumentParser A).

Lemma take_parsed (a : argument A) value ns k r :
  take a value ns k = Some (Parsed r) ->
  exists ns', applies a value ns ns' /\ k ns' = Some (Parsed r).
Proof.
  unfold take, applies. destruct (act a) as [choices set | set | set].
  - destruct (allowed choices value); [| discriminate]. eauto.
  - destruct (int value) as [z | |]; try discriminate. eauto.
  - discriminate.
Qed.

Lemma take_applies (a : argument A) value ns ns' k :
  applies a value ns ns' -> take a value ns k = k ns'.
Proof.
  unfold take, applies. destruct (act a) as [choices set | set | set].
  - intros [-> ->]. reflexivity.
  - intros (z & -> & ->). reflexivity.
  - contradiction.
Qed.

(** A namespace comes out of [parse_loop] only along the judgment, and
    never once a word was left over. *)
Lemma parse_loop_sound : forall n argv pending extras ns r,
  (length argv <= n)%nat ->
  parse_loop p pending extras ns argv = Some (Parsed r) ->
  extras = false /\ parses p pending ns argv r.
Proof.
  induction n as [| n IH]; intros argv pending extras ns r Hlen Hparse.
  - destruct argv; [| simpl in Hlen; lia]. simpl in Hparse.
    destruct pending; [| discriminate]. destruct extras; [discriminate |].
    injection Hparse as <-. split; [reflexivity | constructor].
  - destruct argv as [| tok rest].
    + simpl in Hparse. destruct pending; [| discriminate].
      destruct extras; [discriminate |].
      injection Hparse as <-. split; [reflexivity | constructor].
    + simpl in Hlen. cbn [parse_loop] in Hparse.
      destruct (classify p tok) as [| flag explicit |] eqn:Htok; [| | discriminate].
      * destruct pending as [| a pending].
        -- apply IH in Hparse; [| lia]. destruct Hparse; discriminate.
        -- apply take_parsed in Hparse. destruct Hparse as (ns' & Happ & Hrest).
           apply IH in Hrest; [| lia]. destruct Hrest as [-> Hrest].
           split; [reflexivity |]. econstructor; eassumption.
      * destruct (is_help flag) eqn:Hhelp; [destruct explicit; discriminate |].
        destruct (find_optional p flag) as [a |] eqn:Hfind; [| discriminate].
        assert (Hvalue :
          (exists set, act a = store_true set)
          \/ match explicit with
             | Some value =>
                 take a value ns (fun ns' => parse_loop p pending extras ns' rest)
             | None =>
                 match rest with
                 | [] => Some UsageError
                 | value :: rest' =>
                     match classify p value with
                     | Word =>
                         take a value ns
                              (fun ns' => parse_loop p pending extras ns' rest')
                     | Flag _ _ => Some UsageError
                     | Unknown => None
                     end
                 end
             end = Some (Parsed r)).
        { destruct (act a); eauto. }
        destruct Hvalue as [[set Hact] | Hvalue].
        -- rewrite Hact in Hparse. destruct explicit; [discriminate |].
           apply IH in Hparse; [| lia]. destruct Hparse as [-> Hrest].
           split; [reflexivity |]. eapply parses_switch; eassumption.
        -- clear Hparse. destruct explicit as [value |].
           ++ apply take_parsed in Hvalue. destruct Hvalue as (ns' & Happ & Hrest).
              apply IH in Hrest; [| lia]. destruct Hrest as [-> Hrest].
              split; [reflexivity |]. eapply parses_attached; eassumption.
           ++ destruct rest as [| value rest']; [discriminate |].
              destruct (classify p value) eqn:Hval; try discriminate.
              apply take_parsed in Hvalue. destruct Hvalue as (ns' & Happ & Hrest).
              apply IH in Hrest; [| simpl in Hlen; lia]. destruct Hrest as [-> Hrest].
              split; [reflexivity |]. eapply parses_option; eassumption.
Qed.

Lemma applies_not_switch (a : argument A) value ns ns' set :
  applies a value ns ns' -> act a <> store_true set.
Proof. unfold applies. intros H Hact. rewrite Hact in H. exact H. Qed.

(** Conversely the judgment is enough for [parse_loop] to answer. *)
Lemma parse_loop_complete pending ns argv r :
  parses p pending ns argv r ->
  parse_loop p pending false ns argv = Some (Parsed r).
Proof.
  induction 1 as [ ns
                 | a pending tok rest ns ns' r Htok Happ _ IH
                 | pending tok flag a set rest ns r Htok Hhelp Hfind Hact _ IH
                 | pending tok flag value a rest ns ns' r Htok Hhelp Hfind Happ _ IH
                 | pending tok flag value a rest ns ns' r Htok Hhelp Hfind Hval Happ _ IH ];
    cbn [parse_loop].
  - reflexivity.
  - rewrite Htok, (take_applies _ _ _ _ _ Happ). exact IH.
  - rewrite Htok, Hhelp, Hfind, Hact. exact IH.
  - rewrite Htok, Hhelp, Hfind.
    destruct (act a) eqn:Hact;
      try (rewrite (take_applies _ _ _ _ _ Happ); exact IH).
    exfalso. exact (applies_not_switch _ _ _ _ _ Happ Hact).
  - rewrite Htok, Hhelp, Hfind.
    destruct (act a) eqn:Hact;
      try (rewrite Hval, (take_applies _ _ _ _ _ Happ); exact IH).
    exfalso. exact (applies_not_switch _ _ _ _ _ Happ Hact).
Qed.

Theorem parse_args_parses argv r :
  parse_args p argv = Some (Parsed r) <-> parses p (positionals p) (defaults p) argv r.
Proof.
  split.
  - intros H. exact (proj2 (parse_loop_sound _ _ _ _ _ _ (le_n _) H)).
  - apply parse_loop_complete.
Qed.

End ParserFacts.

(** ** Options that a command line does not mention, and the last one it
    gives *)

Lemma prefix_refl (s : string) : String.prefix s s = true.
Proof.
  induction s as [| c s IH]; simpl; [reflexivity |].
  destruct (ascii_dec c c); [exact IH | contradiction].
Qed.

Lemma split_eq_spec (s l r : string) :
  split_eq s = Some (l, r) -> s = l ++ String "=" r.
Proof.
  revert l. induction s as [| c s IH]; intros l; simpl; [discriminate |].
  destruct (Ascii.eqb c "=") eqn:Hc.
  - intros [= <- <-]. apply Ascii.eqb_eq in Hc. subst c. reflexivity.
  - destruct (split_eq s) as [[l' r'] |]; [| discriminate].
    intros [= <- <-]. simpl. f_equal. apply IH. reflexivity.
Qed.

Section OptionFacts.

Context {A : Type} (p : ArgumentParser A).

Lemma classify_flag_prefix tok flag explicit :
  classify p tok = Flag flag explicit -> String.prefix flag tok = true.
Proof.
  unfold classify. destruct (negb (String.prefix "-" tok)); [discriminate |].
  destruct (declared p tok).
  - intros [= <- _]. apply prefix_refl.
  - destruct (String.prefix "--" tok); [| discriminate].
    destruct (split_eq tok) as [[l r] |] eqn:Hs; [| discriminate].
    destruct (declared p l); [| discriminate].
    intros [= <- _]. apply split_eq_spec in Hs. subst tok. apply prefix_append.
Qed.

Lemma find_optional_spec flag a :
  find_optional p flag = Some a ->
  In a (arguments p) /\ name a = flag /\ is_optional a = true.
Proof.
  unfold find_optional. intros H. apply find_some in H. destruct H as [Hin Hb].
  apply andb_prop in Hb. destruct Hb as [Ho Hn]. apply String.eqb_eq in Hn. auto.
Qed.

Lemma positionals_spec a :
  In a (positionals p) -> In a (arguments p) /\ is_optional a = false.
Proof.
  unfold positionals. intros H. apply filter_In in H. destruct H as [Hin Hb].
  split; [exact Hin |]. destruct (is_optional a); [discriminate | reflexivity].
Qed.

Lemma applies_preserves (P : A -> Prop) a value ns ns' :
  preserves P a -> applies a value ns ns' -> P ns -> P ns'.
Proof.
  unfold preserves, applies. destruct (act a) as [choices set | set | set].
  - intros Hp [_ ->]. apply Hp.
  - intros Hp (z & _ & ->). apply Hp.
  - contradiction.
Qed.

(** A property of the namespace that every argument but [flag] keeps is
    kept by a command line in which no word starts with [flag]. *)
Lemma parses_untouched (P : A -> Prop) (flag : string) :
  String.prefix "-" flag = true ->
  (forall a, In a (arguments p) -> name a <> flag -> preserves P a) ->
  forall pending ns argv r,
    parses p pending ns argv r ->
    incl pending (positionals p) ->
    absent flag argv = true ->
    P ns -> P r.
Proof.
  intros Hflag Hkeep pending ns argv r Hparses.
  assert (Hopt : forall tok f e a,
             classify p tok = Flag f e -> find_optional p f = Some a ->
             String.prefix flag tok = false -> preserves P a).
  { intros tok f e a Htok Hfind Habs.
    apply find_optional_spec in Hfind. destruct Hfind as (Hin & Hname & _).
    apply Hkeep; [exact Hin |]. intros Heq. rewrite Hname in Heq. subst f.
    apply classify_flag_prefix in Htok. congruence. }
  induction Hparses as
      [ ns
      | a pending tok rest ns ns' r Htok Happ _ IH
      | pending tok flag' a set rest ns r Htok Hhelp Hfind Hact _ IH
      | pending tok flag' value a rest ns ns' r Htok Hhelp Hfind Happ _ IH
      | pending tok flag' value a rest ns ns' r Htok Hhelp Hfind Hval Happ _ IH ];
    intros Hpending Habsent HP.
  - exact HP.
  - simpl in Habsent. apply andb_prop in Habsent. destruct Habsent as [_ Hrest].
    apply IH; [intros x Hx; apply Hpending; right; exact Hx | exact Hrest |].
    apply (applies_preserves P a tok ns ns'); [| exact Happ | exact HP].
    destruct (positionals_spec a (Hpending a (or_introl eq_refl))) as [Hin Hpos].
    apply Hkeep; [exact Hin |]. intros Heq. unfold is_optional in Hpos.
    rewrite Heq in Hpos. congruence.
  - simpl in Habsent. apply andb_prop in Habsent. destruct Habsent as [Htok' Hrest].
    apply negb_true_iff in Htok'.
    apply IH; [exact Hpending | exact Hrest |].
    specialize (Hopt tok flag' None a Htok Hfind Htok').
    unfold preserves in Hopt. rewrite Hact in Hopt. apply Hopt, HP.
  - simpl in Habsent. apply andb_prop in Habsent. destruct Habsent as [Htok' Hrest].
    apply negb_true_iff in Htok'.
    apply IH; [exact Hpending | exact Hrest |].
    exact (applies_preserves P a value ns ns'
             (Hopt tok flag' (Some value) a Htok Hfind Htok') Happ HP).
  - simpl in Habsent. apply andb_prop in Habsent. destruct Habsent as [Htok' Hrest].
    apply andb_prop in Hrest. destruct Hrest as [_ Hrest].
    apply negb_true_iff in Htok'.
    apply IH; [exact Hpending | exact Hrest |].
    exact (applies_preserves P a value ns ns'
             (Hopt tok flag' None a Htok Hfind Htok') Happ HP).
Qed.

(** When the command line ends with [flag value], and [flag] is an option
    that takes an argument, the namespace is the result of that action. *)
Lemma parses_last_option (flag value : string) (a0 : argument A) :
  classify p flag = Flag flag None ->
  find_optional p flag = Some a0 ->
  (forall set, act a0 <> store_true set) ->
  forall pending ns words r,
    parses p pending ns words r ->
    forall argv, words = (argv ++ [flag; value])%list ->
    exists r0, applies a0 value r0 r.
Proof.
  intros Hflag Hfind0 Hstore pending ns words r Hparses.
  induction Hparses as
      [ ns
      | a pending tok rest ns ns' r Htok Happ _ IH
      | pending tok flag' a set rest ns r Htok Hhelp Hfind Hact _ IH
      | pending tok flag' v a rest ns ns' r Htok Hhelp Hfind Happ _ IH
      | pending tok flag' v a rest ns ns' r Htok Hhelp Hfind Hval Happ Hrest IH ];
    intros argv Heq.
  - destruct argv; discriminate.
  - destruct argv as [| x argv]; simpl in Heq; injection Heq as -> ->.
    + congruence.
    + eapply IH. reflexivity.
  - destruct argv as [| x argv]; simpl in Heq; injection Heq as -> ->.
    + rewrite Hflag in Htok. injection Htok as <-.
      rewrite Hfind0 in Hfind. injection Hfind as <-.
      exfalso. exact (Hstore set Hact).
    + eapply IH. reflexivity.
  - destruct argv as [| x argv]; simpl in Heq; injection Heq as -> ->.
    + congruence.
    + eapply IH. reflexivity.
  - destruct argv as [| x [| y argv]]; simpl in Heq.
    + injection Heq as -> -> ->.
      rewrite Hflag in Htok. injection Htok as <-.
      rewrite Hfind0 in Hfind. injection Hfind as <-.
      inversion Hrest; subst. exists ns. exact Happ.
    + injection Heq as -> -> ->. congruence.
    + injection Heq as -> -> ->. eapply IH. reflexivity.
Qed.

End OptionFacts.

(** ** The base URL of the client *)

Section Accepted.

Context {A : Type} (p : ArgumentParser A).

Lemma parses_app pending ns argv r tail r' :
  parses p pending ns argv r ->
  parses p [] r tail r' ->
  parses p pending ns (argv ++ tail) r'.
Proof.
  intros H Htail. induction H; simpl.
  - exact Htail.
  - eapply parses_positional; eauto.
  - eapply parses_switch; eauto.
  - eapply parses_attached; eauto.
  - eapply parses_option; eauto.
Qed.

(** An accepted command line is still accepted with [flag value] added at
    its end, and the value is stored. *)
Lemma option_accepted (flag : string) (a0 : argument A) set argv r value :
  classify p flag = Flag flag None ->
  is_help flag = false ->
  find_optional p flag = Some a0 ->
  act a0 = store None set ->
  String.prefix "-" value = false ->
  parse_args p argv = Some (Parsed r) ->
  parse_args p (argv ++ [flag; value]) = Some (Parsed (set value r)).
Proof.
  intros Hflag Hhelp Hfind Hact Hvalue Hparse.
  apply parse_args_parses. apply parse_args_parses in Hparse.
  eapply parses_app; [exact Hparse |].
  eapply parses_option; try eassumption.
  - unfold classify. rewrite Hvalue. reflexivity.
  - unfold applies. rewrite Hact. split; reflexivity.
  - constructor.
Qed.

End Accepted.

Lemma run_process_trace (m : M unit) : fst (run_process m) = fst m.
Proof. destruct m as [t [[] | e]]; simpl; [| destruct (exn_class e)]; reflexivity. Qed.

Lemma guarded_parse_then_inv {A} hint (p : ArgumentParser A) body w argv m :
  guarded hint (parse_then p body) w argv = Some m ->
  (exists a,
      w_import w = Returns tt
      /\ parse_args p argv = Some (Parsed a)
      /\ m = ((Import :: ParseArgs argv :: fst (body w a))%list, snd (body w a)))
  \/ all_events no_client m.
Proof.
  unfold guarded, import_guard, ask, parse_then.
  destruct (w_import w) as [[] | e]; simpl.
  - destruct (parse_args p argv) as [[a | |] |]; simpl; try discriminate.
    + destruct (body w a) as [t r] eqn:Hb. intros [= <-]. left. exists a.
      rewrite Hb. auto.
    + intros [= <-]. right. repeat constructor.
    + intros [= <-]. right. repeat constructor.
  - destruct (exn_class e); simpl; intros [= <-]; right; repeat constructor.
Qed.

Lemma all_events_fail_with (Q : event -> Prop) (msg : string) :
  (forall doc indent flush, Q (Print doc indent flush)) ->
  all_events Q (fail_with msg).
Proof. intros H. repeat constructor. apply H. Qed.

Lemma all_events_client_handlers (Q : event -> Prop) base_url cls h e :
  (forall doc indent flush, Q (Print doc indent flush)) ->
  In (cls, h) (client_handlers base_url) -> all_events Q (h e).
Proof.
  intros HQ. simpl. intros [[= <- <-] | [[= <- <-] | [[= <- <-] | []]]];
    apply all_events_fail_with, HQ.
Qed.

(** Closes the goals [constructs u ev] left by [events]. *)
Ltac constructs_event :=
  match goal with
  | H : _ = Construct _ _ |- _ =>
      first [ discriminate H | injection H as <- <-; split; reflexivity ]
  end.

Lemma constructs_print b0 tm0 doc indent flush :
  constructs b0 tm0 (Print doc indent flush).
Proof. intros b tm H. discriminate H. Qed.

Ltac client_events :=
  first [ apply all_events_try;
          [ events; try constructs_event
          | intros cls h e; apply all_events_client_handlers; apply constructs_print ]
        | events; try constructs_event ].

Lemma constructs_batch_send w a :
  all_events (constructs (Some (batch_send.base_url a)) (Some 30%Z)) (batch_send.main_with w a).
Proof.
  apply all_events_try.
  - events; try constructs_event.
  - intros cls h e [[= <- <-] | [[= <- <-] | Hin]].
    + apply all_events_fail_with, constructs_print.
    + apply all_events_fail_with, constructs_print.
    + revert Hin. apply all_events_client_handlers, constructs_print.
Qed.

Lemma constructs_get_messages w a :
  all_events (constructs (Some (get_messages.base_url a)) (Some 30%Z)) (get_messages.main_with w a).
Proof. client_events. Qed.

Lemma constructs_get_unread w a :
  all_events (constructs (Some (get_unread.base_url a)) (Some 30%Z)) (get_unread.main_with w a).
Proof. client_events. Qed.

Lemma constructs_list_chats w a :
  all_events (constructs (Some (list_chats.base_url a)) (Some 30%Z)) (list_chats.main_with w a).
Proof. client_events. Qed.

Lemma constructs_send_file w a :
  all_events (constructs (Some (send_file.base_url a)) (Some 30%Z)) (send_file.main_with w a).
Proof.
  apply all_events_bind; [events; constructs_event |].
  intros found. apply all_events_bind.
  - destruct found; simpl; [events | apply all_events_fail_with, constructs_print].
  - intros _. client_events.
Qed.

Lemma constructs_send_message w a :
  all_events (constructs (Some (send_message.base_url a)) (Some 30%Z)) (send_message.main_with w a).
Proof. client_events. Qed.

Lemma constructs_watcher w a :
  all_events (constructs (Some (watcher.base_url a)) (Some 30%Z)) (watcher.main_with w a).
Proof. client_events. Qed.

Ltac base_url_option_tac :=
  split; [reflexivity |]; split;
  [ intros a Hin Hname; simpl in Hin;
    repeat (destruct Hin as [<- | Hin];
            [ first [ now (exfalso; apply Hname)
                    | now (intros ? ? H; exact H)
                    | now (intros ? H; exact H) ] |]);
    contradiction
  | eexists; eexists; split; [reflexivity |]; split; [reflexivity |];
    intros u ns; reflexivity ].

Lemma base_url_option_batch_send : base_url_option batch_send.parser batch_send.base_url.
Proof. base_url_option_tac. Qed.

Lemma base_url_option_get_messages :
  base_url_option get_messages.parser get_messages.base_url.
Proof. base_url_option_tac. Qed.

Lemma base_url_option_get_unread : base_url_option get_unread.parser get_unread.base_url.
Proof. base_url_option_tac. Qed.

Lemma base_url_option_list_chats : base_url_option list_chats.parser list_chats.base_url.
Proof. base_url_option_tac. Qed.

Lemma base_url_option_send_file : base_url_option send_file.parser send_file.base_url.
Proof. base_url_option_tac. Qed.

Lemma base_url_option_send_message :
  base_url_option send_message.parser send_message.base_url.
Proof. base_url_option_tac. Qed.

Lemma base_url_option_watcher : base_url_option watcher.parser watcher.base_url.
Proof. base_url_option_tac. Qed.

Lemma classify_declared {A} (p : ArgumentParser A) flag a :
  find_optional p flag = Some a ->
  String.prefix "-" flag = true ->
  classify p flag = Flag flag None.
Proof.
  intros Hfind Hprefix. unfold classify, declared.
  rewrite Hprefix, Hfind. simpl. rewrite orb_true_r. reflexivity.
Qed.

Section BaseUrl.

Context {A : Type} (p : ArgumentParser A) (get : A -> string).
Hypothesis Hoption : base_url_option p get.

Lemma base_url_of_namespace argv r :
  parse_args p argv = Some (Parsed r) ->
  (absent "--base-url" argv = true -> get r = default_base_url)
  /\ (forall argv' u, argv = (argv' ++ ["--base-url"; u])%list -> get r = u).
Proof.
  destruct Hoption as (Hdef & Hkeep & a0 & set & Hfind & Hact & Hget).
  intros Hparse. apply parse_args_parses in Hparse. split.
  - intros Habs.
    eapply (parses_untouched p (fun ns => get ns = default_base_url) "--base-url");
      [reflexivity | exact Hkeep | exact Hparse | apply incl_refl | exact Habs
      | exact Hdef].
  - intros argv' u Heq.
    destruct (parses_last_option p "--base-url" u a0
                (classify_declared p _ _ Hfind eq_refl) Hfind
                ltac:(intros set'; rewrite Hact; discriminate)
                _ _ _ _ Hparse argv' Heq) as [r0 Happ].
    unfold applies in Happ. rewrite Hact in Happ. destruct Happ as [_ ->].
    apply Hget.
Qed.

Lemma base_url_accepted argv u :
  is_parsed (parse_args p argv) = true ->
  String.prefix "-" u = false ->
  is_parsed (parse_args p (argv ++ ["--base-url"; u])) = true.
Proof.
  destruct Hoption as (_ & _ & a0 & set & Hfind & Hact & _).
  destruct (parse_args p argv) as [[r | |] |] eqn:Hparse; try discriminate.
  intros _ Hu.
  rewrite (option_accepted p "--base-url" a0 set argv r u
             (classify_declared p _ _ Hfind eq_refl) eq_refl Hfind Hact Hu Hparse).
  reflexivity.
Qed.

Lemma base_url_of_run hint body w argv m b tm :
  (forall a, all_events (constructs (Some (get a)) (Some 30%Z)) (body w a)) ->
  guarded hint (parse_then p body) w argv = Some m ->
  In (Construct b tm) (fst m) ->
  tm = Some 30%Z
  /\ (absent "--base-url" argv = true -> b = Some "http://localhost:3000")
  /\ (forall argv' u, argv = (argv' ++ ["--base-url"; u])%list -> b = Some u).
Proof.
  intros Hcons Hm Hin. apply guarded_parse_then_inv in Hm.
  destruct Hm as [(a & _ & Hparse & ->) | Hno].
  - simpl in Hin. destruct Hin as [Hin | [Hin | Hin]]; try discriminate Hin.
    specialize (Hcons a). unfold all_events in Hcons.
    rewrite Forall_forall in Hcons.
    destruct (Hcons _ Hin b tm eq_refl) as [-> ->].
    destruct (base_url_of_namespace argv a Hparse) as [Hdefault Hlast].
    split; [reflexivity |]. split.
    + intros Habs. f_equal. exact (Hdefault Habs).
    + intros argv' u Heq. f_equal. exact (Hlast argv' u Heq).
  - exfalso. unfold all_events in Hno. rewrite Forall_forall in Hno.
    exact (Hno _ Hin).
Qed.

End BaseUrl.

Lemma constructs_import_guard b0 tm0 w hint :
  all_events (constructs b0 tm0) (import_guard w hint).
Proof.
  apply all_events_try.
  - events. constructs_event.
  - simpl. intros cls h e [[= <- <-] | []].
    apply all_events_fail_with, constructs_print.
Qed.

Lemma constructs_simple_test w m :
  simple_test.script w = Some m -> all_events (constructs None None) m.
Proof.
  unfold simple_test.script, guarded. apply all_events_bind_opt.
  - apply constructs_import_guard.
  - intros _ m' [= <-]. apply all_events_try.
    + events; constructs_event.
    + simpl. intros cls h e [[= <- <-] | []].
      apply all_events_fail_with, constructs_print.
Qed.

Lemma constructs_watch_messages w fuel m :
  watch_messages.script w fuel = Some m ->
  all_events (constructs (Some "http://localhost:3000") None) m.
Proof.
  unfold watch_messages.script, guarded. apply all_events_bind_opt.
  - apply constructs_import_guard.
  - intros _ m'. unfold watch_messages.main.
    destruct (bind_opt _ _) as [body |] eqn:Hbody; simpl; [| discriminate].
    intros [= <-].
    assert (Hcb : forall x, all_events (constructs (Some "http://localhost:3000") None)
                                       (watch_messages.on_message x)).
    { intros x. unfold watch_messages.on_message. events. constructs_event. }
    apply all_events_try.
    + revert Hbody. apply all_events_bind_opt.
      * unfold watch_messages.start. events; try constructs_event.
        constructor; [intros b tm H; discriminate H | apply all_events_deliver, Hcb].
      * intros _ m'. apply all_events_watch_loop; [| exact Hcb].
        intros b tm H. discriminate H.
    + simpl. intros cls h e [[= <- <-] | [[= <- <-] | []]];
        unfold sys_exit; events; constructs_event.
Qed.

(** C2, as stated, fails for two of the nine commands.  [simple test]
    builds the client without any base URL and [watch messages] against the
    fixed local server, also when the command line carries
    [--base-url http://10.0.0.7:8080]: neither script reads its command
    line. *)
Lemma base_url_flag_ignored :
  (exists t st,
      run SimpleTest (calm PNone) ["--base-url"; "http://10.0.0.7:8080"] 0
      = Some (t, st)
      /\ In (Construct None None) t
      /\ forall b tm, In (Construct b tm) t -> b <> Some "http://10.0.0.7:8080")
  /\
  (exists t st,
      run WatchMessages interrupted ["--base-url"; "http://10.0.0.7:8080"] 3
      = Some (t, st)
      /\ In (Construct (Some "http://localhost:3000") None) t
      /\ forall b tm, In (Construct b tm) t -> b <> Some "http://10.0.0.7:8080").
Proof.
  split; eexists; eexists; (split; [reflexivity |]); (split; [simpl; auto |]);
    intros b tm Hin; in_trace Hin; injection Hin as <- _; discriminate.
Qed.

(** C2, amended.  The seven commands that parse a command line accept
    [--base-url]: a command line they accept is still accepted with
    [--base-url u] at its end.  Whenever one of them constructs the client,
    the timeout is 30 and the base URL is [http://localhost:3000] if no
    word of the command line starts with [--base-url], and [u] if the
    command line ends with [--base-url u]; from any namespace, the client
    is constructed against [args.base_url].  [watch messages] always
    constructs the client against [http://localhost:3000], and
    [simple test] constructs it with no argument. *)
Theorem base_url_flag :
  (forall c argv u,
      has_parser c = true ->
      accepts c argv = true ->
      String.prefix "-" u = false ->
      accepts c (argv ++ ["--base-url"; u]) = true)
  /\
  (forall w ns b tm,
      In (Construct b tm) (fst (main_after_parse w ns)) ->
      b = Some (base_url_of ns) /\ tm = Some 30%Z)
  /\
  (forall c w argv fuel t st b tm,
      has_parser c = true ->
      run c w argv fuel = Some (t, st) ->
      In (Construct b tm) t ->
      tm = Some 30%Z
      /\ (absent "--base-url" argv = true -> b = Some "http://localhost:3000")
      /\ (forall argv' u, argv = (argv' ++ ["--base-url"; u])%list -> b = Some u))
  /\
  (forall w argv fuel t st b tm,
      run WatchMessages w argv fuel = Some (t, st) ->
      In (Construct b tm) t ->
      b = Some "http://localhost:3000" /\ tm = None)
  /\
  (forall w argv fuel t st b tm,
      run SimpleTest w argv fuel = Some (t, st) ->
      In (Construct b tm) t ->
      b = None /\ tm = None).
Proof.
  split; [| split; [| split; [| split]]].
  - intros c argv u Hc. destruct c; try discriminate Hc; simpl.
    + apply (base_url_accepted _ _ base_url_option_batch_send).
    + apply (base_url_accepted _ _ base_url_option_get_messages).
    + apply (base_url_accepted _ _ base_url_option_get_unread).
    + apply (base_url_accepted _ _ base_url_option_list_chats).
    + apply (base_url_accepted _ _ base_url_option_send_file).
    + apply (base_url_accepted _ _ base_url_option_send_message).
    + apply (base_url_accepted _ _ base_url_option_watcher).
  - intros w ns b tm Hin.
    assert (H : all_events (constructs (Some (base_url_of ns)) (Some 30%Z))
                           (main_after_parse w ns)).
    { destruct ns; simpl;
        [ apply constructs_batch_send | apply constructs_get_messages
        | apply constructs_get_unread | apply constructs_list_chats
        | apply constructs_send_file | apply constructs_send_message
        | apply constructs_watcher ]. }
    unfold all_events in H. rewrite Forall_forall in H.
    exact (H _ Hin b tm eq_refl).
  - intros c w argv fuel t st b tm Hc Hrun Hin. unfold run in Hrun.
    destruct c; try discriminate Hc;
      match type of Hrun with
      | option_map _ ?script = _ =>
          destruct script as [m |] eqn:Hm; [| discriminate Hrun]
      end;
      simpl in Hrun; injection Hrun as Hrun;
      assert (Ht : t = fst m) by (rewrite <- (run_process_trace m), Hrun; reflexivity);
      rewrite Ht in Hin.
    + exact (base_url_of_run _ _ base_url_option_batch_send _ _ _ _ _ _ _
               (constructs_batch_send w) Hm Hin).
    + exact (base_url_of_run _ _ base_url_option_get_messages _ _ _ _ _ _ _
               (constructs_get_messages w) Hm Hin).
    + exact (base_url_of_run _ _ base_url_option_get_unread _ _ _ _ _ _ _
               (constructs_get_unread w) Hm Hin).
    + exact (base_url_of_run _ _ base_url_option_list_chats _ _ _ _ _ _ _
               (constructs_list_chats w) Hm Hin).
    + exact (base_url_of_run _ _ base_url_option_send_file _ _ _ _ _ _ _
               (constructs_send_file w) Hm Hin).
    + exact (base_url_of_run _ _ base_url_option_send_message _ _ _ _ _ _ _
               (constructs_send_message w) Hm Hin).
    + exact (base_url_of_run _ _ base_url_option_watcher _ _ _ _ _ _ _
               (constructs_watcher w) Hm Hin).
  - intros w argv fuel t st b tm Hrun Hin. unfold run in Hrun.
    destruct (watch_messages.script w fuel) as [m |] eqn:Hm; [| discriminate Hrun].
    simpl in Hrun. injection Hrun as Hrun.
    assert (Ht : t = fst m) by (rewrite <- (run_process_trace m), Hrun; reflexivity).
    apply constructs_watch_messages in Hm. unfold all_events in Hm.
    rewrite Forall_forall in Hm. rewrite Ht in Hin. exact (Hm _ Hin b tm eq_refl).
  - intros w argv fuel t st b tm Hrun Hin. unfold run in Hrun.
    destruct (simple_test.script w) as [m |] eqn:Hm; [| discriminate Hrun].
    simpl in Hrun. injection Hrun as Hrun.
    assert (Ht : t = fst m) by (rewrite <- (run_process_trace m), Hrun; reflexivity).
    apply constructs_simple_test in Hm. unfold all_events in Hm.
    rewrite Forall_forall in Hm. rewrite Ht in Hin. exact (Hm _ Hin b tm eq_refl).
Qed.

Lemma base_url_flag_witness :
  (accepts SendFile ["+1234567890"; "photo.png"] = true
   /\ accepts SendFile (["+1234567890"; "photo.png"]
                        ++ ["--base-url"; "http://10.0.0.7:8080"]) = true)
  /\ (exists t st,
         run GetUnread (calm PNone) [] 0 = Some (t, st)
         /\ In (Construct (Some "http://localhost:3000") (Some 30%Z)) t
         /\ (Some 30%Z = Some 30%Z
             /\ (absent "--base-url" [] = true ->
                 Some "http://localhost:3000" = Some "http://localhost:3000")
             /\ (forall argv' u,
                    [] = (argv' ++ ["--base-url"; u])%list ->
                    Some "http://localhost:3000" = Some u)))
  /\ (exists t st,
         run Watcher (calm PNone) ["status"; "--base-url"; "http://10.0.0.7:8080"] 0
         = Some (t, st)
         /\ In (Construct (Some "http://10.0.0.7:8080") (Some 30%Z)) t
         /\ (Some 30%Z = Some 30%Z
             /\ (absent "--base-url" ["status"; "--base-url"; "http://10.0.0.7:8080"]
                 = true ->
                 Some "http://10.0.0.7:8080" = Some "http://localhost:3000")
             /\ (forall argv' u,
                    ["status"; "--base-url"; "http://10.0.0.7:8080"]
                    = (argv' ++ ["--base-url"; u])%list ->
                    Some "http://10.0.0.7:8080" = Some u)))
  /\ (In (Construct (Some "http://10.0.0.7:8080") (Some 30%Z))
         (fst (main_after_parse server_down
                 (get_unread_args (get_unread.Args "http://10.0.0.7:8080"))))
      /\ (Some "http://10.0.0.7:8080" = Some "http://10.0.0.7:8080"
          /\ Some 30%Z = Some 30%Z))
  /\ (exists t st,
         run WatchMessages interrupted [] 3 = Some (t, st)
         /\ In (Construct (Some "http://localhost:3000") None) t
         /\ (Some "http://localhost:3000" = Some "http://localhost:3000"
             /\ @None Z = None))
  /\ (exists t st,
         run SimpleTest (calm PNone) [] 0 = Some (t, st)
         /\ In (Construct None None) t
         /\ (@None string = None /\ @None Z = None)).
Proof.
  destruct base_url_flag as (Haccept & Hnamespace & Hrun & Hwatch & Hsimple).
  split; [| split; [| split; [| split; [| split]]]].
  - split; [reflexivity |].
    apply (Haccept SendFile ["+1234567890"; "photo.png"] "http://10.0.0.7:8080");
      reflexivity.
  - eexists. eexists. split; [reflexivity |]. split; [simpl; auto |].
    eapply (Hrun GetUnread (calm PNone) [] 0%nat);
      [reflexivity | reflexivity | simpl; auto].
  - eexists. eexists. split; [reflexivity |]. split; [simpl; auto |].
    eapply (Hrun Watcher (calm PNone)
              ["status"; "--base-url"; "http://10.0.0.7:8080"] 0%nat);
      [reflexivity | reflexivity | simpl; auto].
  - split; [simpl; auto |].
    apply (Hnamespace server_down
             (get_unread_args (get_unread.Args "http://10.0.0.7:8080"))).
    simpl. auto.
  - eexists. eexists. split; [reflexivity |]. split; [simpl; auto |].
    eapply (Hwatch interrupted [] 3%nat); [reflexivity | simpl; auto].
  - eexists. eexists. split; [reflexivity |]. split; [simpl; auto |].
    eapply (Hsimple (calm PNone) [] 0%nat); [reflexivity | simpl; auto].
Defined.

(** ** Connection failures *)

Lemma contains_append (sub s t : string) :
  PyStr.contains sub t = true -> PyStr.contains sub (s ++ t) = true.
Proof.
  intros H. induction s as [| c s IH]; simpl; [exact H |].
  rewrite IH. apply orb_true_r.
Qed.

Lemma connection_message (base msg : string) :
  PyStr.contains base
    ("Connection error: " ++ msg ++ ". Make sure the API server is running on " ++ base)
  = true.
Proof.
  apply contains_append, contains_append.
  exact (contains_suffix ". Make sure the API server is running on " base).
Qed.

Lemma find_handler_skip {A} (e : exn) (extra hs : list (except_class * (exn -> M A))) :
  (forall cls h, In (cls, h) extra -> isinstance_exn e cls = false) ->
  find_handler e (extra ++ hs) = find_handler e hs.
Proof.
  induction extra as [| [cls h] extra IH]; intros Hskip; simpl; [reflexivity |].
  rewrite (Hskip cls h (or_introl eq_refl)). apply IH.
  intros cls' h' Hin. apply (Hskip cls' h'). right. exact Hin.
Qed.

Lemma no_client_only base c0 ev : no_client ev -> only_client base c0 ev.
Proof. destruct ev; simpl; auto; contradiction. Qed.

Lemma no_client_not_a_call ev : no_client ev -> not_a_call ev.
Proof. destruct ev; simpl; auto. Qed.

Section ClientTry.

Variables (w : world) (base : string) (c0 : client_call) (k : pyvalue -> M unit).
Variables (pre : list event) (extra : list (except_class * (exn -> M unit))).

Hypothesis Hk : forall v, all_events no_client (k v).
Hypothesis Hpre : Forall no_client pre.
Hypothesis Hextra_class : forall cls h,
    In (cls, h) extra -> cls = exc_FileNotFoundError \/ cls = exc_JSONDecodeError.
Hypothesis Hextra_events : forall cls h e,
    In (cls, h) extra -> all_events no_client (h e).

Lemma attempt_handlers (Q : event -> Prop) :
  (forall ev, no_client ev -> Q ev) ->
  forall cls h e, In (cls, h) (extra ++ client_handlers base) -> all_events Q (h e).
Proof.
  intros HQ cls h e Hin. apply in_app_or in Hin. destruct Hin as [Hin | Hin].
  - eapply Forall_impl; [exact HQ | exact (Hextra_events cls h e Hin)].
  - revert Hin. apply all_events_client_handlers. intros. apply HQ. exact I.
Qed.

Lemma attempt_only_client :
  all_events (only_client base c0) (attempt w base c0 k pre extra).
Proof.
  apply all_events_try; [| apply attempt_handlers, no_client_only].
  apply all_events_bind.
  - eapply Forall_impl; [apply no_client_only | exact Hpre].
  - intros _. unfold AgentText, call. apply all_events_bind.
    + apply all_events_ask. simpl. auto.
    + intros _. apply all_events_bind.
      * apply all_events_ask. reflexivity.
      * intros v. eapply Forall_impl; [apply no_client_only | exact (Hk v)].
Qed.

Lemma connection_not_extra e :
  exn_class e = AgentTextConnectionException ->
  forall cls h, In (cls, h) extra -> isinstance_exn e cls = false.
Proof.
  intros He cls h Hin. unfold isinstance_exn. rewrite He.
  destruct (Hextra_class cls h Hin) as [-> | ->]; reflexivity.
Qed.

Lemma attempt_reports :
  connection_failure w (fst (attempt w base c0 k pre extra)) ->
  reports_connection base (attempt w base c0 k pre extra).
Proof.
  intros (e & He & Hwhere).
  pose proof attempt_only_client as Honly. unfold all_events in Honly.
  rewrite Forall_forall in Honly.
  assert (Hcaught : find_handler e (extra ++ client_handlers base)
                    = Some (fail_with ("Connection error: " ++ exn_str e
                                       ++ ". Make sure the API server is running on "
                                       ++ base))).
  { rewrite (find_handler_skip e extra _ (connection_not_extra e He)).
    simpl. unfold isinstance_exn. rewrite He. reflexivity. }
  destruct Hwhere as [(b & tm & Hin & Hraise) | (c & Hin & Hraise)].
  - destruct (Honly _ Hin) as [-> ->].
    unfold attempt, AgentText, ask in *. rewrite Hraise. cbn [bind try_except].
    rewrite Hcaught. unfold reports_connection. simpl. split; [eauto |]. split.
    + apply in_or_app. left. apply in_or_app. right. left. reflexivity.
    + eexists. split; [apply in_or_app; right; left; reflexivity |].
      apply connection_message.
  - specialize (Honly _ Hin). simpl in Honly. subst c.
    destruct (w_construct w (Some base) (Some 30%Z)) as [[] | e1] eqn:Hc.
    + unfold attempt, AgentText, call, ask in *. rewrite Hc, Hraise.
      cbn [bind try_except]. rewrite Hcaught. unfold reports_connection. simpl.
      split; [eauto |]. split.
      * apply in_or_app. left. apply in_or_app. right. left. reflexivity.
      * eexists. split; [apply in_or_app; right; left; reflexivity |].
        apply connection_message.
    + exfalso.
      assert (Hnone : all_events not_a_call (attempt w base c0 k pre extra)).
      { unfold attempt, AgentText, ask. rewrite Hc.
        apply all_events_try; [| apply attempt_handlers, no_client_not_a_call].
        cbn [bind]. apply Forall_app. split.
        - eapply Forall_impl; [apply no_client_not_a_call | exact Hpre].
        - repeat constructor. }
      unfold all_events in Hnone. rewrite Forall_forall in Hnone.
      exact (Hnone _ Hin).
Qed.

End ClientTry.

Lemma bind_nil {A} (m : M A) : bind (([] : list event), Returns tt) (fun _ => m) = m.
Proof. destruct m as [t r]. reflexivity. Qed.

(** The same with no local step and no other handler. *)
Lemma client_try_reports w base c0 (k : pyvalue -> M unit) :
  (forall v, all_events no_client (k v)) ->
  connection_failure w
    (fst (try_except (AgentText w (Some base) (Some 30%Z) ;; v <- call w c0 ;; k v)
                     (client_handlers base))) ->
  reports_connection base
    (try_except (AgentText w (Some base) (Some 30%Z) ;; v <- call w c0 ;; k v)
                (client_handlers base)).
Proof.
  intros Hk.
  pose proof (attempt_reports w base c0 k [] [] Hk (Forall_nil _)
                ltac:(intros ? ? [])  ltac:(intros ? ? ? [])) as H.
  unfold attempt in H. rewrite bind_nil in H. exact H.
Qed.

Lemma no_client_no_failure {A} (w : world) (m : M A) :
  all_events no_client m -> ~ connection_failure w (fst m).
Proof.
  intros Hno (e & _ & [(b & tm & Hin & _) | (c & Hin & _)]);
    unfold all_events in Hno; rewrite Forall_forall in Hno;
    exact (Hno _ Hin).
Qed.

Lemma connection_failure_after w (pre t : list event) :
  Forall no_client pre ->
  connection_failure w (pre ++ t) -> connection_failure w t.
Proof.
  intros Hpre (e & He & Hwhere). rewrite Forall_forall in Hpre.
  exists e. split; [exact He |].
  destruct Hwhere as [(b & tm & Hin & Hr) | (c & Hin & Hr)];
    apply in_app_or in Hin; destruct Hin as [Hin | Hin];
    try (exfalso; exact (Hpre _ Hin)); eauto.
Qed.

Lemma reports_connection_after base (pre t : list event) (r : outcome unit) :
  reports_connection base (t, r) -> reports_connection base ((pre ++ t)%list, r).
Proof.
  intros (Hexit & Hc & err & Hp & Herr). split; [exact Hexit |]. simpl in *.
  split; [apply in_or_app; right; exact Hc |].
  exists err. split; [apply in_or_app; right; exact Hp | exact Herr].
Qed.

Ltac no_client_events := events; try exact I.

Lemma reports_get_messages w a :
  connection_failure w (fst (get_messages.main_with w a)) ->
  reports_connection (get_messages.base_url a) (get_messages.main_with w a).
Proof. apply client_try_reports. intros v. no_client_events. Qed.

Lemma reports_get_unread w a :
  connection_failure w (fst (get_unread.main_with w a)) ->
  reports_connection (get_unread.base_url a) (get_unread.main_with w a).
Proof. apply client_try_reports. intros v. no_client_events. Qed.

Lemma reports_list_chats w a :
  connection_failure w (fst (list_chats.main_with w a)) ->
  reports_connection (list_chats.base_url a) (list_chats.main_with w a).
Proof. apply client_try_reports. intros v. no_client_events. Qed.

Lemma reports_send_message w a :
  connection_failure w (fst (send_message.main_with w a)) ->
  reports_connection (send_message.base_url a) (send_message.main_with w a).
Proof.
  unfold send_message.main_with.
  destruct (send_message.files_given a);
    apply client_try_reports; intros v; no_client_events.
Qed.

Lemma reports_watcher w a :
  connection_failure w (fst (watcher.main_with w a)) ->
  reports_connection (watcher.base_url a) (watcher.main_with w a).
Proof.
  unfold watcher.main_with.
  destruct (String.eqb (watcher.action a) "start");
    [apply client_try_reports; intros v; no_client_events |].
  destruct (String.eqb (watcher.action a) "stop");
    [apply client_try_reports; intros v; no_client_events |].
  destruct (String.eqb (watcher.action a) "status");
    [apply client_try_reports; intros v; no_client_events |].
  unfold AgentText, ask. intros (e & He & Hwhere).
  destruct (w_construct w (Some (watcher.base_url a)) (Some 30%Z)) as [[] | e1] eqn:Hc.
  - exfalso. simpl in Hwhere.
    destruct Hwhere as [(b & tm & [Hin | []] & Hr) | (c & [Hin | []] & _)];
      [| discriminate Hin].
    injection Hin as <- <-. congruence.
  - assert (e1 = e).
    { destruct Hwhere as [(b & tm & Hin & Hr) | (c & Hin & _)].
      - assert (Hb : b = Some (watcher.base_url a) /\ tm = Some 30%Z).
        { cbn [bind try_except fst] in Hin.
          destruct (find_handler e1 _) as [[t' r'] |] eqn:Hf.
          - apply find_handler_In in Hf. destruct Hf as (cls & h & Hh & _ & Heq).
            apply in_app_or in Hin. destruct Hin as [[Hin | []] | Hin].
            + injection Hin as <- <-. auto.
            + exfalso.
              pose proof (all_events_client_handlers no_client _ cls h e1
                            ltac:(intros; exact I) Hh) as Hno.
              rewrite <- Heq in Hno. unfold all_events in Hno.
              rewrite Forall_forall in Hno. exact (Hno _ Hin).
          - destruct Hin as [Hin | []]. injection Hin as <- <-. auto. }
        destruct Hb as [-> ->]. congruence.
      - exfalso. cbn [bind try_except fst] in Hin.
        destruct (find_handler e1 _) as [[t' r'] |] eqn:Hf.
        + apply find_handler_In in Hf. destruct Hf as (cls & h & Hh & _ & Heq).
          apply in_app_or in Hin. destruct Hin as [[Hin | []] | Hin];
            [discriminate Hin |].
          pose proof (all_events_client_handlers no_client _ cls h e1
                        ltac:(intros; exact I) Hh) as Hno.
          rewrite <- Heq in Hno. unfold all_events in Hno.
          rewrite Forall_forall in Hno. exact (Hno _ Hin).
        + destruct Hin as [Hin | []]. discriminate Hin. }
    subst e1. cbn [bind try_except]. simpl find_handler. unfold isinstance_exn.
    rewrite He. unfold reports_connection. simpl. split; [eauto |].
    split; [auto |]. eexists. split; [right; left; reflexivity |].
    apply connection_message.
Qed.

Lemma reports_send_file w a :
  connection_failure w (fst (send_file.main_with w a)) ->
  reports_connection (send_file.base_url a) (send_file.main_with w a).
Proof.
  unfold send_file.main_with, ask.
  destruct (w_exists w (send_file.file_path a)).
  - rewrite bind_returns. cbn [negb]. unfold ret. rewrite bind_nil.
    cbn [fst snd]. intros Hconn. apply connection_failure_after in Hconn;
      [| repeat constructor].
    apply (reports_connection_after _ [PathExists (send_file.file_path a)]).
    rewrite <- surjective_pairing.
    revert Hconn. apply client_try_reports. intros v. no_client_events.
  - cbn [bind negb]. intros Hconn. exfalso. revert Hconn.
    apply no_client_no_failure. repeat constructor.
Qed.

Lemma reports_batch_send w a :
  connection_failure w (fst (batch_send.main_with w a)) ->
  reports_connection (batch_send.base_url a) (batch_send.main_with w a).
Proof.
  unfold batch_send.main_with, ask.
  destruct (w_load w (batch_send.json_file a)) as [messages | e] eqn:Hload.
  - destruct messages as [| | | | | msgs | | |];
      try solve [intros Hconn; exfalso; revert Hconn; apply no_client_no_failure;
                 repeat constructor].
    apply (attempt_reports w (batch_send.base_url a) (messages_send_batch msgs)
             (fun results =>
                print_json
                  (py_dict [("success", PBool true);
                            ("message",
                             PStr ("Sent " ++ PyStr.of_nat (length msgs) ++ " messages"));
                            ("results", if is_list results then results else PList [])])
                  (Some 2%nat) false)
             [LoadJson (batch_send.json_file a)]
             [(exc_FileNotFoundError,
               fun _ => fail_with ("File not found: " ++ batch_send.json_file a));
              (exc_JSONDecodeError,
               fun e => fail_with ("Invalid JSON: " ++ exn_str e))]).
    + intros v. no_client_events.
    + repeat constructor.
    + intros cls h [[= <- _] | [[= <- _] | []]]; auto.
    + intros cls h e [[= _ <-] | [[= _ <-] | []]];
        apply all_events_fail_with; intros; exact I.
  - intros Hconn. exfalso. revert Hconn. apply no_client_no_failure.
    apply all_events_try; [repeat constructor |].
    intros cls h e' [[= <- <-] | [[= <- <-] | Hin]].
    + apply all_events_fail_with. intros; exact I.
    + apply all_events_fail_with. intros; exact I.
    + revert Hin. apply all_events_client_handlers. intros; exact I.
Qed.

Lemma reports_of_run {A} hint (p : ArgumentParser A) body (get : A -> string)
      w argv m :
  (forall a, connection_failure w (fst (body w a)) ->
             reports_connection (get a) (body w a)) ->
  guarded hint (parse_then p body) w argv = Some m ->
  connection_failure w (fst m) ->
  exists u, reports_connection u m.
Proof.
  intros Hbody Hm Hconn. apply guarded_parse_then_inv in Hm.
  destruct Hm as [(a & _ & _ & ->) | Hno].
  - exists (get a). simpl in Hconn.
    apply (connection_failure_after w [Import; ParseArgs argv]) in Hconn;
      [| repeat constructor].
    apply (reports_connection_after _ [Import; ParseArgs argv]).
    rewrite <- surjective_pairing. apply Hbody, Hconn.
  - exfalso. exact (no_client_no_failure w m Hno Hconn).
Qed.

(** C3, as stated, fails for the two scripts that only catch [Exception]:
    the server is down, [watcher.start] raises the connection exception
    with the text "Connection refused", and the failure envelope of
    [watch messages] carries that text alone, without the base URL
    [http://localhost:3000] the client was constructed with. *)
Lemma connection_error_without_base_url :
  w_call server_down watcher_start_callback
  = Raises (Exn AgentTextConnectionException "Connection refused")
  /\ run WatchMessages server_down [] 0
     = Some ([Import; Construct (Some "http://localhost:3000") None;
              Print (py_dict [("success", PBool true);
                              ("message", PStr "Starting message watcher...")])
                    None true;
              Call watcher_start_callback;
              Print (py_dict [("success", PBool false);
                              ("error", PStr "Connection refused")])
                    None true],
             Exited 1)
  /\ PyStr.contains "http://localhost:3000" "Connection refused" = false.
Proof. split; [reflexivity |]. split; reflexivity. Qed.

Lemma reports_main_after_parse w ns :
  connection_failure w (fst (main_after_parse w ns)) ->
  reports_connection (base_url_of ns) (main_after_parse w ns).
Proof.
  destruct ns; simpl;
    [ apply reports_batch_send | apply reports_get_messages
    | apply reports_get_unread | apply reports_list_chats
    | apply reports_send_file | apply reports_send_message
    | apply reports_watcher ].
Qed.

(** C3, amended.  For the seven commands that take [--base-url]: whenever
    the client, in its constructor or in the method called, raises the
    connection exception, the process prints a failure envelope whose error
    contains the base URL the client was constructed with, and exits with
    code 1.  This holds of every run, and of the rest of [main] from any
    namespace, where the base URL is [args.base_url]. *)
Theorem connection_error_names_base_url :
  (forall c w argv fuel t st,
      has_parser c = true ->
      run c w argv fuel = Some (t, st) ->
      connection_failure w t ->
      st = Exited 1
      /\ exists u err,
          In (Construct (Some u) (Some 30%Z)) t
          /\ In (Print (py_dict [("success", PBool false); ("error", PStr err)])
                       None false) t
          /\ PyStr.contains u err = true)
  /\
  (forall w ns t st,
      run_process (main_after_parse w ns) = (t, st) ->
      connection_failure w t ->
      st = Exited 1
      /\ exists err,
          In (Construct (Some (base_url_of ns)) (Some 30%Z)) t
          /\ In (Print (py_dict [("success", PBool false); ("error", PStr err)])
                       None false) t
          /\ PyStr.contains (base_url_of ns) err = true).
Proof.
  split.
  - intros c w argv fuel t st Hc Hrun Hconn. unfold run in Hrun.
    assert (Hrep : exists m u, run_process m = (t, st) /\ reports_connection u m).
    { destruct c; try discriminate Hc;
        match type of Hrun with
        | option_map _ ?script = _ =>
            destruct script as [m |] eqn:Hm; [| discriminate Hrun]
        end;
        simpl in Hrun; injection Hrun as Hrun;
        assert (Ht : t = fst m)
          by (rewrite <- (run_process_trace m), Hrun; reflexivity);
        rewrite Ht in Hconn; exists m.
      - destruct (reports_of_run _ _ _ batch_send.base_url _ _ _
                    (reports_batch_send w) Hm Hconn) as [u Hu]; eauto.
      - destruct (reports_of_run _ _ _ get_messages.base_url _ _ _
                    (reports_get_messages w) Hm Hconn) as [u Hu]; eauto.
      - destruct (reports_of_run _ _ _ get_unread.base_url _ _ _
                    (reports_get_unread w) Hm Hconn) as [u Hu]; eauto.
      - destruct (reports_of_run _ _ _ list_chats.base_url _ _ _
                    (reports_list_chats w) Hm Hconn) as [u Hu]; eauto.
      - destruct (reports_of_run _ _ _ send_file.base_url _ _ _
                    (reports_send_file w) Hm Hconn) as [u Hu]; eauto.
      - destruct (reports_of_run _ _ _ send_message.base_url _ _ _
                    (reports_send_message w) Hm Hconn) as [u Hu]; eauto.
      - destruct (reports_of_run _ _ _ watcher.base_url _ _ _
                    (reports_watcher w) Hm Hconn) as [u Hu]; eauto. }
    destruct Hrep as (m & u & Hproc & [s Hexit] & Hcons & err & Hprint & Herr).
    destruct m as [t' r]. simpl in *. subst r. simpl in Hproc.
    injection Hproc as <- <-. split; [reflexivity |]. eauto.
  - intros w ns t st Hproc Hconn.
    assert (Ht : t = fst (main_after_parse w ns))
      by (rewrite <- run_process_trace, Hproc; reflexivity).
    rewrite Ht in Hconn. apply reports_main_after_parse in Hconn.
    destruct Hconn as ([s Hexit] & Hcons & err & Hprint & Herr).
    destruct (main_after_parse w ns) as [t' r]. simpl in *. subst r t'.
    simpl in Hproc. injection Hproc as <-. split; [reflexivity |]. eauto.
Qed.

Lemma connection_error_names_base_url_witness :
  (exists t st,
      run SendMessage server_down
          ["+1234567890"; "Hello!"; "--base-url"; "http://10.0.0.7:8080"] 0
      = Some (t, st)
      /\ connection_failure server_down t
      /\ st = Exited 1
      /\ exists u err,
          In (Construct (Some u) (Some 30%Z)) t
          /\ In (Print (py_dict [("success", PBool false); ("error", PStr err)])
                       None false) t
          /\ PyStr.contains u err = true)
  /\
  (exists t st,
      run_process (main_after_parse server_down
                     (get_unread_args (get_unread.Args "http://10.0.0.7:8080")))
      = (t, st)
      /\ connection_failure server_down t
      /\ st = Exited 1
      /\ exists err,
          In (Construct (Some "http://10.0.0.7:8080") (Some 30%Z)) t
          /\ In (Print (py_dict [("success", PBool false); ("error", PStr err)])
                       None false) t
          /\ PyStr.contains "http://10.0.0.7:8080" err = true).
Proof.
  split.
  - eexists. eexists. split; [reflexivity |].
    assert (Hconn : connection_failure server_down
              [Import;
               ParseArgs ["+1234567890"; "Hello!"; "--base-url"; "http://10.0.0.7:8080"];
               Construct (Some "http://10.0.0.7:8080") (Some 30%Z);
               Call (messages_send "+1234567890" "Hello!");
               Print (py_dict [("success", PBool false);
                               ("error",
                                PStr ("Connection error: Connection refused"
                                      ++ ". Make sure the API server is running on "
                                      ++ "http://10.0.0.7:8080"))])
                     None false]).
    { exists (Exn AgentTextConnectionException "Connection refused").
      split; [reflexivity |]. right.
      exists (messages_send "+1234567890" "Hello!").
      split; [simpl; auto | reflexivity]. }
    split; [exact Hconn |].
    apply (proj1 connection_error_names_base_url SendMessage server_down
             ["+1234567890"; "Hello!"; "--base-url"; "http://10.0.0.7:8080"] 0%nat);
      [reflexivity | reflexivity | exact Hconn].
  - eexists. eexists. split; [reflexivity |].
    assert (Hconn : connection_failure server_down
              [Construct (Some "http://10.0.0.7:8080") (Some 30%Z);
               Call messages_get_unread;
               Print (py_dict [("success", PBool false);
                               ("error",
                                PStr ("Connection error: Connection refused"
                                      ++ ". Make sure the API server is running on "
                                      ++ "http://10.0.0.7:8080"))])
                     None false]).
    { exists (Exn AgentTextConnectionException "Connection refused").
      split; [reflexivity |]. right.
      exists messages_get_unread. split; [simpl; auto | reflexivity]. }
    split; [exact Hconn |].
    apply (proj2 connection_error_names_base_url server_down
             (get_unread_args (get_unread.Args "http://10.0.0.7:8080")));
      [reflexivity | exact Hconn].
Defined.

(** ** Sample runs *)

(** [--help] is answered by [argparse] itself: help text and exit code 0,
    also when an earlier word was not wanted. *)
Example help_exits_zero :
  run SendFile (calm PNone) ["a"; "b"; "c"; "--help"] 0
  = Some ([Import; ParseArgs ["a"; "b"; "c"; "--help"]; HelpMessage], Exited 0).
Proof. reflexivity. Qed.

(** A missing positional, a value outside [choices], a word that is not an
    integer: usage error, exit code 2, nothing on standard output. *)
Example usage_errors_exit_two :
  run SendFile (calm PNone) ["+1234567890"] 0
  = Some ([Import; ParseArgs ["+1234567890"]; UsageMessage], Exited 2)
  /\ run Watcher (calm PNone) ["restart"] 0
     = Some ([Import; ParseArgs ["restart"]; UsageMessage], Exited 2)
  /\ run ListChats (calm PNone) ["--limit"; "ten"] 0
     = Some ([Import; ParseArgs ["--limit"; "ten"]; UsageMessage], Exited 2).
Proof. repeat split; reflexivity. Qed.

(** An abbreviated option is outside the model of [argparse]. *)
Example abbreviation_is_not_modelled :
  run GetUnread (calm PNone) ["--base"; "http://10.0.0.7:8080"] 0 = None.
Proof. reflexivity. Qed.

(** The filters of [get messages], in the order the script adds them. *)
Example get_messages_filters :
  run GetMessages (calm (PList [])) ["--limit"; "25"; "--unread-only"; "--sender"; "bob"] 0
  = Some ([Import;
           ParseArgs ["--limit"; "25"; "--unread-only"; "--sender"; "bob"];
           Construct (Some "http://localhost:3000") (Some 30%Z);
           Call (messages_list [("limit", PInt 25); ("sender", PStr "bob");
                                ("unreadOnly", PBool true)]);
           Print (py_dict [("success", PBool true); ("messages", PList []);
                           ("count", PInt 0)])
                 (Some 2%nat) false],
          Exited 0).
Proof. reflexivity. Qed.

(** A reply that [json.dumps] cannot write ends in the catch-all handler. *)
Example unserialisable_reply :
  run GetUnread (calm (PObject "Message" "hello" "<Message 1>")) [] 0
  = Some ([Import; ParseArgs [];
           Construct (Some "http://localhost:3000") (Some 30%Z);
           Call messages_get_unread;
           Print (py_dict [("success", PBool false);
                           ("error",
                            PStr "Object of type Message is not JSON serializable")])
                 None false],
          Exited 1).
Proof. reflexivity. Qed.

(** Without an interrupt the legacy watcher is still sleeping, however many
    iterations it is given. *)
Example watcher_keeps_running :
  run WatchMessages (calm PNone) [] 50 = None.
Proof. reflexivity. Qed.

(** The messages handed to the callback are printed one per line, between
    the sleeps. *)
Example watcher_prints_events :
  run WatchMessages interrupted [] 3
  = Some ([Import; Construct (Some "http://localhost:3000") None;
           Print (py_dict [("success", PBool true);
                           ("message", PStr "Starting message watcher...")])
                 None true;
           Call watcher_start_callback;
           Sleep;
           Print (py_dict [("event", PStr "message");
                           ("data", py_dict [("text", PStr "hi")])])
                 None true;
           Sleep; Sleep;
           watcher_stopped],
          Exited 0).
Proof. reflexivity. Qed.

(** * Further properties of the scripts *)

(** ** The ways a run of a script with a parser can go *)

Lemma run_process_after (pre : list event) (m : M unit) :
  run_process ((pre ++ fst m)%list, snd m)
  = ((pre ++ fst (run_process m))%list, snd (run_process m)).
Proof. destruct m as [t [[] | e]]; simpl; [| destruct (exn_class e)]; reflexivity. Qed.

(** Import failure, then what the parser answers, then the rest of
    [main]. *)
Lemma run_cases c w argv fuel t st :
  has_parser c = true ->
  run c w argv fuel = Some (t, st) ->
  match w_import w with
  | Raises e =>
      match exn_class e with
      | ImportError =>
          t = [Import;
               Print (failure_doc ("AgentText package not installed. Run: "
                                   ++ install_editable)) None false]
          /\ st = Exited 1
      | SystemExit code => t = [Import] /\ st = Exited code
      | _ => t = [Import] /\ st = Traceback e
      end
  | Returns _ =>
      exists r,
        parse_command c argv = Some r
        /\ match r with
           | Parsed ns =>
               t = (Import :: ParseArgs argv :: fst (run_process (main_after_parse w ns)))%list
               /\ st = snd (run_process (main_after_parse w ns))
           | HelpExit => t = [Import; ParseArgs argv; HelpMessage] /\ st = Exited 0
           | UsageError => t = [Import; ParseArgs argv; UsageMessage] /\ st = Exited 2
           end
  end.
Proof.
  intros Hc Hrun. unfold run in Hrun.
  destruct c; try discriminate Hc;
    unfold batch_send.script, get_messages.script, get_unread.script,
      list_chats.script, send_file.script, send_message.script, watcher.script,
      batch_send.main, get_messages.main, get_unread.main, list_chats.main,
      send_file.main, send_message.main, watcher.main,
      guarded, import_guard, ask, parse_then, parse_command in *;
    (destruct (w_import w) as [[] | [cls msg]];
     [ match type of Hrun with
       | context [parse_args ?p argv] =>
           destruct (parse_args p argv) as [[a | |] |]
       end;
       simpl in Hrun; try discriminate Hrun;
       [ eexists; split; [reflexivity |]; simpl;
         match type of Hrun with
         | context [?mw w ?x] => destruct (mw w x) as [t' [[] | e]] eqn:Hm
         end;
         simpl in Hrun |- *; [| destruct (exn_class e)];
         injection Hrun as <- <-; split; reflexivity
       | eexists; split; [reflexivity |]; injection Hrun as <- <-; split; reflexivity
       | eexists; split; [reflexivity |]; injection Hrun as <- <-; split; reflexivity ]
     | destruct cls; simpl in Hrun |- *; injection Hrun as <- <-; split; reflexivity ]).
Qed.

(** ** One envelope per run *)

Lemma answers_after (pre : list event) (m : M unit) :
  silent pre -> answers m -> answers ((pre ++ fst m)%list, snd m).
Proof.
  intros Hpre [Hs | (t & doc & i & f & Heq & Ht & Hend)].
  - left. apply Forall_app. split; assumption.
  - right. exists (pre ++ t)%list, doc, i, f. simpl. rewrite Heq, app_assoc.
    split; [reflexivity |]. split; [apply Forall_app; split; assumption | exact Hend].
Qed.

Lemma answers_bind {A} (m : M A) (k : A -> M unit) :
  silent (fst m) -> (forall a, answers (k a)) -> answers (bind m k).
Proof.
  destruct m as [t [a | e]]; intros Hm Hk.
  - rewrite bind_returns. apply answers_after; [exact Hm | apply Hk].
  - left. exact Hm.
Qed.

Lemma answers_try (body : M unit) handlers :
  answers body ->
  (forall cls h e, In (cls, h) handlers -> answers (h e)) ->
  answers (try_except body handlers).
Proof.
  destruct body as [t [a | e]]; intros Hb Hh; simpl; [exact Hb |].
  destruct Hb as [Hs | (t0 & doc & i & f & Heq & Ht & Hend)].
  - destruct (find_handler e handlers) as [[t' r] |] eqn:Hf; [| left; exact Hs].
    apply find_handler_In in Hf. destruct Hf as (cls & h & Hin & _ & Heq).
    specialize (Hh cls h e Hin). rewrite <- Heq in Hh.
    exact (answers_after t (t', r) Hs Hh).
  - simpl in *. destruct Hend as [[_ Hr] | [Hd [s Hr]]]; [discriminate Hr |].
    injection Hr as ->. rewrite system_exit_not_caught.
    right. exists t0, doc, i, f. simpl. eauto 10.
Qed.

Lemma answers_print_success doc indent flush :
  success_is true doc -> answers (print_json doc indent flush).
Proof.
  intros Hd. unfold print_json. destruct (json_error doc).
  - left. constructor.
  - right. exists [], doc, indent, flush. simpl.
    split; [reflexivity |]. split; [constructor | auto].
Qed.

Lemma answers_fail_with msg : answers (fail_with msg).
Proof.
  right. exists [], (failure_doc msg), None, false. simpl.
  split; [reflexivity |]. split; [constructor |]. right.
  split; [reflexivity | eauto].
Qed.

Lemma answers_client_handlers base cls h e :
  In (cls, h) (client_handlers base) -> answers (h e).
Proof.
  simpl. intros [[= <- <-] | [[= <- <-] | [[= <- <-] | []]]]; apply answers_fail_with.
Qed.

(** The client is built and called, then the success envelope made from
    the reply is printed. *)
Ltac answers_body :=
  unfold AgentText, call;
  repeat first
    [ apply answers_print_success; reflexivity
    | apply answers_bind; [repeat constructor | intro]
    | match goal with
      | |- answers (match ?x with _ => _ end) => destruct x
      end ].

Lemma answers_main_after_parse w ns : answers (main_after_parse w ns).
Proof.
  destruct ns as [a | a | a | a | a | a | a]; simpl.
  - apply answers_try.
    + apply answers_bind; [repeat constructor |]. intros messages.
      destruct messages;
        try (right; exists [], (failure_doc "JSON file must contain an array of messages"),
                     None, false; simpl;
             split; [reflexivity |]; split; [constructor |]; right;
             split; [reflexivity | eauto]).
      answers_body.
    + intros cls h e [[= <- <-] | [[= <- <-] | Hin]];
        try apply answers_fail_with.
      exact (answers_client_handlers _ _ _ _ Hin).
  - apply answers_try; [answers_body | apply answers_client_handlers].
  - apply answers_try; [answers_body | apply answers_client_handlers].
  - apply answers_try; [answers_body | apply answers_client_handlers].
  - unfold send_file.main_with. apply answers_bind; [repeat constructor |].
    intros found. destruct found; cbn [negb].
    + unfold ret. rewrite bind_nil.
      apply answers_try; [answers_body | apply answers_client_handlers].
    + right. exists [], (failure_doc ("File not found: " ++ send_file.file_path a)),
               None, false. simpl.
      split; [reflexivity |]. split; [constructor |]. right.
      split; [reflexivity | eauto].
  - apply answers_try; [| apply answers_client_handlers].
    unfold send_message.main_with.
    destruct (send_message.files_given a); answers_body.
  - apply answers_try; [| apply answers_client_handlers].
    answers_body. left. constructor.
Qed.

Lemma answers_simple_test w : answers (simple_test.main w).
Proof.
  apply answers_try; [answers_body |].
  simpl. intros cls h e [[= <- <-] | []]. apply answers_fail_with.
Qed.

Lemma silent_not_printed t doc indent flush :
  silent t -> ~ In (Print doc indent flush) t.
Proof.
  intros Hs Hin. unfold silent in Hs. rewrite Forall_forall in Hs.
  specialize (Hs _ Hin). discriminate Hs.
Qed.

(** From [answers] to what a run shows. *)
Lemma answers_run (pre : list event) (m : M unit) doc indent flush :
  silent pre ->
  answers m ->
  In (Print doc indent flush) (pre ++ fst (run_process m)) ->
  exists t0,
    (pre ++ fst (run_process m))%list = (t0 ++ [Print doc indent flush])%list
    /\ silent t0
    /\ ((success_is true doc /\ snd (run_process m) = Exited 0)
        \/ (success_is false doc /\ snd (run_process m) = Exited 1)).
Proof.
  intros Hpre Hm Hin. rewrite run_process_trace in *.
  destruct Hm as [Hs | (t & d & i & f & Heq & Ht & Hend)].
  - exfalso. apply in_app_or in Hin.
    destruct Hin as [Hin | Hin];
      [ exact (silent_not_printed _ _ _ _ Hpre Hin)
      | exact (silent_not_printed _ _ _ _ Hs Hin) ].
  - rewrite Heq in Hin |- *. rewrite app_assoc in Hin |- *.
    apply in_app_or in Hin. destruct Hin as [Hin | [Hin | []]].
    + exfalso. apply in_app_or in Hin.
      destruct Hin as [Hin | Hin];
        [ exact (silent_not_printed _ _ _ _ Hpre Hin)
        | exact (silent_not_printed _ _ _ _ Ht Hin) ].
    + injection Hin as -> -> ->. exists (pre ++ t)%list.
      split; [reflexivity |]. split; [apply Forall_app; split; assumption |].
      destruct m as [tm r]. simpl in *.
      destruct Hend as [[Hd ->] | [Hd [s ->]]]; simpl; auto.
Qed.

Lemma simple_test_cases w argv fuel t st :
  run SimpleTest w argv fuel = Some (t, st) ->
  match w_import w with
  | Raises e =>
      match exn_class e with
      | ImportError =>
          t = [Import;
               Print (failure_doc ("AgentText package not installed. Run: "
                                   ++ install_editable)) None false]
          /\ st = Exited 1
      | SystemExit code => t = [Import] /\ st = Exited code
      | _ => t = [Import] /\ st = Traceback e
      end
  | Returns _ =>
      t = (Import :: fst (run_process (simple_test.main w)))%list
      /\ st = snd (run_process (simple_test.main w))
  end.
Proof.
  unfold run, simple_test.script, guarded, import_guard, ask.
  destruct (w_import w) as [[] | [cls msg]].
  - simpl. destruct (simple_test.main w) as [t' [[] | e]]; simpl;
      [| destruct (exn_class e)]; intros [= <- <-]; split; reflexivity.
  - destruct cls; simpl; intros [= <- <-]; split; reflexivity.
Qed.

Lemma import_failure_answers (t : list event) (st : status) (e : exn)
      doc indent flush :
  match exn_class e with
  | ImportError =>
      t = [Import;
           Print (failure_doc ("AgentText package not installed. Run: "
                               ++ install_editable)) None false]
      /\ st = Exited 1
  | SystemExit code => t = [Import] /\ st = Exited code
  | _ => t = [Import] /\ st = Traceback e
  end ->
  In (Print doc indent flush) t ->
  exists t0,
    t = (t0 ++ [Print doc indent flush])%list
    /\ silent t0
    /\ ((success_is true doc /\ st = Exited 0)
        \/ (success_is false doc /\ st = Exited 1)).
Proof.
  intros H Hin.
  destruct (exn_class e); destruct H as [-> ->]; in_trace Hin.
  injection Hin as <- <- <-. exists [Import].
  split; [reflexivity |]. split; [repeat constructor |].
  right. split; reflexivity.
Qed.

(** X1.  In the eight scripts that answer once (all but the legacy
    watcher), a run prints at most one document, as its very last action,
    and the [success] flag of that document agrees with the exit code:
    [true] with 0, [false] with 1.  The legacy watcher is different: its
    start line carries [success = true] even when the run then fails with
    exit code 1. *)
Theorem one_envelope_per_run :
  (forall c w argv fuel t st doc indent flush,
      c <> WatchMessages ->
      run c w argv fuel = Some (t, st) ->
      In (Print doc indent flush) t ->
      exists t0,
        t = (t0 ++ [Print doc indent flush])%list
        /\ silent t0
        /\ ((success_is true doc /\ st = Exited 0)
            \/ (success_is false doc /\ st = Exited 1)))
  /\
  (exists t doc indent flush,
      run WatchMessages server_down [] 0 = Some (t, Exited 1)
      /\ In (Print doc indent flush) t
      /\ success_is true doc).
Proof.
  split.
  - intros c w argv fuel t st doc indent flush Hc Hrun Hin.
    destruct (has_parser c) eqn:Hp.
    + pose proof (run_cases c w argv fuel t st Hp Hrun) as Hcases.
      destruct (w_import w) as [[] | e].
      * destruct Hcases as (r & _ & Hr). destruct r as [ns | |].
        -- destruct Hr as [-> ->].
           apply (answers_run [Import; ParseArgs argv] (main_after_parse w ns));
             [repeat constructor | apply answers_main_after_parse | exact Hin].
        -- destruct Hr as [-> ->]. in_trace Hin.
        -- destruct Hr as [-> ->]. in_trace Hin.
      * exact (import_failure_answers t st e doc indent flush Hcases Hin).
    + destruct c; try discriminate Hp; [contradiction |].
      pose proof (simple_test_cases w argv fuel t st Hrun) as Hcases.
      destruct (w_import w) as [[] | e].
      * destruct Hcases as [-> ->].
        apply (answers_run [Import] (simple_test.main w));
          [repeat constructor | apply answers_simple_test | exact Hin].
      * exact (import_failure_answers t st e doc indent flush Hcases Hin).
  - eexists. eexists. eexists. eexists. split; [reflexivity |].
    split; [right; right; left; reflexivity | reflexivity].
Qed.

Lemma one_envelope_per_run_witness :
  exists t0,
    [Import; ParseArgs ["status"];
     Construct (Some "http://localhost:3000") (Some 30%Z);
     Call watcher_status;
     Print (failure_doc ("Connection error: Connection refused"
                         ++ ". Make sure the API server is running on "
                         ++ "http://localhost:3000")) None false]
    = (t0 ++ [Print (failure_doc ("Connection error: Connection refused"
                                  ++ ". Make sure the API server is running on "
                                  ++ "http://localhost:3000")) None false])%list
    /\ silent t0
    /\ ((success_is true
           (failure_doc ("Connection error: Connection refused"
                         ++ ". Make sure the API server is running on "
                         ++ "http://localhost:3000"))
         /\ Exited 1 = Exited 0)
        \/ (success_is false
              (failure_doc ("Connection error: Connection refused"
                            ++ ". Make sure the API server is running on "
                            ++ "http://localhost:3000"))
            /\ Exited 1 = Exited 1)).
Proof.
  apply (proj1 one_envelope_per_run Watcher server_down ["status"] 0%nat).
  - discriminate.
  - reflexivity.
  - simpl. auto 10.
Defined.

(** ** One client, one call *)

Lemma how_many_app f (t t' : list event) :
  how_many f (t ++ t') = (how_many f t + how_many f t')%nat.
Proof. unfold how_many. rewrite filter_app, length_app. reflexivity. Qed.

Lemma how_many_free f (t : list event) :
  Forall (fun ev => f ev = false) t -> how_many f t = 0%nat.
Proof.
  unfold how_many. induction 1 as [| ev t Hev _ IH]; simpl; [reflexivity |].
  rewrite Hev. exact IH.
Qed.

Section AtMost.

Variable f : event -> bool.

Lemma at_most_free {A} n (m : M A) : free f m -> at_most f n m.
Proof. intros H. unfold at_most. rewrite (how_many_free f _ H). lia. Qed.

Lemma at_most_bind_free {A B} n (m : M A) (k : A -> M B) :
  free f m -> (forall a, at_most f n (k a)) -> at_most f n (bind m k).
Proof.
  destruct m as [t [a | e]]; intros Hm Hk; unfold at_most in *.
  - rewrite bind_returns. cbn [fst]. rewrite how_many_app, (how_many_free f t Hm).
    apply Hk.
  - simpl. rewrite (how_many_free f t Hm). lia.
Qed.

Lemma at_most_ask_then {A B} ev (reply : outcome A) (k : A -> M B) :
  (forall a, free f (k a)) -> at_most f 1 (bind (ask ev reply) k).
Proof.
  intros Hk. unfold ask, at_most. destruct reply as [a | e].
  - rewrite bind_returns. cbn [fst]. rewrite how_many_app, (how_many_free f _ (Hk a)).
    unfold how_many. simpl. destruct (f ev); simpl; lia.
  - unfold how_many. simpl. destruct (f ev); simpl; lia.
Qed.

Lemma at_most_try {A} n (body : M A) handlers :
  at_most f n body ->
  (forall cls h e, In (cls, h) handlers -> free f (h e)) ->
  at_most f n (try_except body handlers).
Proof.
  destruct body as [t [a | e]]; intros Hb Hh; simpl; [exact Hb |].
  destruct (find_handler e handlers) as [[t' r] |] eqn:Hf; [| exact Hb].
  apply find_handler_In in Hf. destruct Hf as (cls & h & Hin & _ & Heq).
  specialize (Hh cls h e Hin). rewrite <- Heq in Hh.
  unfold at_most in *. simpl in *. rewrite how_many_app, (how_many_free f t' Hh). lia.
Qed.

Lemma at_most_bind_opt {A B} n (m : M A) (k : A -> option (M B)) r :
  at_most f n m ->
  (forall a m', k a = Some m' -> free f m') ->
  bind_opt m k = Some r -> at_most f n r.
Proof.
  destruct m as [t [a | e]]; simpl; intros Hm Hk.
  - destruct (k a) as [[t' r'] |] eqn:Hka; [| discriminate].
    intros [= <-]. unfold at_most in *. simpl in *.
    rewrite how_many_app, (how_many_free f t' (Hk a _ Hka)). lia.
  - intros [= <-]. exact Hm.
Qed.

Lemma free_fail_with msg : f (Print (failure_doc msg) None false) = false ->
  free f (fail_with msg).
Proof. intros H. repeat constructor. exact H. Qed.

End AtMost.

Lemma free_client_handlers f base cls h e :
  (forall doc indent flush, f (Print doc indent flush) = false) ->
  In (cls, h) (client_handlers base) -> free f (h e).
Proof.
  intros Hf. apply all_events_client_handlers. intros. apply Hf.
Qed.

Ltac free_events := unfold free; events.

Lemma at_most_main_after_parse w ns :
  at_most is_construct 1 (main_after_parse w ns)
  /\ at_most is_call 1 (main_after_parse w ns).
Proof.
  assert (Hh : forall f base,
             (forall doc indent flush, f (Print doc indent flush) = false) ->
             forall cls h e, In (cls, h) (client_handlers base) -> free f (h e)).
  { intros f base Hf cls h e. apply free_client_handlers, Hf. }
  destruct ns as [a | a | a | a | a | a | a]; simpl; split.
  - apply at_most_try.
    + apply at_most_bind_free; [free_events |]. intros messages.
      destruct messages; try solve [apply at_most_free; free_events].
      unfold AgentText. apply at_most_ask_then. intros _. free_events.
    + intros cls h e [[= <- <-] | [[= <- <-] | Hin]];
        [apply free_fail_with; reflexivity | apply free_fail_with; reflexivity |].
      revert Hin. apply Hh. reflexivity.
  - apply at_most_try.
    + apply at_most_bind_free; [free_events |]. intros messages.
      destruct messages; try solve [apply at_most_free; free_events].
      apply at_most_bind_free; [free_events |]. intros _.
      unfold call. apply at_most_ask_then. intros results. free_events.
    + intros cls h e [[= <- <-] | [[= <- <-] | Hin]];
        [apply free_fail_with; reflexivity | apply free_fail_with; reflexivity |].
      revert Hin. apply Hh. reflexivity.
  - apply at_most_try; [| apply Hh; reflexivity].
    unfold AgentText. apply at_most_ask_then. intros _. free_events.
  - apply at_most_try; [| apply Hh; reflexivity].
    apply at_most_bind_free; [free_events |]. intros _.
    unfold call. apply at_most_ask_then. intros v. free_events.
  - apply at_most_try; [| apply Hh; reflexivity].
    unfold AgentText. apply at_most_ask_then. intros _. free_events.
  - apply at_most_try; [| apply Hh; reflexivity].
    apply at_most_bind_free; [free_events |]. intros _.
    unfold call. apply at_most_ask_then. intros v. free_events.
  - apply at_most_try; [| apply Hh; reflexivity].
    unfold AgentText. apply at_most_ask_then. intros _. free_events.
  - apply at_most_try; [| apply Hh; reflexivity].
    apply at_most_bind_free; [free_events |]. intros _.
    unfold call. apply at_most_ask_then. intros v. free_events.
  - unfold send_file.main_with.
    apply at_most_bind_free; [free_events |]. intros found.
    apply at_most_bind_free; [destruct found; free_events |]. intros _.
    apply at_most_try; [| apply Hh; reflexivity].
    unfold AgentText. apply at_most_ask_then. intros _. free_events.
  - unfold send_file.main_with.
    apply at_most_bind_free; [free_events |]. intros found.
    apply at_most_bind_free; [destruct found; free_events |]. intros _.
    apply at_most_try; [| apply Hh; reflexivity].
    apply at_most_bind_free; [free_events |]. intros _.
    unfold call. apply at_most_ask_then. intros v. free_events.
  - apply at_most_try; [| apply Hh; reflexivity].
    unfold AgentText. apply at_most_ask_then. intros _.
    unfold send_message.main_with. destruct (send_message.files_given a); free_events.
  - apply at_most_try; [| apply Hh; reflexivity].
    apply at_most_bind_free; [free_events |]. intros _.
    unfold send_message.main_with, call.
    destruct (send_message.files_given a);
      apply at_most_ask_then; intros v; free_events.
  - apply at_most_try; [| apply Hh; reflexivity].
    unfold AgentText. apply at_most_ask_then. intros _. free_events.
  - apply at_most_try; [| apply Hh; reflexivity].
    apply at_most_bind_free; [free_events |]. intros _. unfold call.
    repeat match goal with
           | |- at_most _ _ (if ?b then _ else _) => destruct b
           end;
      try solve [apply at_most_ask_then; intros v; free_events].
    apply at_most_free. free_events.
Qed.

Lemma at_most_simple_test w :
  at_most is_construct 1 (simple_test.main w)
  /\ at_most is_call 1 (simple_test.main w).
Proof.
  assert (Hh : forall f,
             (forall doc indent flush, f (Print doc indent flush) = false) ->
             forall cls h e,
               In (cls, h) [(exc_Exception, fun e : exn => fail_with (exn_str e))] ->
               free f (h e)).
  { intros f Hf cls h e [[= <- <-] | []]. apply free_fail_with, Hf. }
  split; (apply at_most_try; [| apply Hh; reflexivity]).
  - unfold AgentText. apply at_most_ask_then. intros _. free_events.
  - apply at_most_bind_free; [free_events |]. intros _.
    unfold call. apply at_most_ask_then. intros v. free_events.
Qed.

Lemma free_on_message f m :
  (forall doc indent flush, f (Print doc indent flush) = false) ->
  free f (watch_messages.on_message m).
Proof. intros Hf. unfold watch_messages.on_message. free_events. apply Hf. Qed.

Lemma at_most_watch_messages w fuel m :
  watch_messages.main w fuel = Some m ->
  at_most is_construct 1 m /\ at_most is_call 1 m.
Proof.
  unfold watch_messages.main.
  destruct (bind_opt _ _) as [body |] eqn:Hbody; simpl; [| discriminate].
  intros [= <-].
  assert (Hh : forall f,
             (forall doc indent flush, f (Print doc indent flush) = false) ->
             forall cls h e, In (cls, h) watch_messages.handlers -> free f (h e)).
  { intros f Hf cls h e [[= <- <-] | [[= <- <-] | []]];
      unfold sys_exit; free_events; apply Hf. }
  assert (Hloop : forall f,
             f Sleep = false ->
             (forall doc indent flush, f (Print doc indent flush) = false) ->
             forall (u : pyvalue) m',
               watch_messages.watch_loop w fuel 0 = Some m' -> free f m').
  { intros f Hs Hf _ m'. apply all_events_watch_loop; [exact Hs |].
    intros x. apply free_on_message, Hf. }
  split; (apply at_most_try; [| apply Hh; reflexivity]); revert Hbody;
    apply at_most_bind_opt; try (apply Hloop; reflexivity).
  - unfold AgentText. apply at_most_ask_then. intros _. unfold watch_messages.start.
    free_events. constructor; [reflexivity |].
    apply all_events_deliver. intros x. apply free_on_message. reflexivity.
  - apply at_most_bind_free; [free_events |]. intros _.
    apply at_most_bind_free; [free_events |]. intros _.
    unfold watch_messages.start, at_most, how_many. simpl.
    fold (how_many is_call (watch_messages.deliver (w_incoming w 0))).
    rewrite how_many_free; [lia |].
    apply all_events_deliver. intros x. apply free_on_message. reflexivity.
Qed.

Lemma at_most_bind_opt_free {A B} f n (m : M A) (k : A -> option (M B)) r :
  free f m ->
  (forall a m', k a = Some m' -> at_most f n m') ->
  bind_opt m k = Some r -> at_most f n r.
Proof.
  destruct m as [t [a | e]]; simpl; intros Hm Hk.
  - destruct (k a) as [[t' r'] |] eqn:Hka; [| discriminate].
    intros [= <-]. specialize (Hk a _ Hka). unfold at_most in *. simpl in *.
    rewrite how_many_app, (how_many_free f t Hm). exact Hk.
  - intros [= <-]. apply at_most_free. exact Hm.
Qed.

Lemma at_most_guarded {X} f n hint (main : world -> X -> option (M unit)) w x m :
  f Import = false ->
  (forall doc indent flush, f (Print doc indent flush) = false) ->
  (forall m', main w x = Some m' -> at_most f n m') ->
  guarded hint main w x = Some m -> at_most f n m.
Proof.
  intros Hi Hp Hmain. unfold guarded. apply at_most_bind_opt_free.
  - apply all_events_try; [repeat constructor; exact Hi |].
    intros cls h e' [[= <- <-] | []]. apply free_fail_with, Hp.
  - intros _. exact Hmain.
Qed.

(** X2.  No retry, no second client: every run of every script constructs
    the client at most once and calls at most one of its methods, on every
    path, failures included. *)
Theorem one_client_one_call :
  forall c w argv fuel t st,
    run c w argv fuel = Some (t, st) ->
    (how_many is_construct t <= 1)%nat /\ (how_many is_call t <= 1)%nat.
Proof.
  intros c w argv fuel t st Hrun. unfold run in Hrun.
  destruct (match c with BatchSend => _ | _ => _ end) as [m |] eqn:Hm;
    [| discriminate Hrun].
  simpl in Hrun. injection Hrun as Hrun.
  assert (Ht : t = fst m) by (rewrite <- (run_process_trace m), Hrun; reflexivity).
  subst t.
  assert (Hparsed : forall {A} (p : ArgumentParser A) body f m',
             f (ParseArgs argv) = false -> f HelpMessage = false ->
             f UsageMessage = false ->
             (forall a, at_most f 1 (body w a)) ->
             parse_then p body w argv = Some m' -> at_most f 1 m').
  { intros A p body f m' H1 H2 H3 Hbody. unfold parse_then.
    destruct (parse_args p argv) as [r |]; simpl; [| discriminate].
    intros [= <-]. apply at_most_bind_free.
    - unfold parse_args_or_exit, sys_exit. destruct r; free_events; assumption.
    - intros a. apply Hbody. }
  change (at_most is_construct 1 m /\ at_most is_call 1 m).
  destruct c; split;
    (eapply at_most_guarded; [reflexivity | reflexivity | | exact Hm]); intros m';
    try (apply Hparsed; try reflexivity; intros a);
    try (intros [= <-]).
  - apply (at_most_main_after_parse w (batch_send_args a)).
  - apply (at_most_main_after_parse w (batch_send_args a)).
  - apply (at_most_main_after_parse w (get_messages_args a)).
  - apply (at_most_main_after_parse w (get_messages_args a)).
  - apply (at_most_main_after_parse w (get_unread_args a)).
  - apply (at_most_main_after_parse w (get_unread_args a)).
  - apply (at_most_main_after_parse w (list_chats_args a)).
  - apply (at_most_main_after_parse w (list_chats_args a)).
  - apply (at_most_main_after_parse w (send_file_args a)).
  - apply (at_most_main_after_parse w (send_file_args a)).
  - apply (at_most_main_after_parse w (send_message_args a)).
  - apply (at_most_main_after_parse w (send_message_args a)).
  - apply (at_most_main_after_parse w (watcher_args a)).
  - apply (at_most_main_after_parse w (watcher_args a)).
  - intros Hw. apply (at_most_watch_messages w fuel m' Hw).
  - intros Hw. apply (at_most_watch_messages w fuel m' Hw).
  - apply at_most_simple_test.
  - apply at_most_simple_test.
Qed.

Lemma one_client_one_call_witness :
  (how_many is_construct
     [Import; ParseArgs ["+1234567890"; "Hello!"];
      Construct (Some "http://localhost:3000") (Some 30%Z);
      Call (messages_send "+1234567890" "Hello!");
      Print (failure_doc ("Connection error: Connection refused"
                          ++ ". Make sure the API server is running on "
                          ++ "http://localhost:3000")) None false] <= 1)%nat
  /\ (how_many is_call
        [Import; ParseArgs ["+1234567890"; "Hello!"];
         Construct (Some "http://localhost:3000") (Some 30%Z);
         Call (messages_send "+1234567890" "Hello!");
         Print (failure_doc ("Connection error: Connection refused"
                             ++ ". Make sure the API server is running on "
                             ++ "http://localhost:3000")) None false] <= 1)%nat.
Proof.
  apply (one_client_one_call SendMessage server_down ["+1234567890"; "Hello!"] 0%nat
           _ (Exited 1)).
  reflexivity.
Defined.

(** ** What the client raises and what the script reports *)

Lemma no_client_in_session b tm c0 ev : no_client ev -> in_session b tm c0 ev.
Proof. destruct ev; simpl; auto; contradiction. Qed.

Lemma try_except_after {A} (pre : list event) (m : M A) handlers :
  try_except ((pre ++ fst m)%list, snd m) handlers
  = ((pre ++ fst (try_except m handlers))%list, snd (try_except m handlers)).
Proof.
  destruct m as [t [a | e]]; simpl; [reflexivity |].
  destruct (find_handler e handlers) as [[t' r] |]; simpl; [| reflexivity].
  rewrite app_assoc. reflexivity.
Qed.

Lemma bind_ask_returns {A B} (ev : event) (a : A) (f : A -> M B) :
  bind (ask ev (Returns a)) f = (([ev] ++ fst (f a))%list, snd (f a)).
Proof. unfold ask, bind. destruct (f a). reflexivity. Qed.

Section Session.

Variables (w : world) (b : option string) (tm : option Z) (c0 : client_call).
Variables (k : pyvalue -> M unit) (handlers : list (except_class * (exn -> M unit))).

Hypothesis Hk : forall v, all_events no_client (k v).
Hypothesis Hhandlers : forall cls h e, In (cls, h) handlers -> all_events no_client (h e).

(** Build the client, make one call, hand the reply to [k]. *)
Let body : M unit := AgentText w b tm ;; v <- call w c0 ;; k v.

Lemma session_events : all_events (in_session b tm c0) (try_except body handlers).
Proof.
  apply all_events_try.
  - unfold body, AgentText, call. apply all_events_bind.
    + apply all_events_ask. simpl. auto.
    + intros _. apply all_events_bind.
      * apply all_events_ask. reflexivity.
      * intros v. eapply Forall_impl; [apply no_client_in_session | exact (Hk v)].
  - intros cls h e Hin.
    eapply Forall_impl; [apply no_client_in_session | exact (Hhandlers cls h e Hin)].
Qed.

Lemma session_call c :
  In (Call c) (fst (try_except body handlers)) -> c = c0.
Proof.
  intros Hin. pose proof session_events as Hev. unfold all_events in Hev.
  rewrite Forall_forall in Hev. exact (Hev _ Hin).
Qed.

(** When the client raised [e], the [try] block stopped there: after the
    constructor, or after the call. *)
Lemma session_raised e :
  client_raised w (fst (try_except body handlers)) e ->
  try_except body handlers = try_except ([Construct b tm], Raises e) handlers
  \/ try_except body handlers = try_except ([Construct b tm; Call c0], Raises e) handlers.
Proof.
  intros Hraised.
  pose proof session_events as Hev. unfold all_events in Hev.
  rewrite Forall_forall in Hev.
  assert (Hcons : (w_construct w b tm = Raises e)
                  \/ (In (Call c0) (fst (try_except body handlers))
                      /\ w_call w c0 = Raises e)).
  { destruct Hraised as [(b' & tm' & Hin & Hr) | (c & Hin & Hr)].
    - left. destruct (Hev _ Hin) as [-> ->]. exact Hr.
    - right. pose proof (Hev _ Hin) as Hc. simpl in Hc. subst c. auto. }
  unfold body, AgentText, call, ask in *.
  destruct Hcons as [Hr | [Hin Hr]].
  - left. rewrite Hr. reflexivity.
  - destruct (w_construct w b tm) as [[] | e1] eqn:Hc.
    + right. cbn [bind]. rewrite Hr. reflexivity.
    + exfalso. cbn [bind] in Hin.
      assert (Hnone : all_events not_a_call
                        (try_except (([Construct b tm], Raises e1) : M unit) handlers)).
      { apply all_events_try; [repeat constructor |].
        intros cls h e' Hh.
        eapply Forall_impl; [apply no_client_not_a_call | exact (Hhandlers cls h e' Hh)]. }
      unfold all_events in Hnone. rewrite Forall_forall in Hnone.
      exact (Hnone _ Hin).
Qed.

End Session.

Lemma client_raised_after w (pre t : list event) e :
  Forall no_client pre -> client_raised w (pre ++ t) e -> client_raised w t e.
Proof.
  intros Hpre Hr. rewrite Forall_forall in Hpre.
  destruct Hr as [(b & tm & Hin & Hr) | (c & Hin & Hr)];
    apply in_app_or in Hin; destruct Hin as [Hin | Hin];
    try (exfalso; exact (Hpre _ Hin)); [left | right]; eauto.
Qed.

Lemma no_client_not_raised {A} w (m : M A) e :
  all_events no_client m -> ~ client_raised w (fst m) e.
Proof.
  intros Hno [(b & tm & Hin & _) | (c & Hin & _)];
    unfold all_events in Hno; rewrite Forall_forall in Hno; exact (Hno _ Hin).
Qed.

Lemma no_client_client_handlers base cls h e :
  In (cls, h) (client_handlers base) -> all_events no_client (h e).
Proof. apply all_events_client_handlers. intros. exact I. Qed.

Lemma no_client_handlers_of ns cls h e :
  In (cls, h) (handlers_of ns) -> all_events no_client (h e).
Proof.
  destruct ns; simpl handlers_of; try apply no_client_client_handlers.
  intros [[= <- <-] | [[= <- <-] | Hin]];
    [ apply all_events_fail_with; intros; exact I
    | apply all_events_fail_with; intros; exact I
    | exact (no_client_client_handlers _ _ _ _ Hin) ].
Qed.

(** Every script with a parser, once the client raised [e]: some silent
    local steps, then the [try] block ending in [e] at the client, then
    the handlers of the script. *)
Lemma raised_main_after_parse w ns e :
  client_raised w (fst (main_after_parse w ns)) e ->
  exists pre tr,
    silent pre /\ silent tr
    /\ In (Construct (Some (base_url_of ns)) (Some 30%Z)) tr
    /\ main_after_parse w ns
       = ((pre ++ fst (try_except ((tr, Raises e) : M unit) (handlers_of ns)))%list,
          snd (try_except ((tr, Raises e) : M unit) (handlers_of ns))).
Proof.
  assert (Hsimple : forall base c0 (k : pyvalue -> M unit),
             (forall v, all_events no_client (k v)) ->
             client_raised w
               (fst (try_except (AgentText w (Some base) (Some 30%Z) ;;
                                 v <- call w c0 ;; k v)
                                (client_handlers base))) e ->
             exists pre tr,
               silent pre /\ silent tr
               /\ In (Construct (Some base) (Some 30%Z)) tr
               /\ try_except (AgentText w (Some base) (Some 30%Z) ;;
                              v <- call w c0 ;; k v)
                             (client_handlers base)
                  = ((pre ++ fst (try_except ((tr, Raises e) : M unit)
                                             (client_handlers base)))%list,
                     snd (try_except ((tr, Raises e) : M unit) (client_handlers base)))).
  { intros base c0 k Hk Hr.
    destruct (session_raised w (Some base) (Some 30%Z) c0 k (client_handlers base) Hk
                (no_client_client_handlers base) e Hr) as [-> | ->];
      exists []; eexists; (split; [constructor |]);
      (split; [| split; [| simpl app; rewrite <- surjective_pairing; reflexivity]]);
      [ repeat constructor | simpl; auto | repeat constructor | simpl; auto ]. }
  destruct ns as [a | a | a | a | a | a | a]; simpl main_after_parse;
    simpl handlers_of; simpl base_url_of.
  - (* batch send *)
    unfold batch_send.main_with.
    destruct (w_load w (batch_send.json_file a)) as [messages | e0].
    + destruct messages as [| | | | | msgs | | |];
        try solve [intros Hr; exfalso; revert Hr; apply no_client_not_raised;
                   repeat constructor].
      change (_ :: _ :: client_handlers (batch_send.base_url a))
        with (handlers_of (batch_send_args a)).
      rewrite bind_ask_returns, try_except_after. cbn [fst snd].
      intros Hr. apply client_raised_after in Hr; [| repeat constructor].
      exists [LoadJson (batch_send.json_file a)].
      apply session_raised in Hr;
        [| intros v; no_client_events | exact (no_client_handlers_of (batch_send_args a))].
      destruct Hr as [Heq | Heq]; rewrite Heq; eexists;
        (split; [repeat constructor |]);
        (split; [| split; [| reflexivity]]);
        [ repeat constructor | simpl; auto | repeat constructor | simpl; auto ].
    + intros Hr. exfalso. revert Hr. apply no_client_not_raised.
      apply all_events_try; [repeat constructor |].
      apply (no_client_handlers_of (batch_send_args a)).
  - apply Hsimple. intros v. no_client_events.
  - apply Hsimple. intros v. no_client_events.
  - apply Hsimple. intros v. no_client_events.
  - (* send file *)
    unfold send_file.main_with, ask.
    destruct (w_exists w (send_file.file_path a)).
    + rewrite bind_returns. cbn [negb]. unfold ret. rewrite bind_nil. cbn [fst snd].
      intros Hr. apply client_raised_after in Hr; [| repeat constructor].
      apply Hsimple in Hr; [| intros v; no_client_events].
      destruct Hr as (pre & tr & Hpre & Htr & Hin & Heq).
      exists (PathExists (send_file.file_path a) :: pre), tr.
      split; [constructor; [reflexivity | exact Hpre] |].
      split; [exact Htr |]. split; [exact Hin |].
      rewrite Heq. reflexivity.
    + cbn [bind negb]. intros Hr. exfalso. revert Hr.
      apply no_client_not_raised. repeat constructor.
  - unfold send_message.main_with.
    destruct (send_message.files_given a); apply Hsimple; intros v; no_client_events.
  - unfold watcher.main_with.
    destruct (String.eqb (watcher.action a) "start");
      [apply Hsimple; intros v; no_client_events |].
    destruct (String.eqb (watcher.action a) "stop");
      [apply Hsimple; intros v; no_client_events |].
    destruct (String.eqb (watcher.action a) "status");
      [apply Hsimple; intros v; no_client_events |].
    unfold AgentText, ask.
    destruct (w_construct w (Some (watcher.base_url a)) (Some 30%Z)) as [[] | e1] eqn:Hc.
    + intros [(b & tm & [Hin | []] & Hr) | (c & [Hin | []] & _)];
        [| discriminate Hin].
      injection Hin as <- <-. congruence.
    + intros Hr. assert (e1 = e).
      { assert (Hev : all_events
                        (in_session (Some (watcher.base_url a)) (Some 30%Z) watcher_stop)
                        (try_except
                           (([Construct (Some (watcher.base_url a)) (Some 30%Z)],
                             Raises e1) : M unit)
                           (client_handlers (watcher.base_url a)))).
        { apply all_events_try; [repeat constructor; auto |].
          intros cls h e' Hin.
          eapply Forall_impl; [apply no_client_in_session |].
          exact (no_client_client_handlers _ _ _ _ Hin). }
        assert (Hnc : all_events not_a_call
                        (try_except
                           (([Construct (Some (watcher.base_url a)) (Some 30%Z)],
                             Raises e1) : M unit)
                           (client_handlers (watcher.base_url a)))).
        { apply all_events_try; [repeat constructor |].
          intros cls h e' Hin.
          eapply Forall_impl; [apply no_client_not_a_call |].
          exact (no_client_client_handlers _ _ _ _ Hin). }
        unfold all_events in Hev, Hnc. rewrite Forall_forall in Hev, Hnc.
        cbn [bind] in Hr.
        destruct Hr as [(b & tm & Hin & Hr) | (c & Hin & _)].
        - destruct (Hev _ Hin) as [-> ->]. congruence.
        - exfalso. exact (Hnc _ Hin). }
      subst e1. cbn [bind]. exists [], [Construct (Some (watcher.base_url a)) (Some 30%Z)].
      split; [constructor |]. split; [repeat constructor |]. split; [simpl; auto |].
      simpl app. rewrite <- surjective_pairing. reflexivity.
Qed.

Lemma fail_with_eq (msg : string) :
  fail_with msg
  = ([Print (failure_doc msg) None false], Raises (Exn (SystemExit 1) "1")).
Proof. reflexivity. Qed.

Lemma not_raised_at_import w (t : list event) (st : status) (e e' : exn) :
  match exn_class e with
  | ImportError =>
      t = [Import;
           Print (failure_doc ("AgentText package not installed. Run: "
                               ++ install_editable)) None false]
      /\ st = Exited 1
  | SystemExit code => t = [Import] /\ st = Exited code
  | _ => t = [Import] /\ st = Traceback e
  end ->
  ~ client_raised w t e'.
Proof.
  intros H Hr.
  assert (Ht : Forall no_client t)
    by (destruct (exn_class e); destruct H as [-> _]; repeat constructor).
  rewrite Forall_forall in Ht.
  destruct Hr as [(b & tm & Hin & _) | (c & Hin & _)]; exact (Ht _ Hin).
Qed.

(** A run of a script with a parser in which the client raised [e]: the
    command line parsed, and after some silent steps the exception met
    the handlers of the script. *)
Lemma raised_run c w argv fuel t st e :
  has_parser c = true ->
  run c w argv fuel = Some (t, st) ->
  client_raised w t e ->
  exists ns t0,
    parse_command c argv = Some (Parsed ns)
    /\ silent t0
    /\ t = (t0 ++ fst (try_except (([], Raises e) : M unit) (handlers_of ns)))%list
    /\ st = snd (run_process (try_except (([], Raises e) : M unit) (handlers_of ns))).
Proof.
  intros Hc Hrun Hr. pose proof (run_cases c w argv fuel t st Hc Hrun) as Hcases.
  destruct (w_import w) as [[] | e0].
  - destruct Hcases as (r & Hparse & Hcases).
    destruct r as [ns | |].
    + destruct Hcases as [-> ->]. rewrite run_process_trace in Hr.
      apply (client_raised_after w [Import; ParseArgs argv]) in Hr;
        [| repeat constructor].
      destruct (raised_main_after_parse w ns e Hr)
        as (pre & tr & Hpre & Htr & _ & Heq).
      exists ns, (Import :: ParseArgs argv :: pre ++ tr)%list.
      split; [exact Hparse |].
      split; [repeat constructor; apply Forall_app; auto |].
      rewrite Heq, run_process_after, run_process_trace. cbn [fst snd].
      unfold try_except.
      destruct (find_handler e (handlers_of ns)) as [[t' r'] |]; cbn [fst snd].
      * split; [simpl; rewrite <- !app_assoc; reflexivity |].
        destruct r' as [[] | e']; simpl; [| destruct (exn_class e')]; reflexivity.
      * split; [simpl; rewrite !app_nil_r; reflexivity |].
        simpl. destruct (exn_class e); reflexivity.
    + exfalso. destruct Hcases as [-> _].
      destruct Hr as [(b & tm & Hin & _) | (c' & Hin & _)]; simpl in Hin;
        intuition discriminate.
    + exfalso. destruct Hcases as [-> _].
      destruct Hr as [(b & tm & Hin & _) | (c' & Hin & _)]; simpl in Hin;
        intuition discriminate.
  - exfalso. exact (not_raised_at_import w t st e0 e Hcases Hr).
Qed.

(** The same for the test script, whose only clause is
    [except Exception]. *)
Lemma raised_simple_test w argv fuel t st e :
  run SimpleTest w argv fuel = Some (t, st) ->
  client_raised w t e ->
  exists t0,
    silent t0
    /\ t = (t0 ++ fst (try_except (([], Raises e) : M unit)
                         [(exc_Exception, fun e => fail_with (exn_str e))]))%list
    /\ st = snd (run_process
                   (try_except (([], Raises e) : M unit)
                      [(exc_Exception, fun e => fail_with (exn_str e))])).
Proof.
  intros Hrun Hr. pose proof (simple_test_cases w argv fuel t st Hrun) as Hcases.
  destruct (w_import w) as [[] | e0].
  - destruct Hcases as [-> ->]. rewrite run_process_trace in Hr.
    apply (client_raised_after w [Import]) in Hr; [| repeat constructor].
    unfold simple_test.main in *.
    apply session_raised in Hr;
      [| intros v; no_client_events
       | intros cls h e' [[= <- <-] | []]; apply all_events_fail_with; intros; exact I].
    assert (Hshape : exists tr : list event,
               silent tr
               /\ try_except
                    (AgentText w None None;;
                     result <- call w (messages_send "+9255776728" "Hello!");;
                     print_json
                       (py_dict
                          [("success", PBool true);
                           ("message", PStr "Test message sent successfully!");
                           ("result", dict_or_str result)])
                       None false)
                    [(exc_Exception, fun e => fail_with (exn_str e))]
                  = try_except ((tr, Raises e) : M unit)
                      [(exc_Exception, fun e => fail_with (exn_str e))]).
    { destruct Hr as [Heq | Heq]; eexists; (split; [| exact Heq]); repeat constructor. }
    destruct Hshape as (tr & Htr & Heq). rewrite Heq.
    exists (Import :: tr). split; [constructor; [reflexivity | exact Htr] |].
    rewrite run_process_trace. unfold try_except.
    destruct (find_handler e _) as [[t' r'] |]; cbn [fst snd].
    + split; [reflexivity |].
      destruct r' as [[] | e']; simpl; [| destruct (exn_class e')]; reflexivity.
    + split; [simpl; rewrite !app_nil_r; reflexivity |].
      simpl. destruct (exn_class e); reflexivity.
  - exfalso. exact (not_raised_at_import w t st e0 e Hcases Hr).
Qed.

(** X3. When the client raises an [AgentTextAPIException], every script
    with a parser prints as its last and only line the failure envelope
    whose error is [API error: ] followed by the text of the exception,
    and exits with 1. *)
Theorem api_error_is_reported c w argv fuel t st e :
  has_parser c = true ->
  run c w argv fuel = Some (t, st) ->
  client_raised w t e ->
  exn_class e = AgentTextAPIException ->
  exists t0,
    t = (t0 ++ [Print (failure_doc ("API error: " ++ exn_str e)) None false])%list
    /\ silent t0
    /\ st = Exited 1.
Proof.
  intros Hc Hrun Hr Hcls.
  destruct (raised_run c w argv fuel t st e Hc Hrun Hr)
    as (ns & t0 & _ & Ht0 & -> & ->).
  assert (Hh : find_handler e (handlers_of ns)
               = Some (fail_with ("API error: " ++ exn_str e)))
    by (destruct ns; simpl; unfold isinstance_exn; rewrite Hcls; reflexivity).
  exists t0. unfold try_except. rewrite Hh, fail_with_eq. simpl. auto.
Qed.

Lemma api_error_is_reported_witness :
  exists t0,
    [Import; ParseArgs ["--limit"; "5"];
     Construct (Some "http://localhost:3000") (Some 30%Z);
     Call (messages_list [("limit", PInt 5)]);
     Print (failure_doc "API error: HTTP 500") None false]
    = (t0 ++ [Print (failure_doc ("API error: "
                                  ++ exn_str (Exn AgentTextAPIException "HTTP 500")))
                    None false])%list
    /\ silent t0
    /\ Exited 1 = Exited 1.
Proof.
  apply (api_error_is_reported GetMessages
           (refusing (Exn AgentTextAPIException "HTTP 500")) ["--limit"; "5"] 0).
  - reflexivity.
  - reflexivity.
  - right. eexists. split; [| reflexivity]. simpl. auto.
  - reflexivity.
Defined.

Lemma uncaught_handlers_of ns e :
  isinstance_exn e exc_Exception = false -> find_handler e (handlers_of ns) = None.
Proof.
  intros He. unfold isinstance_exn in He.
  destruct ns; simpl; unfold isinstance_exn;
    destruct (exn_class e); try discriminate He; reflexivity.
Qed.

(** X4. An exception of the client that no clause names apart from
    [except Exception] is reported by its bare text: the last and only
    line printed is the failure envelope whose error is [str(e)], and the
    exit status is 1.  For the scripts with a parser these are the
    exceptions other than the two of the package (and, in the batch
    script, other than [FileNotFoundError] and [JSONDecodeError]); for
    the test script it is every [Exception], those of the package
    included. *)
Theorem plain_exception_is_reported :
  (forall c w argv fuel t st e,
      has_parser c = true ->
      run c w argv fuel = Some (t, st) ->
      client_raised w t e ->
      isinstance_exn e exc_Exception = true ->
      exn_class e <> AgentTextConnectionException ->
      exn_class e <> AgentTextAPIException ->
      (c = BatchSend ->
       exn_class e <> FileNotFoundError /\ exn_class e <> JSONDecodeError) ->
      exists t0,
        t = (t0 ++ [Print (failure_doc (exn_str e)) None false])%list
        /\ silent t0
        /\ st = Exited 1)
  /\ (forall w argv fuel t st e,
         run SimpleTest w argv fuel = Some (t, st) ->
         client_raised w t e ->
         isinstance_exn e exc_Exception = true ->
         exists t0,
           t = (t0 ++ [Print (failure_doc (exn_str e)) None false])%list
           /\ silent t0
           /\ st = Exited 1).
Proof.
  split.
  - intros c w argv fuel t st e Hc Hrun Hr Hexc Hconn Hapi Hbatch.
    destruct (raised_run c w argv fuel t st e Hc Hrun Hr)
      as (ns & t0 & Hparse & Ht0 & -> & ->).
    assert (Hh : find_handler e (handlers_of ns) = Some (fail_with (exn_str e))).
    { assert (Hns : match ns with batch_send_args _ => c = BatchSend | _ => True end).
      { destruct c; try discriminate Hc; simpl in Hparse;
          match type of Hparse with
          | context [parse_args ?p argv] =>
              destruct (parse_args p argv) as [[a | |] |]
          end; try discriminate Hparse; injection Hparse as <-; auto. }
      unfold isinstance_exn in Hexc.
      destruct ns; simpl; unfold isinstance_exn;
        try (destruct (Hbatch Hns) as [Hfnf Hjson]);
        destruct (exn_class e); try discriminate Hexc; try congruence; reflexivity. }
    exists t0. unfold try_except. rewrite Hh, fail_with_eq. simpl. auto.
  - intros w argv fuel t st e Hrun Hr Hexc.
    destruct (raised_simple_test w argv fuel t st e Hrun Hr) as (t0 & Ht0 & -> & ->).
    exists t0. unfold try_except. cbn [find_handler]. rewrite Hexc, fail_with_eq.
    simpl. auto.
Qed.

Lemma plain_exception_is_reported_witness :
  exists t0,
    [Import; Construct None None; Call (messages_send "+9255776728" "Hello!");
     Print (failure_doc "Connection refused") None false]
    = (t0 ++ [Print (failure_doc
                       (exn_str (Exn AgentTextConnectionException "Connection refused")))
                    None false])%list
    /\ silent t0
    /\ Exited 1 = Exited 1.
Proof.
  apply (proj2 plain_exception_is_reported server_down [] 0).
  - reflexivity.
  - right. eexists. split; [| reflexivity]. simpl. auto.
  - reflexivity.
Defined.

Lemma batch_send_client_reached w a e :
  client_raised w (fst (batch_send.main_with w a)) e ->
  exists msgs, w_load w (batch_send.json_file a) = Returns (PList msgs).
Proof.
  unfold batch_send.main_with.
  destruct (w_load w (batch_send.json_file a)) as [messages | e0].
  - destruct messages as [| | | | | msgs | | |]; eauto;
      intros Hr; exfalso; revert Hr; apply no_client_not_raised; repeat constructor.
  - intros Hr. exfalso. revert Hr. apply no_client_not_raised.
    apply all_events_try; [repeat constructor |].
    apply (no_client_handlers_of (batch_send_args a)).
Qed.

(** X5. In the batch script the clauses for [FileNotFoundError] and
    [JSONDecodeError] also cover the client: when the JSON file was read
    and held an array, and then the client raises one of the two, the
    failure envelope says [File not found: ] followed by the name of the
    JSON file, or [Invalid JSON: ] followed by the text of the
    exception; the exit status is 1. *)
Theorem batch_send_blames_the_json_file w argv fuel t st e a :
  run BatchSend w argv fuel = Some (t, st) ->
  parse_args batch_send.parser argv = Some (Parsed a) ->
  client_raised w t e ->
  (exists msgs, w_load w (batch_send.json_file a) = Returns (PList msgs))
  /\ (exn_class e = FileNotFoundError ->
      exists t0,
        t = (t0 ++ [Print (failure_doc ("File not found: " ++ batch_send.json_file a))
                          None false])%list
        /\ silent t0 /\ st = Exited 1)
  /\ (exn_class e = JSONDecodeError ->
      exists t0,
        t = (t0 ++ [Print (failure_doc ("Invalid JSON: " ++ exn_str e)) None false])%list
        /\ silent t0 /\ st = Exited 1).
Proof.
  intros Hrun Hparse Hr.
  destruct (raised_run BatchSend w argv fuel t st e eq_refl Hrun Hr)
    as (ns & t0 & Hparse' & Ht0 & Ht & Hst).
  simpl in Hparse'. rewrite Hparse in Hparse'. injection Hparse' as <-.
  split.
  - pose proof (run_cases BatchSend w argv fuel t st eq_refl Hrun) as Hcases.
    destruct (w_import w) as [[] | e0].
    + destruct Hcases as (r & Hp & Hcases). simpl in Hp. rewrite Hparse in Hp.
      injection Hp as <-. destruct Hcases as [Ht' _]. rewrite Ht' in Hr.
      rewrite run_process_trace in Hr.
      apply (client_raised_after w [Import; ParseArgs argv]) in Hr;
        [| repeat constructor].
      exact (batch_send_client_reached w a e Hr).
    + exfalso. exact (not_raised_at_import w t st e0 e Hcases Hr).
  - subst t st. simpl handlers_of. unfold try_except.
    split; intros Hcls; exists t0; cbn [find_handler]; unfold isinstance_exn;
      rewrite Hcls; rewrite fail_with_eq; simpl; auto.
Qed.

Lemma batch_send_blames_the_json_file_witness :
  (exists msgs,
      w_load (refusing (Exn FileNotFoundError "No such file: 'photo.jpg'")) "messages.json"
      = Returns (PList msgs))
  /\ exists t0,
      [Import; ParseArgs ["messages.json"]; LoadJson "messages.json";
       Construct (Some "http://localhost:3000") (Some 30%Z);
       Call (messages_send_batch []);
       Print (failure_doc "File not found: messages.json") None false]
      = (t0 ++ [Print (failure_doc "File not found: messages.json") None false])%list
      /\ silent t0 /\ Exited 1 = Exited 1.
Proof.
  destruct (batch_send_blames_the_json_file
              (refusing (Exn FileNotFoundError "No such file: 'photo.jpg'"))
              ["messages.json"] 0 _ _
              (Exn FileNotFoundError "No such file: 'photo.jpg'")
              (batch_send.Args "messages.json" "http://localhost:3000")
              eq_refl eq_refl
              (or_intror (ex_intro _ (messages_send_batch [])
                            (conj (or_intror (or_intror (or_intror (or_intror
                                     (or_introl eq_refl))))) eq_refl))))
    as (Hload & Hfnf & _).
  split; [exact Hload | exact (Hfnf eq_refl)].
Defined.

(** X6. What only derives from [BaseException] passes every clause.  When
    the client raises a [KeyboardInterrupt], a [SystemExit] or another
    such exception in a script other than the message watcher, nothing is
    printed at all, and the process ends with that exception: the code of
    the [SystemExit], a traceback otherwise. *)
Theorem base_exception_escapes c w argv fuel t st e :
  c <> WatchMessages ->
  run c w argv fuel = Some (t, st) ->
  client_raised w t e ->
  isinstance_exn e exc_Exception = false ->
  silent t /\ st = status_of e.
Proof.
  intros Hc Hrun Hr Hexc.
  assert (Hst : forall t' : list event,
             snd (run_process ((t', Raises e) : M unit)) = status_of e)
    by (intros t'; unfold status_of; simpl; destruct (exn_class e); reflexivity).
  destruct c; try (exfalso; apply Hc; reflexivity).
  8: { destruct (raised_simple_test w argv fuel t st e Hrun Hr) as (t0 & Ht0 & -> & ->).
       unfold try_except. cbn [find_handler]. rewrite Hexc. cbn [fst].
       rewrite app_nil_r. auto. }
  all: match type of Hrun with
       | run ?c _ _ _ = _ =>
           destruct (raised_run c w argv fuel t st e eq_refl Hrun Hr)
             as (ns & t0 & _ & Ht0 & -> & ->)
       end;
    unfold try_except; rewrite (uncaught_handlers_of ns e Hexc); cbn [fst];
    rewrite app_nil_r; auto.
Qed.

Lemma base_exception_escapes_witness :
  silent [Import; ParseArgs []; Construct (Some "http://localhost:3000") (Some 30%Z);
          Call (messages_get_unread)]
  /\ Traceback (Exn KeyboardInterrupt "") = status_of (Exn KeyboardInterrupt "").
Proof.
  apply (base_exception_escapes GetUnread (refusing (Exn KeyboardInterrupt "")) [] 0).
  - discriminate.
  - reflexivity.
  - right. eexists. split; [| reflexivity]. simpl. auto.
  - reflexivity.
Defined.

(** ** What the reply of the client does to the outcome *)

Lemma no_client_not_answered {A} w (m : M A) v :
  all_events no_client m -> ~ client_answered w (fst m) v.
Proof.
  intros Hno (c & Hin & _).
  unfold all_events in Hno; rewrite Forall_forall in Hno; exact (Hno _ Hin).
Qed.

Lemma client_answered_after w (pre t : list event) v :
  Forall no_client pre -> client_answered w (pre ++ t) v -> client_answered w t v.
Proof.
  intros Hpre (c & Hin & Hv). rewrite Forall_forall in Hpre.
  apply in_app_or in Hin. destruct Hin as [Hin | Hin];
    [exfalso; exact (Hpre _ Hin) | exists c; auto].
Qed.

Section Answer.

Variables (w : world) (b : option string) (tm : option Z) (c0 : client_call).
Variables (k : pyvalue -> M unit) (handlers : list (except_class * (exn -> M unit))).

Hypothesis Hk : forall v, all_events no_client (k v).
Hypothesis Hhandlers : forall cls h e, In (cls, h) handlers -> all_events no_client (h e).

(** When the client answered [v], the constructor and the call went
    through and the rest of the [try] block ran on [v]. *)
Lemma session_answered v :
  client_answered w
    (fst (try_except (AgentText w b tm ;; v <- call w c0 ;; k v) handlers)) v ->
  try_except (AgentText w b tm ;; v <- call w c0 ;; k v) handlers
  = ((Construct b tm :: Call c0 :: fst (try_except (k v) handlers))%list,
     snd (try_except (k v) handlers)).
Proof.
  intros (c & Hin & Hv).
  pose proof (session_events w b tm c0 k handlers Hk Hhandlers) as Hev.
  unfold all_events in Hev. rewrite Forall_forall in Hev.
  pose proof (Hev _ Hin) as Hc. simpl in Hc. subst c.
  unfold AgentText, call in *.
  destruct (w_construct w b tm) as [[] | e1].
  - rewrite Hv, !bind_ask_returns. cbn [fst snd]. rewrite app_assoc.
    rewrite (try_except_after ([Construct b tm] ++ [Call c0]) (k v) handlers).
    reflexivity.
  - exfalso. unfold ask in Hin. cbn [bind] in Hin.
    assert (Hnone : all_events not_a_call
                      (try_except (([Construct b tm], Raises e1) : M unit) handlers)).
    { apply all_events_try; [repeat constructor |].
      intros cls h e' Hh.
      eapply Forall_impl; [apply no_client_not_a_call | exact (Hhandlers cls h e' Hh)]. }
    unfold all_events in Hnone. rewrite Forall_forall in Hnone.
    exact (Hnone _ Hin).
Qed.

End Answer.

(** The last step of a [try] block: the envelope is printed, or
    [json.dumps] raises and [except Exception] reports its message. *)
Lemma print_or_fail doc x indent handlers :
  json_error doc = json_error x ->
  (forall msg, find_handler (Exn TypeError msg) handlers = Some (fail_with msg)) ->
  try_except (print_json doc indent false) handlers
  = match json_error x with
    | None => ([Print doc indent false], Returns tt)
    | Some msg =>
        ([Print (failure_doc msg) None false], Raises (Exn (SystemExit 1) "1"))
    end.
Proof.
  intros Hdoc Hh. unfold print_json. rewrite Hdoc.
  destruct (json_error x) as [msg |]; [| reflexivity].
  unfold raise, try_except. rewrite Hh, fail_with_eq. reflexivity.
Qed.

Lemma type_error_handlers_of ns msg :
  find_handler (Exn TypeError msg) (handlers_of ns) = Some (fail_with msg).
Proof. destruct ns; reflexivity. Qed.

Lemma decided_after (pre : list event) x (m : M unit) :
  silent pre -> decided x m -> decided x ((pre ++ fst m)%list, snd m).
Proof.
  unfold decided. intros Hpre. destruct (json_error x) as [msg |]; cbn [fst snd].
  - intros [Hs (t0 & Ht & Ht0)]. split; [exact Hs |].
    exists (pre ++ t0)%list. rewrite Ht, app_assoc.
    split; [reflexivity | apply Forall_app; auto].
  - intros [Hs (t0 & doc & indent & key & Ht & Ht0 & Hdoc)]. split; [exact Hs |].
    exists (pre ++ t0)%list, doc, indent, key. rewrite Ht, app_assoc.
    split; [reflexivity |]. split; [apply Forall_app; auto | exact Hdoc].
Qed.

Lemma decided_print key doc x indent handlers :
  json_error doc = json_error x ->
  success_is true doc ->
  dict_get key doc = Some x ->
  (forall msg, find_handler (Exn TypeError msg) handlers = Some (fail_with msg)) ->
  decided x (try_except (print_json doc indent false) handlers).
Proof.
  intros Hdoc Hs Hkey Hh. rewrite (print_or_fail doc x indent handlers Hdoc Hh).
  unfold decided. destruct (json_error x) as [msg |]; cbn [fst snd].
  - split; [reflexivity |]. exists []. split; [reflexivity | constructor].
  - split; [reflexivity |]. exists [], doc, indent, key.
    split; [reflexivity |]. split; [constructor | auto].
Qed.

Lemma json_error_dict_or_str_of_str (v : pyvalue) :
  is_dict v = false -> json_error (dict_or_str v) = None.
Proof. unfold dict_or_str. intros ->. reflexivity. Qed.

Lemma decided_main_after_parse w ns v :
  client_answered w (fst (main_after_parse w ns)) v ->
  decided (forwarded ns v) (main_after_parse w ns).
Proof.
  assert (Hsimple : forall base c0 (k : pyvalue -> M unit) x,
             (forall v, all_events no_client (k v)) ->
             decided x (try_except (k v) (client_handlers base)) ->
             client_answered w
               (fst (try_except (AgentText w (Some base) (Some 30%Z) ;;
                                 v <- call w c0 ;; k v)
                                (client_handlers base))) v ->
             decided x (try_except (AgentText w (Some base) (Some 30%Z) ;;
                                    v <- call w c0 ;; k v)
                                   (client_handlers base))).
  { intros base c0 k x Hk Hd Ha.
    rewrite (session_answered w _ _ c0 k (client_handlers base) Hk
               (no_client_client_handlers base) v Ha).
    apply (decided_after [Construct (Some base) (Some 30%Z); Call c0]);
      [repeat constructor | exact Hd]. }
  assert (Hth : forall base msg,
             find_handler (Exn TypeError msg) (client_handlers base)
             = Some (fail_with msg)) by reflexivity.
  destruct ns as [a | a | a | a | a | a | a]; simpl main_after_parse;
    cbn [forwarded].
  - (* batch send *)
    unfold batch_send.main_with.
    destruct (w_load w (batch_send.json_file a)) as [messages | e0].
    + destruct messages as [| | | | | msgs | | |];
        try solve [intros Hr; exfalso; revert Hr; apply no_client_not_answered;
                   repeat constructor].
      change (_ :: _ :: client_handlers (batch_send.base_url a))
        with (handlers_of (batch_send_args a)).
      rewrite bind_ask_returns, try_except_after. cbn [fst snd].
      intros Hr. apply client_answered_after in Hr; [| repeat constructor].
      apply (decided_after [LoadJson (batch_send.json_file a)]);
        [repeat constructor |].
      apply session_answered in Hr;
        [| intros v'; no_client_events
         | exact (no_client_handlers_of (batch_send_args a))].
      rewrite Hr.
      apply (decided_after [Construct (Some (batch_send.base_url a)) (Some 30%Z);
                            Call (messages_send_batch msgs)]);
        [repeat constructor |].
      apply (decided_print "results");
        [| reflexivity | reflexivity | apply (type_error_handlers_of (batch_send_args a))].
      apply json_error_last; reflexivity.
    + intros Hr. exfalso. revert Hr. apply no_client_not_answered.
      apply all_events_try; [repeat constructor |].
      apply (no_client_handlers_of (batch_send_args a)).
  - apply Hsimple; [intros v'; no_client_events |].
    apply (decided_print "messages"); [| reflexivity | reflexivity | apply Hth].
    apply json_error_middle; [reflexivity | destruct v; reflexivity].
  - apply Hsimple; [intros v'; no_client_events |].
    apply (decided_print "unread"); [| reflexivity | reflexivity | apply Hth].
    simpl. destruct (json_error v); reflexivity.
  - apply Hsimple; [intros v'; no_client_events |].
    apply (decided_print "chats"); [| reflexivity | reflexivity | apply Hth].
    apply json_error_middle; [reflexivity | destruct v; reflexivity].
  - (* send file *)
    unfold send_file.main_with, ask.
    destruct (w_exists w (send_file.file_path a)).
    + rewrite bind_returns. cbn [negb]. unfold ret. rewrite bind_nil. cbn [fst snd].
      intros Hr. apply client_answered_after in Hr; [| repeat constructor].
      apply (decided_after [PathExists (send_file.file_path a)]);
        [repeat constructor |].
      revert Hr. apply Hsimple; [intros v'; no_client_events |].
      apply (decided_print "result"); [| reflexivity | reflexivity | apply Hth].
      simpl. destruct (json_error (dict_or_str v)); reflexivity.
    + cbn [bind negb]. intros Hr. exfalso. revert Hr.
      apply no_client_not_answered. repeat constructor.
  - unfold send_message.main_with.
    destruct (send_message.files_given a);
      (apply Hsimple; [intros v'; no_client_events |]);
      (apply (decided_print "result"); [| reflexivity | reflexivity | apply Hth]);
      apply json_error_last; reflexivity.
  - unfold watcher.main_with.
    destruct (String.eqb (watcher.action a) "start");
      [apply Hsimple; [intros v'; no_client_events |];
       apply (decided_print "result"); [| reflexivity | reflexivity | apply Hth];
       simpl; destruct (json_error (dict_or_str v)); reflexivity |].
    destruct (String.eqb (watcher.action a) "stop");
      [apply Hsimple; [intros v'; no_client_events |];
       apply (decided_print "result"); [| reflexivity | reflexivity | apply Hth];
       simpl; destruct (json_error (dict_or_str v)); reflexivity |].
    destruct (String.eqb (watcher.action a) "status");
      [apply Hsimple; [intros v'; no_client_events |];
       apply (decided_print "status"); [| reflexivity | reflexivity | apply Hth];
       apply json_error_last; reflexivity |].
    intros (c & Hin & _). exfalso.
    assert (Hnone : all_events not_a_call
                      (try_except
                         (AgentText w (Some (watcher.base_url a)) (Some 30%Z);; ret tt)
                         (client_handlers (watcher.base_url a)))).
    { apply all_events_try.
      - unfold AgentText, ask, ret.
        destruct (w_construct w (Some (watcher.base_url a)) (Some 30%Z)) as [[] | e1];
          repeat constructor.
      - intros cls h e' Hh.
        eapply Forall_impl; [apply no_client_not_a_call |].
        exact (no_client_client_handlers _ _ _ _ Hh). }
    unfold all_events in Hnone. rewrite Forall_forall in Hnone.
    exact (Hnone _ Hin).
Qed.

(** X7. Once the client has answered, the part of the reply that the
    script writes into its envelope decides the outcome.  When
    [json.dumps] can write that part, the last and only line printed is a
    success envelope that carries it under one of its keys, and the exit
    status is 0.  When it cannot, the
    [TypeError] of [json.dumps] is caught by [except Exception]: the line
    printed is the failure envelope with the message of the [TypeError],
    and the exit status is 1, although the call went through.  The three
    scripts that write [str(reply)] for a reply that is no dictionary
    therefore always succeed on such a reply. *)
Theorem reply_decides_the_outcome c w argv fuel t st ns v :
  run c w argv fuel = Some (t, st) ->
  parse_command c argv = Some (Parsed ns) ->
  client_answered w t v ->
  match json_error (forwarded ns v) with
  | None =>
      st = Exited 0
      /\ exists t0 doc indent key,
          t = (t0 ++ [Print doc indent false])%list
          /\ silent t0 /\ success_is true doc
          /\ dict_get key doc = Some (forwarded ns v)
  | Some msg =>
      st = Exited 1
      /\ exists t0,
          t = (t0 ++ [Print (failure_doc msg) None false])%list /\ silent t0
  end
  /\ (is_dict v = false ->
      match ns with
      | send_file_args _ | send_message_args _ | watcher_args _ => st = Exited 0
      | _ => True
      end).
Proof.
  intros Hrun Hparse Ha.
  assert (Hc : has_parser c = true) by (destruct c; try discriminate Hparse; reflexivity).
  pose proof (run_cases c w argv fuel t st Hc Hrun) as Hcases.
  assert (Hmain : decided (forwarded ns v)
                    ((t, match st with
                         | Exited 0 => Returns tt
                         | _ => Raises (Exn (SystemExit 1) "1")
                         end) : M unit)
                  /\ (st = Exited 0 \/ st = Exited 1)).
  { destruct (w_import w) as [[] | e0].
    - destruct Hcases as (r & Hp & Hcases). rewrite Hparse in Hp.
      injection Hp as <-. destruct Hcases as [-> ->].
      rewrite run_process_trace in Ha |- *.
      apply (client_answered_after w [Import; ParseArgs argv]) in Ha;
        [| repeat constructor].
      pose proof (decided_main_after_parse w ns v Ha) as Hd.
      apply (decided_after [Import; ParseArgs argv]) in Hd; [| repeat constructor].
      cbn [fst snd] in Hd. unfold decided in Hd |- *.
      destruct (main_after_parse w ns) as [t' r']. cbn [fst snd] in *.
      destruct (json_error (forwarded ns v)) as [msg |];
        destruct Hd as [-> Hd]; simpl; auto.
    - exfalso. destruct Ha as (c' & Hin & _).
      assert (Ht : Forall no_client t)
        by (destruct (exn_class e0); destruct Hcases as [-> _]; repeat constructor).
      rewrite Forall_forall in Ht. exact (Ht _ Hin). }
  destruct Hmain as [Hd Hst]. unfold decided in Hd. cbn [fst snd] in Hd.
  assert (Hmatch : match json_error (forwarded ns v) with
                   | None =>
                       st = Exited 0
                       /\ exists t0 doc indent key,
                           t = (t0 ++ [Print doc indent false])%list
                           /\ silent t0 /\ success_is true doc
                           /\ dict_get key doc = Some (forwarded ns v)
                   | Some msg =>
                       st = Exited 1
                       /\ exists t0,
                           t = (t0 ++ [Print (failure_doc msg) None false])%list
                           /\ silent t0
                   end).
  { destruct (json_error (forwarded ns v)) as [msg |]; destruct Hd as [Hs Hd];
      (split; [| exact Hd]); destruct Hst as [-> | ->]; try reflexivity;
      discriminate Hs. }
  split; [exact Hmatch |].
  intros Hv. destruct ns; try exact I; cbn [forwarded] in Hmatch;
    rewrite (json_error_dict_or_str_of_str v Hv) in Hmatch; exact (proj1 Hmatch).
Qed.

Lemma reply_decides_the_outcome_witness :
  match json_error (forwarded (get_unread_args (get_unread.Args "http://localhost:3000"))
                              (PObject "Message" "hello" "<Message 1>")) with
  | None =>
      Exited 1 = Exited 0
      /\ exists t0 doc indent key,
          [Import; ParseArgs [];
           Construct (Some "http://localhost:3000") (Some 30%Z);
           Call messages_get_unread;
           Print (failure_doc "Object of type Message is not JSON serializable")
                 None false]
          = (t0 ++ [Print doc indent false])%list
          /\ silent t0 /\ success_is true doc
          /\ dict_get key doc
             = Some (forwarded (get_unread_args (get_unread.Args "http://localhost:3000"))
                               (PObject "Message" "hello" "<Message 1>"))
  | Some msg =>
      Exited 1 = Exited 1
      /\ exists t0,
          [Import; ParseArgs [];
           Construct (Some "http://localhost:3000") (Some 30%Z);
           Call messages_get_unread;
           Print (failure_doc "Object of type Message is not JSON serializable")
                 None false]
          = (t0 ++ [Print (failure_doc msg) None false])%list /\ silent t0
  end.
Proof.
  apply (proj1 (reply_decides_the_outcome GetUnread
                  (calm (PObject "Message" "hello" "<Message 1>")) [] 0 _ _
                  (get_unread_args (get_unread.Args "http://localhost:3000"))
                  (PObject "Message" "hello" "<Message 1>")
                  eq_refl eq_refl
                  (ex_intro _ messages_get_unread
                     (conj (or_intror (or_intror (or_intror (or_introl eq_refl))))
                           eq_refl)))).
Defined.

(** ** The JSON file of the batch script *)

(** X8. In the batch script, when reading the JSON file raises, no client
    is built and one failure envelope is printed before the exit with
    status 1.  Its error is [File not found: ] followed by the name of the
    file for a [FileNotFoundError], [Invalid JSON: ] followed by the text
    of the exception for a [JSONDecodeError], and the bare text of the
    exception for another [Exception], such as a [PermissionError]. *)
Theorem batch_send_unreadable_file w argv fuel a e :
  w_import w = Returns tt ->
  parse_args batch_send.parser argv = Some (Parsed a) ->
  w_load w (batch_send.json_file a) = Raises e ->
  forall msg,
    match exn_class e with
    | FileNotFoundError => msg = "File not found: " ++ batch_send.json_file a
    | JSONDecodeError => msg = "Invalid JSON: " ++ exn_str e
    | OtherException => msg = exn_str e
    | _ => False
    end ->
    run BatchSend w argv fuel
    = Some ([Import; ParseArgs argv; LoadJson (batch_send.json_file a);
             Print (failure_doc msg) None false],
            Exited 1).
Proof.
  intros Hi Hp Hload msg Hmsg.
  unfold run, batch_send.script, batch_send.main.
  rewrite (guarded_parsed _ _ _ _ _ a Hi Hp).
  unfold batch_send.main_with, ask. rewrite Hload. cbn [bind].
  destruct e as [cls text]. cbn [exn_class exn_str] in Hmsg |- *.
  destruct cls; try contradiction; subst msg; reflexivity.
Qed.

Lemma batch_send_unreadable_file_witness :
  run BatchSend (unreadable (Exn JSONDecodeError "Expecting value: line 1 column 1 (char 0)"))
      ["messages.json"] 0
  = Some ([Import; ParseArgs ["messages.json"]; LoadJson "messages.json";
           Print (failure_doc
                    "Invalid JSON: Expecting value: line 1 column 1 (char 0)")
                 None false],
          Exited 1).
Proof.
  apply (batch_send_unreadable_file
           (unreadable (Exn JSONDecodeError "Expecting value: line 1 column 1 (char 0)"))
           ["messages.json"] 0
           (batch_send.Args "messages.json" "http://localhost:3000")
           (Exn JSONDecodeError "Expecting value: line 1 column 1 (char 0)"));
    reflexivity.
Defined.

(** ** What the parser guarantees to the rest of [main] *)

Section Invariant.

Context {A : Type} (p : ArgumentParser A).

(** A property of the positionals still to fill and of the namespace. *)
Variable Inv : list (argument A) -> A -> Prop.

Hypothesis Hpositional : forall a pending value ns ns',
  In a (arguments p) -> is_optional a = false ->
  applies a value ns ns' -> Inv (a :: pending) ns -> Inv pending ns'.

Hypothesis Hoption : forall a pending value ns ns',
  In a (arguments p) -> is_optional a = true ->
  applies a value ns ns' -> Inv pending ns -> Inv pending ns'.

Hypothesis Hswitch : forall a pending set ns,
  In a (arguments p) -> act a = store_true set -> Inv pending ns -> Inv pending (set ns).

Lemma parses_invariant pending ns argv r :
  parses p pending ns argv r ->
  incl pending (positionals p) ->
  Inv pending ns -> Inv [] r.
Proof.
  induction 1 as
      [ ns
      | a pending tok rest ns ns' r Htok Happ _ IH
      | pending tok flag a set rest ns r Htok Hhelp Hfind Hact _ IH
      | pending tok flag value a rest ns ns' r Htok Hhelp Hfind Happ _ IH
      | pending tok flag value a rest ns ns' r Htok Hhelp Hfind Hval Happ _ IH ];
    intros Hpending HI.
  - exact HI.
  - apply IH; [intros x Hx; apply Hpending; right; exact Hx |].
    destruct (positionals_spec p a (Hpending a (or_introl eq_refl))) as [Hin Hpos].
    exact (Hpositional a pending tok ns ns' Hin Hpos Happ HI).
  - apply IH; [exact Hpending |].
    destruct (find_optional_spec p flag a Hfind) as (Hin & _ & _).
    exact (Hswitch a pending set ns Hin Hact HI).
  - apply IH; [exact Hpending |].
    destruct (find_optional_spec p flag a Hfind) as (Hin & _ & Hopt).
    exact (Hoption a pending value ns ns' Hin Hopt Happ HI).
  - apply IH; [exact Hpending |].
    destruct (find_optional_spec p flag a Hfind) as (Hin & _ & Hopt).
    exact (Hoption a pending value ns ns' Hin Hopt Happ HI).
Qed.

(** Every positional takes a word of its own. *)
Lemma parses_length pending ns argv r :
  parses p pending ns argv r -> (length pending <= length argv)%nat.
Proof. induction 1; simpl in *; lia. Qed.

End Invariant.

Lemma watcher_action_choices argv a :
  parse_args watcher.parser argv = Some (Parsed a) ->
  watcher.action a = "start" \/ watcher.action a = "stop"
  \/ watcher.action a = "status".
Proof.
  intros Hp. apply parse_args_parses in Hp.
  refine (parses_invariant watcher.parser
            (fun pending ns =>
               pending = [] ->
               watcher.action ns = "start" \/ watcher.action ns = "stop"
               \/ watcher.action ns = "status")
            _ _ _ _ _ _ _ Hp (incl_refl _) _ eq_refl).
  - intros x pending value ns ns' Hin Hpos Happ _ _.
    simpl in Hin. destruct Hin as [<- | [<- | [<- | []]]]; try discriminate Hpos.
    unfold applies in Happ. simpl in Happ. destruct Happ as [Hallowed ->]. simpl.
    repeat (apply orb_prop in Hallowed; destruct Hallowed as [Hallowed | Hallowed]);
      try discriminate Hallowed; apply String.eqb_eq in Hallowed; auto.
  - intros x pending value ns ns' Hin Hopt Happ HI Hpending.
    simpl in Hin. destruct Hin as [<- | [<- | [<- | []]]]; try discriminate Hopt;
      unfold applies in Happ; simpl in Happ; destruct Happ as [_ ->]; simpl;
      exact (HI Hpending).
  - intros x pending set ns Hin Hact.
    simpl in Hin. destruct Hin as [<- | [<- | [<- | []]]]; discriminate Hact.
  - discriminate.
Qed.

Lemma list_chats_type_choices argv a :
  parse_args list_chats.parser argv = Some (Parsed a) ->
  list_chats.type a = None \/ list_chats.type a = Some "group"
  \/ list_chats.type a = Some "direct".
Proof.
  intros Hp. apply parse_args_parses in Hp.
  refine (parses_invariant list_chats.parser
            (fun _ ns =>
               list_chats.type ns = None \/ list_chats.type ns = Some "group"
               \/ list_chats.type ns = Some "direct")
            _ _ _ _ _ _ _ Hp (incl_refl _) _).
  - intros x pending value ns ns' Hin Hpos.
    simpl in Hin. destruct Hin as [<- | [<- | [<- | []]]]; discriminate Hpos.
  - intros x pending value ns ns' Hin _ Happ HI.
    simpl in Hin. destruct Hin as [<- | [<- | [<- | []]]];
      unfold applies in Happ; simpl in Happ.
    + destruct Happ as (z & _ & ->). exact HI.
    + destruct Happ as [Hallowed ->]. simpl.
      repeat (apply orb_prop in Hallowed; destruct Hallowed as [Hallowed | Hallowed]);
        try discriminate Hallowed; apply String.eqb_eq in Hallowed; subst value; auto.
    + destruct Happ as [_ ->]. exact HI.
  - intros x pending set ns Hin Hact.
    simpl in Hin. destruct Hin as [<- | [<- | [<- | []]]]; discriminate Hact.
  - left. reflexivity.
Qed.

Lemma in_try_except {A} (ev : event) (m : M A) handlers :
  In ev (fst m) -> In ev (fst (try_except m handlers)).
Proof.
  destruct m as [t [a | e]]; simpl; [auto |].
  destruct (find_handler e handlers) as [[t' r] |]; simpl; [| auto].
  intros H. apply in_or_app. auto.
Qed.

Lemma in_bind_left {A B} (ev : event) (m : M A) (f : A -> M B) :
  In ev (fst m) -> In ev (fst (bind m f)).
Proof.
  destruct m as [t [a | e]]; simpl; [| auto].
  destruct (f a). simpl. intros H. apply in_or_app. auto.
Qed.

Lemma in_bind_right {A B} (ev : event) (t : list event) (a : A) (f : A -> M B) :
  In ev (fst (f a)) -> In ev (fst (bind (t, Returns a) f)).
Proof. simpl. destruct (f a). simpl. intros H. apply in_or_app. auto. Qed.

(** Once the constructor returned, the call of the [try] block is made. *)
Lemma call_is_made w b tm c0 (k : pyvalue -> M unit) handlers :
  w_construct w b tm = Returns tt ->
  In (Call c0) (fst (try_except (AgentText w b tm ;; v <- call w c0 ;; k v) handlers)).
Proof.
  intros Hc. apply in_try_except. unfold AgentText, ask. rewrite Hc.
  apply in_bind_right, in_bind_left. simpl. auto.
Qed.

(** X9. The three actions of the watcher script are all there is: when
    the parser accepted the command line and the constructor of the
    client returned, one of [watcher.stop()], [watcher.status()] and
    [watcher.start(webhook=...)] is called; the way through [main] on
    which no action matches is never taken.  The webhook
    is [None], or the dictionary with the one key [url] whose value is
    not empty. *)
Theorem watcher_makes_its_call w argv fuel t st b tm :
  run Watcher w argv fuel = Some (t, st) ->
  In (Construct b tm) t ->
  w_construct w b tm = Returns tt ->
  exists c,
    In (Call c) t
    /\ (c = watcher_stop \/ c = watcher_status
        \/ c = watcher_start_webhook PNone
        \/ exists u, u <> "" /\ c = watcher_start_webhook (py_dict [("url", PStr u)])).
Proof.
  intros Hrun Hin Hc.
  pose proof (run_cases Watcher w argv fuel t st eq_refl Hrun) as Hcases.
  destruct (w_import w) as [[] | e0].
  - destruct Hcases as (r & Hp & Hcases). simpl in Hp.
    destruct (parse_args watcher.parser argv) as [[a | |] |] eqn:Hparse;
      try discriminate Hp; injection Hp as <-.
    + destruct Hcases as [-> _]. rewrite run_process_trace in Hin |- *.
      simpl main_after_parse in *.
      assert (Hb : b = Some (watcher.base_url a) /\ tm = Some 30%Z).
      { destruct Hin as [Hin | [Hin | Hin]]; try discriminate Hin.
        pose proof (constructs_watcher w a) as Hev.
        unfold all_events in Hev. rewrite Forall_forall in Hev.
        exact (Hev _ Hin b tm eq_refl). }
      destruct Hb as [-> ->].
      assert (Hweb : watcher.webhook a = PNone
                     \/ exists u, u <> ""
                                  /\ watcher.webhook a = py_dict [("url", PStr u)]).
      { unfold watcher.webhook. destruct (watcher.webhook_url a) as [[| ch u] |]; auto.
        right. exists (String ch u). split; [discriminate | reflexivity]. }
      unfold watcher.main_with.
      destruct (watcher_action_choices argv a Hparse) as [Ha | [Ha | Ha]]; rewrite Ha;
        cbn [String.eqb Ascii.eqb Bool.eqb].
      * exists (watcher_start_webhook (watcher.webhook a)).
        split; [right; right; apply call_is_made; exact Hc |].
        destruct Hweb as [-> | (u & Hu & ->)]; eauto 6.
      * exists watcher_stop.
        split; [right; right; apply call_is_made; exact Hc | auto].
      * exists watcher_status.
        split; [right; right; apply call_is_made; exact Hc | auto].
    + exfalso. destruct Hcases as [-> _]. simpl in Hin. intuition discriminate.
    + exfalso. destruct Hcases as [-> _]. simpl in Hin. intuition discriminate.
  - exfalso.
    assert (Ht : Forall no_client t)
      by (destruct (exn_class e0); destruct Hcases as [-> _]; repeat constructor).
    rewrite Forall_forall in Ht. exact (Ht _ Hin).
Qed.

Lemma watcher_makes_its_call_witness :
  exists c,
    In (Call c)
       [Import; ParseArgs ["start"; "--webhook-url"; "http://localhost:8080/hook"];
        Construct (Some "http://localhost:3000") (Some 30%Z);
        Call (watcher_start_webhook
                (py_dict [("url", PStr "http://localhost:8080/hook")]));
        Print (failure_doc
                 ("Connection error: Connection refused"
                  ++ ". Make sure the API server is running on http://localhost:3000"))
              None false]
    /\ (c = watcher_stop \/ c = watcher_status
        \/ c = watcher_start_webhook PNone
        \/ exists u, u <> "" /\ c = watcher_start_webhook (py_dict [("url", PStr u)])).
Proof.
  apply (watcher_makes_its_call server_down
           ["start"; "--webhook-url"; "http://localhost:8080/hook"] 0 _ (Exited 1)
           (Some "http://localhost:3000") (Some 30%Z)).
  - reflexivity.
  - simpl. auto.
  - reflexivity.
Defined.

(** X10. [list chats] only ever asks for all chats, for the group chats
    or for the direct chats: the filters of its one call are the limit
    alone, or the limit followed by a [type] that is [group] or
    [direct].  No other value of [--type] gets past the parser, the
    empty string included. *)
Theorem chat_type_is_group_or_direct w argv fuel t st c :
  run ListChats w argv fuel = Some (t, st) ->
  In (Call c) t ->
  exists n,
    c = chats_list [("limit", PInt n)]
    \/ c = chats_list [("limit", PInt n); ("type", PStr "group")]
    \/ c = chats_list [("limit", PInt n); ("type", PStr "direct")].
Proof.
  intros Hrun Hin.
  pose proof (run_cases ListChats w argv fuel t st eq_refl Hrun) as Hcases.
  destruct (w_import w) as [[] | e0].
  - destruct Hcases as (r & Hp & Hcases). simpl in Hp.
    destruct (parse_args list_chats.parser argv) as [[a | |] |] eqn:Hparse;
      try discriminate Hp; injection Hp as <-.
    + destruct Hcases as [-> _]. rewrite run_process_trace in Hin.
      simpl main_after_parse in Hin.
      destruct Hin as [Hin | [Hin | Hin]]; try discriminate Hin.
      unfold list_chats.main_with in Hin.
      apply session_call in Hin;
        [| intros v; no_client_events | apply no_client_client_handlers].
      subst c.
      exists (list_chats.limit a). unfold list_chats.filters.
      destruct (list_chats_type_choices argv a Hparse) as [Ht | [Ht | Ht]];
        rewrite Ht; simpl; auto.
    + exfalso. destruct Hcases as [-> _]. simpl in Hin. intuition discriminate.
    + exfalso. destruct Hcases as [-> _]. simpl in Hin. intuition discriminate.
  - exfalso.
    assert (Ht : Forall no_client t)
      by (destruct (exn_class e0); destruct Hcases as [-> _]; repeat constructor).
    rewrite Forall_forall in Ht. exact (Ht _ Hin).
Qed.

Lemma chat_type_is_group_or_direct_witness :
  exists n,
    chats_list [("limit", PInt 5); ("type", PStr "group")]
    = chats_list [("limit", PInt n)]
    \/ chats_list [("limit", PInt 5); ("type", PStr "group")]
       = chats_list [("limit", PInt n); ("type", PStr "group")]
    \/ chats_list [("limit", PInt 5); ("type", PStr "group")]
       = chats_list [("limit", PInt n); ("type", PStr "direct")].
Proof.
  apply (chat_type_is_group_or_direct (calm (PList []))
           ["--type"; "group"; "--limit"; "5"] 0
           [Import; ParseArgs ["--type"; "group"; "--limit"; "5"];
            Construct (Some "http://localhost:3000") (Some 30%Z);
            Call (chats_list [("limit", PInt 5); ("type", PStr "group")]);
            Print (py_dict [("success", PBool true); ("chats", PList []);
                            ("count", PInt 0)])
                  (Some 2%nat) false]
           (Exited 0)).
  - reflexivity.
  - simpl. auto.
Defined.

(** X11. A command line with fewer words than the parser has positionals
    never reaches the body of [main]: the run ends in the usage message
    and status 2, or in the help message and status 0, and neither builds
    a client nor prints an envelope. *)
Theorem too_few_words_is_a_usage_error c w argv fuel t st :
  run c w argv fuel = Some (t, st) ->
  w_import w = Returns tt ->
  (length argv < required c)%nat ->
  (t = [Import; ParseArgs argv; UsageMessage] /\ st = Exited 2)
  \/ (t = [Import; ParseArgs argv; HelpMessage] /\ st = Exited 0).
Proof.
  intros Hrun Hi Hlen.
  assert (Hc : has_parser c = true)
    by (destruct c; try reflexivity; simpl in Hlen; lia).
  pose proof (run_cases c w argv fuel t st Hc Hrun) as Hcases.
  rewrite Hi in Hcases. destruct Hcases as (r & Hp & Hcases).
  destruct r as [ns | |]; auto.
  exfalso.
  destruct c; try discriminate Hc; cbn [parse_command required] in Hp, Hlen;
    match type of Hp with
    | context [parse_args ?p argv] =>
        destruct (parse_args p argv) as [[a | |] |] eqn:Hparse;
          try discriminate Hp;
          apply parse_args_parses, parses_length in Hparse
    end; lia.
Qed.

Lemma too_few_words_is_a_usage_error_witness :
  ([Import; ParseArgs ["+1234567890"]; UsageMessage]
   = [Import; ParseArgs ["+1234567890"]; UsageMessage] /\ Exited 2 = Exited 2)
  \/ ([Import; ParseArgs ["+1234567890"]; UsageMessage]
      = [Import; ParseArgs ["+1234567890"]; HelpMessage] /\ Exited 2 = Exited 0).
Proof.
  apply (too_few_words_is_a_usage_error SendMessage (calm PNone) ["+1234567890"] 0).
  - reflexivity.
  - reflexivity.
  - simpl. lia.
Defined.

(** ** The legacy watch loop *)

(** The loop ends only when a sleep raises. *)
Lemma watch_loop_ends w : forall fuel k m,
  watch_messages.watch_loop w fuel k = Some m ->
  exists n e, (n < fuel)%nat /\ w_sleep w (k + n) = Raises e /\ snd m = Raises e.
Proof.
  induction fuel as [| fuel IH]; intros k m; [discriminate |].
  cbn [watch_messages.watch_loop]. unfold watch_messages.sleep, bind_opt.
  destruct (w_sleep w k) as [[] | e] eqn:Hs.
  - destruct (watch_messages.watch_loop w fuel (S k)) as [[t' r'] |] eqn:Hloop;
      [| discriminate].
    intros [= <-]. destruct (IH (S k) _ Hloop) as (n & e & Hn & Hraise & Hr).
    exists (S n), e. split; [lia |]. split; [| exact Hr].
    replace (k + S n)%nat with (S k + n)%nat by lia. exact Hraise.
  - intros [= <-]. exists 0%nat, e. split; [lia |]. rewrite Nat.add_0_r. auto.
Qed.

(** X12. The legacy watcher stops only by an exception: one raised by the
    constructor of the client, by [watcher.start], or by one of the
    sleeps.  A [KeyboardInterrupt] ends it with the line [Watcher stopped]
    and status 0, any [Exception] with the failure envelope of its text
    and status 1; anything else leaves without a further line. *)
Theorem watch_loop_stops_by_exception w argv fuel t st :
  run WatchMessages w argv fuel = Some (t, st) ->
  w_import w = Returns tt ->
  exists e t0,
    (w_construct w (Some "http://localhost:3000") None = Raises e
     \/ w_call w watcher_start_callback = Raises e
     \/ exists n, (n < fuel)%nat /\ w_sleep w n = Raises e)
    /\ match exn_class e with
       | KeyboardInterrupt => t = (t0 ++ [watcher_stopped])%list /\ st = Exited 0
       | SystemExit code => t = t0 /\ st = Exited code
       | OtherBaseException => t = t0 /\ st = Traceback e
       | _ =>
           t = (t0 ++ [Print (failure_doc (exn_str e)) None true])%list
           /\ st = Exited 1
       end.
Proof.
  intros Hrun Hi.
  unfold run, watch_messages.script, guarded, import_guard, ask in Hrun.
  rewrite Hi in Hrun. cbn [try_except bind_opt] in Hrun.
  destruct (watch_messages.main w fuel) as [[tm rm] |] eqn:Hmain; [| discriminate].
  assert (Hbody : exists e tb,
             (w_construct w (Some "http://localhost:3000") None = Raises e
              \/ w_call w watcher_start_callback = Raises e
              \/ exists n, (n < fuel)%nat /\ w_sleep w n = Raises e)
             /\ (tm, rm) = try_except ((tb, Raises e) : M unit) watch_messages.handlers).
  { unfold watch_messages.main, watch_messages.start, AgentText, ask in Hmain.
    destruct (w_construct w (Some "http://localhost:3000") None) as [[] | e] eqn:Hc.
    - destruct (w_call w watcher_start_callback) as [reply | e] eqn:Hs.
      + cbn [bind print_json json_error py_dict map fst snd fold_right or_else
               json_key_error emit app bind_opt] in Hmain.
        destruct (watch_messages.watch_loop w fuel 0) as [[tl rl] |] eqn:Hloop;
          [| discriminate Hmain].
        destruct (watch_loop_ends w fuel 0 _ Hloop) as (n & e & Hn & Hraise & Hr).
        simpl in Hr. subst rl. simpl in Hmain. injection Hmain as Hmain.
        exists e. eexists. split; [eauto |]. symmetry. exact Hmain.
      + simpl in Hmain. injection Hmain as Hmain.
        exists e. eexists. split; [auto |]. symmetry. exact Hmain.
    - simpl in Hmain. injection Hmain as Hmain.
      exists e. eexists. split; [auto |]. symmetry. exact Hmain. }
  destruct Hbody as (e & tb & Hsrc & Heq).
  exists e, (Import :: tb). split; [exact Hsrc |].
  unfold try_except, watch_messages.handlers in Heq. cbn [find_handler] in Heq.
  unfold isinstance_exn in Heq.
  destruct (exn_class e) eqn:Hcls; simpl in Heq; injection Heq as -> ->;
    simpl in Hrun; try rewrite Hcls in Hrun; injection Hrun as <- <-;
    split; try reflexivity; try (rewrite app_nil_r; reflexivity).
Qed.

Lemma watch_loop_stops_by_exception_witness :
  exists e t0,
    (w_construct server_down (Some "http://localhost:3000") None = Raises e
     \/ w_call server_down watcher_start_callback = Raises e
     \/ exists n, (n < 0)%nat /\ w_sleep server_down n = Raises e)
    /\ match exn_class e with
       | KeyboardInterrupt =>
           [Import; Construct (Some "http://localhost:3000") None;
            Print (py_dict [("success", PBool true);
                            ("message", PStr "Starting message watcher...")])
                  None true;
            Call watcher_start_callback;
            Print (failure_doc "Connection refused") None true]
           = (t0 ++ [watcher_stopped])%list /\ Exited 1 = Exited 0
       | SystemExit code =>
           [Import; Construct (Some "http://localhost:3000") None;
            Print (py_dict [("success", PBool true);
                            ("message", PStr "Starting message watcher...")])
                  None true;
            Call watcher_start_callback;
            Print (failure_doc "Connection refused") None true]
           = t0 /\ Exited 1 = Exited code
       | OtherBaseException =>
           [Import; Construct (Some "http://localhost:3000") None;
            Print (py_dict [("success", PBool true);
                            ("message", PStr "Starting message watcher...")])
                  None true;
            Call watcher_start_callback;
            Print (failure_doc "Connection refused") None true]
           = t0 /\ Exited 1 = Traceback e
       | _ =>
           [Import; Construct (Some "http://localhost:3000") None;
            Print (py_dict [("success", PBool true);
                            ("message", PStr "Starting message watcher...")])
                  None true;
            Call watcher_start_callback;
            Print (failure_doc "Connection refused") None true]
           = (t0 ++ [Print (failure_doc (exn_str e)) None true])%list
           /\ Exited 1 = Exited 1
       end.
Proof.
  apply (watch_loop_stops_by_exception server_down [] 0); reflexivity.
Defined.

Lemma printed_app (t1 t2 : list event) :
  printed (t1 ++ t2) = (printed t1 ++ printed t2)%list.
Proof.
  induction t1 as [| ev t1 IH]; simpl; [reflexivity |].
  destruct ev; simpl; rewrite IH; reflexivity.
Qed.

Lemma flushed_app (t1 t2 : list event) :
  flushed t1 -> flushed t2 -> flushed (t1 ++ t2).
Proof. intros H1 H2. apply Forall_app. auto. Qed.

(** The callback prints one flushed line for a message it can write. *)
Lemma on_message_prints (m : pyvalue) :
  json_error (dict_or_str m) = None ->
  watch_messages.on_message m = ([Print (event_doc m) None true], Returns tt).
Proof.
  intros Hm. unfold watch_messages.on_message, print_json.
  replace (json_error (py_dict [("event", PStr "message"); ("data", dict_or_str m)]))
    with (@None string); [reflexivity |].
  simpl. rewrite Hm. reflexivity.
Qed.

Lemma deliver_prints (messages : list pyvalue) :
  (forall m, In m messages -> json_error (dict_or_str m) = None) ->
  printed (watch_messages.deliver messages) = map event_doc messages
  /\ flushed (watch_messages.deliver messages).
Proof.
  unfold watch_messages.deliver.
  induction messages as [| m rest IH]; intros Hok; [split; [reflexivity | constructor] |].
  destruct IH as [IHp IHf]; [intros x Hx; apply Hok; right; exact Hx |].
  cbn [map concat]. rewrite (on_message_prints m (Hok m (or_introl eq_refl))).
  cbn [fst app printed map]. rewrite IHp.
  split; [reflexivity |]. constructor; [auto | exact IHf].
Qed.

Lemma watch_loop_prints (w : world) (e : exn) :
  (forall i m, In m (w_incoming w i) -> json_error (dict_or_str m) = None) ->
  forall n k fuel,
    (forall i, (k <= i < k + n)%nat -> w_sleep w i = Returns tt) ->
    w_sleep w (k + n) = Raises e ->
    (n < fuel)%nat ->
    exists t,
      watch_messages.watch_loop w fuel k = Some (t, Raises e)
      /\ printed t = map event_doc (concat (map (w_incoming w) (seq (S k) (S n))))
      /\ flushed t.
Proof.
  intros Hok.
  induction n as [| n IH]; intros k fuel Hret Hraise Hfuel;
    (destruct fuel as [| fuel]; [lia |]);
    cbn [watch_messages.watch_loop]; unfold watch_messages.sleep;
    destruct (deliver_prints (w_incoming w (S k)) (Hok (S k))) as [Hp Hf].
  - rewrite Nat.add_0_r in Hraise. rewrite Hraise. cbn [bind_opt].
    eexists. split; [reflexivity |]. cbn [printed seq map concat].
    rewrite app_nil_r. split; [exact Hp |]. constructor; [exact I | exact Hf].
  - rewrite (Hret k) by lia. cbn [bind_opt].
    destruct (IH (S k) fuel) as (t & Ht & Htp & Htf).
    + intros i Hi. apply Hret. lia.
    + replace (S k + n)%nat with (k + S n)%nat by lia. exact Hraise.
    + lia.
    + rewrite Ht. eexists. split; [reflexivity |].
      change (Sleep :: watch_messages.deliver (w_incoming w (S k)))
        with ([Sleep] ++ watch_messages.deliver (w_incoming w (S k)))%list.
      rewrite !printed_app, Hp, Htp. cbn [printed app].
      split.
      * change (seq (S k) (S (S n))) with (S k :: seq (S (S k)) (S n)).
        cbn [map concat]. rewrite map_app. reflexivity.
      * constructor; [exact I |]. apply flushed_app; [exact Hf | exact Htf].
Qed.

(** X13. The legacy watcher echoes what arrives.  When the client starts
    and every message handed to the callback can be written (a message
    that is no dictionary always can, as its [str]), a run interrupted
    during its sleep number [n] has printed, in this order: the line
    [Starting message watcher...], one [event] line for each message
    that arrived until then, in order of arrival, with the message
    itself or its [str] as [data], and the line [Watcher stopped].  Each
    of them is a single flushed line, and the exit status is 0. *)
Theorem watcher_echoes_messages w argv n fuel reply msg :
  w_import w = Returns tt ->
  w_construct w (Some "http://localhost:3000") None = Returns tt ->
  w_call w watcher_start_callback = Returns reply ->
  (forall i, (i < n)%nat -> w_sleep w i = Returns tt) ->
  w_sleep w n = Raises (Exn KeyboardInterrupt msg) ->
  (n < fuel)%nat ->
  (forall i m, In m (w_incoming w i) -> json_error (dict_or_str m) = None) ->
  exists t,
    run WatchMessages w argv fuel = Some (t, Exited 0)
    /\ printed t
       = (py_dict [("success", PBool true);
                   ("message", PStr "Starting message watcher...")]
          :: map event_doc (incoming_until w (S n))
          ++ [py_dict [("success", PBool true); ("message", PStr "Watcher stopped")]])%list
    /\ flushed t.
Proof.
  intros Hi Hc Hs Hret Hraise Hfuel Hok.
  destruct (watch_loop_prints w (Exn KeyboardInterrupt msg) Hok n 0 fuel)
    as (tl & Hloop & Hlp & Hlf);
    [intros i Hlt; apply Hret; lia | exact Hraise | exact Hfuel |].
  destruct (deliver_prints (w_incoming w 0) (Hok 0%nat)) as [Hp Hf].
  unfold run, watch_messages.script, guarded, import_guard, ask.
  rewrite Hi. cbn [try_except bind_opt].
  unfold watch_messages.main, watch_messages.start, AgentText, ask.
  rewrite Hc, Hs.
  cbn [bind print_json json_error py_dict map fst snd fold_right or_else
         json_key_error emit app bind_opt].
  rewrite Hloop.
  cbn [option_map try_except watch_messages.handlers find_handler isinstance_exn
         exn_class print_json json_error py_dict map fst snd fold_right or_else
         json_key_error emit app run_process].
  eexists. split; [reflexivity |].
  split.
  - cbn [printed].
    rewrite !printed_app, Hp, Hlp. cbn [printed].
    unfold incoming_until.
    change (seq 0 (S (S n))) with (0%nat :: seq 1 (S n)).
    cbn [map concat]. rewrite map_app, <- app_assoc. reflexivity.
  - unfold flushed in *.
    repeat first [ exact Hf | exact Hlf | apply Forall_nil
                 | apply Forall_cons; [simpl; auto |]
                 | apply Forall_app; split ].
Qed.

Lemma watcher_echoes_messages_witness :
  exists t,
    run WatchMessages interrupted [] 3 = Some (t, Exited 0)
    /\ printed t
       = (py_dict [("success", PBool true);
                   ("message", PStr "Starting message watcher...")]
          :: map event_doc (incoming_until interrupted 3)
          ++ [py_dict [("success", PBool true); ("message", PStr "Watcher stopped")]])%list
    /\ flushed t.
Proof.
  apply (watcher_echoes_messages interrupted [] 2 3 PNone "").
  - reflexivity.
  - reflexivity.
  - reflexivity.
  - intros i Hlt. destruct i as [| [| i]]; [reflexivity | reflexivity | lia].
  - reflexivity.
  - lia.
  - intros i m. destruct i as [| [| i]]; simpl; try contradiction.
    intros [<- | []]. reflexivity.
Defined.

(** ** The file paths of [send message] *)

Lemma split_length (sep : ascii) (s : string) :
  length (PyStr.split sep s) = S (count_char sep s).
Proof.
  induction s as [| c s IH]; simpl; [reflexivity |].
  destruct (Ascii.eqb c sep); simpl; [rewrite IH; reflexivity |].
  destruct (PyStr.split sep s) as [| piece pieces]; simpl in *; [discriminate IH | exact IH].
Qed.

Lemma mem_char_app (c : ascii) (s1 s2 : string) :
  PyStr.mem_char c (s1 ++ s2) = PyStr.mem_char c s1 || PyStr.mem_char c s2.
Proof.
  induction s1 as [| d s1 IH]; simpl; [reflexivity |].
  rewrite IH, orb_assoc. reflexivity.
Qed.

(** Stripping adds no character. *)
Lemma mem_char_strip (c : ascii) (s : string) :
  PyStr.mem_char c s = false -> PyStr.mem_char c (PyStr.strip s) = false.
Proof.
  destruct (strip_decomposition s) as (pre & post & Hs & _ & _).
  intros Hc. rewrite Hs, !mem_char_app in Hc.
  apply orb_false_elim in Hc. destruct Hc as [_ Hc].
  apply orb_false_elim in Hc. exact (proj1 Hc).
Qed.

Lemma rstrip_no_space (s : string) : any_space s = false -> PyStr.rstrip s = s.
Proof.
  induction s as [| c s IH]; simpl; [reflexivity |].
  intros H. apply orb_false_elim in H. destruct H as [Hc Hs].
  rewrite (IH Hs). destruct s; [rewrite Hc |]; reflexivity.
Qed.

Lemma strip_no_space (s : string) : any_space s = false -> PyStr.strip s = s.
Proof.
  intros H. unfold PyStr.strip.
  assert (Hl : PyStr.lstrip s = s).
  { destruct s as [| c s]; simpl in *; [reflexivity |].
    apply orb_false_elim in H. rewrite (proj1 H). reflexivity. }
  rewrite Hl. apply rstrip_no_space, H.
Qed.

Lemma split_no_space (sep : ascii) (s : string) :
  any_space s = false ->
  Forall (fun piece => any_space piece = false) (PyStr.split sep s).
Proof.
  induction s as [| c s IH]; simpl; [repeat constructor |].
  intros H. apply orb_false_elim in H. destruct H as [Hc Hs].
  specialize (IH Hs).
  destruct (Ascii.eqb c sep); [constructor; [reflexivity | exact IH] |].
  destruct (PyStr.split sep s) as [| piece pieces].
  - repeat constructor. simpl. rewrite Hc. reflexivity.
  - inversion IH as [| ? ? Hp Hps]; subst. constructor; [| exact Hps].
    simpl. rewrite Hc. exact Hp.
Qed.

Lemma map_strip_no_space (pieces : list string) :
  Forall (fun piece => any_space piece = false) pieces ->
  map PyStr.strip pieces = pieces.
Proof.
  induction 1 as [| piece pieces Hp _ IH]; simpl; [reflexivity |].
  rewrite (strip_no_space piece Hp), IH. reflexivity.
Qed.

(** X14. The file paths that [send message] hands to [send_files] are
    the pieces of a non-empty [--files] value: one more than the value
    has commas, so never none, each without a comma and without
    whitespace at either end.  An empty piece is forwarded as an empty
    path.  When the value has no whitespace at all, joining the paths
    with commas gives the value back. *)
Theorem file_paths_are_the_trimmed_pieces w argv fuel t st a to paths text :
  run SendMessage w argv fuel = Some (t, st) ->
  parse_args send_message.parser argv = Some (Parsed a) ->
  In (Call (messages_send_files to paths text)) t ->
  exists s,
    send_message.files a = Some s
    /\ s <> ""
    /\ to = send_message.recipient a
    /\ text = send_message.message a
    /\ length paths = S (count_char "," s)
    /\ Forall trimmed_piece paths
    /\ (any_space s = false -> PyStr.join "," paths = s).
Proof.
  intros Hrun Hparse Hin.
  pose proof (run_cases SendMessage w argv fuel t st eq_refl Hrun) as Hcases.
  destruct (w_import w) as [[] | e0].
  - destruct Hcases as (r & Hp & Hcases). simpl in Hp. rewrite Hparse in Hp.
    injection Hp as <-. destruct Hcases as [-> _].
    rewrite run_process_trace in Hin. simpl main_after_parse in Hin.
    destruct Hin as [Hin | [Hin | Hin]]; try discriminate Hin.
    unfold send_message.main_with in Hin.
    destruct (send_message.files_given a) as [s |] eqn:Hgiven;
      (apply session_call in Hin;
       [| intros v; no_client_events | apply no_client_client_handlers]);
      [| discriminate Hin].
    injection Hin as -> -> ->.
    exists s. unfold send_message.files_given in Hgiven.
    destruct (send_message.files a) as [[| c0 s0] |]; try discriminate Hgiven.
    injection Hgiven as <-.
    split; [reflexivity |]. split; [discriminate |].
    split; [reflexivity |]. split; [reflexivity |].
    split; [rewrite length_map; apply split_length |].
    split.
    + pose proof (split_pieces "," (String c0 s0)) as Hpieces.
      induction Hpieces as [| piece pieces Hpiece _ IH]; [constructor |].
      cbn [map]. constructor; [| exact IH].
      split; [apply mem_char_strip, Hpiece | apply strip_trimmed].
    + intros Hs.
      rewrite (map_strip_no_space _ (split_no_space "," _ Hs)).
      apply split_join.
  - exfalso.
    assert (Ht : Forall no_client t)
      by (destruct (exn_class e0); destruct Hcases as [-> _]; repeat constructor).
    rewrite Forall_forall in Ht. exact (Ht _ Hin).
Qed.

Lemma file_paths_are_the_trimmed_pieces_witness :
  exists s,
    send_message.files
      (send_message.Args "+1234567890" "Hello!" (Some " a.png , b c.pdf,")
                         "http://localhost:3000")
    = Some s
    /\ s <> ""
    /\ "+1234567890" = "+1234567890"
    /\ "Hello!" = "Hello!"
    /\ length ["a.png"; "b c.pdf"; ""] = S (count_char "," s)
    /\ Forall trimmed_piece ["a.png"; "b c.pdf"; ""]
    /\ (any_space s = false -> PyStr.join "," ["a.png"; "b c.pdf"; ""] = s).
Proof.
  apply (file_paths_are_the_trimmed_pieces (calm PNone)
           ["+1234567890"; "Hello!"; "--files"; " a.png , b c.pdf,"] 0
           [Import; ParseArgs ["+1234567890"; "Hello!"; "--files"; " a.png , b c.pdf,"];
            Construct (Some "http://localhost:3000") (Some 30%Z);
            Call (messages_send_files "+1234567890" ["a.png"; "b c.pdf"; ""] "Hello!");
            Print (py_dict [("success", PBool true);
                            ("message", PStr "Message sent to +1234567890");
                            ("result", PStr "None")])
                  None false]
           (Exited 0)).
  - reflexivity.
  - reflexivity.
  - simpl. auto.
Defined.

(** ** What the options of a command line do to the call *)







(** X17. The guard around the import catches [ImportError] and nothing
    else.  When importing the package raises another exception, every
    one of the nine scripts ends there: nothing is printed, no command
    line is read, and the process ends with that exception. *)
Theorem import_guard_catches_import_error_only c w argv fuel e :
  w_import w = Raises e ->
  exn_class e <> ImportError ->
  run c w argv fuel = Some ([Import], status_of e).
Proof.
  intros Hi Hcls. unfold status_of.
  destruct c;
    unfold run, batch_send.script, get_messages.script, get_unread.script,
      list_chats.script, send_file.script, send_message.script, watcher.script,
      watch_messages.script, simple_test.script, guarded, import_guard, ask;
    rewrite Hi; destruct e as [cls text]; simpl in Hcls |- *;
    destruct cls; try reflexivity; exfalso; apply Hcls; reflexivity.
Qed.

Lemma import_guard_catches_import_error_only_witness :
  run Watcher
      {| w_import := Raises (Exn OtherException "module 'agenttext' has no attribute 'AgentText'");
         w_exists := fun _ => true;
         w_load := fun _ => Returns PNone;
         w_construct := fun _ _ => Returns tt;
         w_call := fun _ => Returns PNone;
         w_sleep := fun _ => Returns tt;
         w_incoming := fun _ => [] |}
      ["status"] 0
  = Some ([Import],
          status_of (Exn OtherException "module 'agenttext' has no attribute 'AgentText'")).
Proof.
  apply import_guard_catches_import_error_only; [reflexivity | discriminate].
Defined.

(** ** Numbers on the command line *)

Lemma digits_of_uint (d : Decimal.uint) : forall acc : nat,
  all_digits (NilEmpty.string_of_uint d) = true
  /\ digits_value (Z.of_nat acc) (NilEmpty.string_of_uint d)
     = Z.of_nat (Nat.of_uint_acc d acc).
Proof.
  induction d as [| d IH | d IH | d IH | d IH | d IH | d IH | d IH | d IH | d IH | d IH];
    intros acc; cbn [NilEmpty.string_of_uint all_digits digits_value Nat.of_uint_acc];
    [split; reflexivity | ..];
    rewrite Nat.tail_mul_spec;
    match goal with
    | |- context [Nat.of_uint_acc d ?k] => destruct (IH k) as [Hd Hv]
    end;
    (split; [rewrite Hd; reflexivity |]);
    rewrite <- Hv; f_equal;
    match goal with
    | |- context [Z.of_nat (nat_of_ascii ?ch - 48)] =>
        let v := eval vm_compute in (Z.of_nat (nat_of_ascii ch - 48)) in
        change (Z.of_nat (nat_of_ascii ch - 48)) with v
    end; lia.
Qed.

Lemma of_nat_nonempty (n : nat) : PyStr.of_nat n <> "".
Proof.
  unfold PyStr.of_nat. intros H.
  assert (Hnil : Nat.to_uint n = Decimal.Nil)
    by (destruct (Nat.to_uint n); simpl in H; try discriminate H; reflexivity).
  pose proof (DecimalNat.Unsigned.of_to n) as Hn. rewrite Hnil in Hn.
  simpl in Hn. subst n. discriminate Hnil.
Qed.

(** [int(str(n)) == n] for a number that [int] takes. *)
Lemma int_of_nat (n : nat) :
  (String.length (PyStr.of_nat n) <= 4300)%nat ->
  int (PyStr.of_nat n) = Accept (Z.of_nat n).
Proof.
  intros Hlen.
  destruct (digits_of_uint (Nat.to_uint n) 0) as [Hd Hv].
  fold (PyStr.of_nat n) in Hd, Hv.
  pose proof (of_nat_nonempty n) as Hne.
  pose proof (DecimalNat.Unsigned.of_to n) as Hn. unfold Nat.of_uint in Hn.
  rewrite Hn in Hv. apply Nat.leb_le in Hlen.
  unfold int. destruct (PyStr.of_nat n) as [| ch s]; [contradiction |].
  rewrite Hd, Hlen. cbn [andb]. f_equal. exact Hv.
Qed.

(** X18. A limit written as a decimal number comes back as that number.
    In [get messages] and in [list chats], a command line that is
    accepted and ends with [--limit] and the decimal writing of [n], as
    [str(n)] gives it, asks the client for the limit [n]; and such a
    command line is accepted whenever the words before it are. *)
Theorem limit_is_read_back (n : nat) :
  (String.length (PyStr.of_nat n) <= 4300)%nat ->
  (forall argv a,
      parse_args get_messages.parser (argv ++ ["--limit"; PyStr.of_nat n]) = Some (Parsed a) ->
      hd_error (get_messages.filters a) = Some ("limit", PInt (Z.of_nat n)))
  /\ (forall argv a,
         parse_args list_chats.parser (argv ++ ["--limit"; PyStr.of_nat n]) = Some (Parsed a) ->
         hd_error (list_chats.filters a) = Some ("limit", PInt (Z.of_nat n)))
  /\ (forall argv a,
         parse_args get_messages.parser argv = Some (Parsed a) ->
         parse_args get_messages.parser (argv ++ ["--limit"; PyStr.of_nat n])
         = Some (Parsed (get_messages.Args (Z.of_nat n) (get_messages.sender a)
                           (get_messages.unread_only a) (get_messages.base_url a))))
  /\ (forall argv a,
         parse_args list_chats.parser argv = Some (Parsed a) ->
         parse_args list_chats.parser (argv ++ ["--limit"; PyStr.of_nat n])
         = Some (Parsed (list_chats.Args (Z.of_nat n) (list_chats.type a)
                           (list_chats.base_url a)))).
Proof.
  intros Hlen. pose proof (int_of_nat n Hlen) as Hint.
  assert (Hword : forall {A} (p : ArgumentParser A), classify p (PyStr.of_nat n) = Word).
  { intros A p. unfold classify.
    assert (Hdash : String.prefix "-" (PyStr.of_nat n) = false).
    { unfold PyStr.of_nat. destruct (Nat.to_uint n); reflexivity. }
    rewrite Hdash. reflexivity. }
  split; [| split; [| split]].
  - intros argv a Hparse. apply parse_args_parses in Hparse.
    destruct (parses_last_option get_messages.parser "--limit" (PyStr.of_nat n)
                (add_argument "--limit"
                   (store_int
                      (fun v a =>
                         get_messages.Args v (get_messages.sender a)
                           (get_messages.unread_only a) (get_messages.base_url a))))
                eq_refl eq_refl ltac:(intros set'; discriminate)
                _ _ _ _ Hparse argv eq_refl) as [r0 Happ].
    unfold applies in Happ. cbn [act] in Happ. destruct Happ as (z & Hz & ->).
    rewrite Hint in Hz. injection Hz as <-. reflexivity.
  - intros argv a Hparse. apply parse_args_parses in Hparse.
    destruct (parses_last_option list_chats.parser "--limit" (PyStr.of_nat n)
                (add_argument "--limit"
                   (store_int
                      (fun v a =>
                         list_chats.Args v (list_chats.type a) (list_chats.base_url a))))
                eq_refl eq_refl ltac:(intros set'; discriminate)
                _ _ _ _ Hparse argv eq_refl) as [r0 Happ].
    unfold applies in Happ. cbn [act] in Happ. destruct Happ as (z & Hz & ->).
    rewrite Hint in Hz. injection Hz as <-. reflexivity.
  - intros argv a Hparse. apply parse_args_parses. apply parse_args_parses in Hparse.
    eapply parses_app; [exact Hparse |].
    eapply parses_option;
      [reflexivity | reflexivity | reflexivity | apply Hword | | constructor].
    unfold applies. cbn [act]. exists (Z.of_nat n). split; [exact Hint | reflexivity].
  - intros argv a Hparse. apply parse_args_parses. apply parse_args_parses in Hparse.
    eapply parses_app; [exact Hparse |].
    eapply parses_option;
      [reflexivity | reflexivity | reflexivity | apply Hword | | constructor].
    unfold applies. cbn [act]. exists (Z.of_nat n). split; [exact Hint | reflexivity].
Qed.

Lemma limit_is_read_back_witness :
  hd_error (get_messages.filters
              (get_messages.Args 250 (Some "+1234567890") false "http://localhost:3000"))
  = Some ("limit", PInt (Z.of_nat 250)).
Proof.
  apply (proj1 (limit_is_read_back 250 ltac:(vm_compute; lia))
           ["--sender"; "+1234567890"]).
  reflexivity.
Defined.

(** ** Values that the parser refuses *)

Section Prefix.

Context {A : Type} (p : ArgumentParser A).

(** After the words of an accepted command line the parser goes on from
    its namespace, with no positional left to fill. *)
Lemma parse_loop_app pending ns argv r :
  parses p pending ns argv r ->
  forall extras tail,
    parse_loop p pending extras ns (argv ++ tail) = parse_loop p [] extras r tail.
Proof.
  induction 1 as [ ns
                 | a pending tok rest ns ns' r Htok Happ _ IH
                 | pending tok flag a set rest ns r Htok Hhelp Hfind Hact _ IH
                 | pending tok flag value a rest ns ns' r Htok Hhelp Hfind Happ _ IH
                 | pending tok flag value a rest ns ns' r Htok Hhelp Hfind Hval Happ _ IH ];
    intros extras tail; cbn [app parse_loop].
  - reflexivity.
  - rewrite Htok, (take_applies _ _ _ _ _ Happ). apply IH.
  - rewrite Htok, Hhelp, Hfind, Hact. apply IH.
  - rewrite Htok, Hhelp, Hfind.
    destruct (act a) eqn:Hact;
      try (rewrite (take_applies _ _ _ _ _ Happ); apply IH).
    exfalso. exact (applies_not_switch _ _ _ _ _ Happ Hact).
  - rewrite Htok, Hhelp, Hfind.
    destruct (act a) eqn:Hact;
      try (rewrite Hval, (take_applies _ _ _ _ _ Happ); apply IH).
    exfalso. exact (applies_not_switch _ _ _ _ _ Happ Hact).
Qed.

Lemma parse_args_app argv r tail :
  parse_args p argv = Some (Parsed r) ->
  parse_args p (argv ++ tail) = parse_loop p [] false r tail.
Proof.
  intros H. apply parse_args_parses in H. unfold parse_args.
  apply parse_loop_app, H.
Qed.

End Prefix.

Lemma classify_word {A} (p : ArgumentParser A) (v : string) :
  String.prefix "-" v = false -> classify p v = Word.
Proof. intros H. unfold classify. rewrite H. reflexivity. Qed.

Lemma letter_not_digit (c : ascii) : is_letter c = true -> is_digit c = false.
Proof.
  unfold is_letter, is_digit.
  destruct (Nat.leb_spec 48 (nat_of_ascii c)), (Nat.leb_spec (nat_of_ascii c) 57),
    (Nat.leb_spec 65 (nat_of_ascii c)), (Nat.leb_spec (nat_of_ascii c) 90),
    (Nat.leb_spec 97 (nat_of_ascii c)), (Nat.leb_spec (nat_of_ascii c) 122);
    simpl; intros Hl; try reflexivity; try discriminate Hl; lia.
Qed.

(** [int] refuses a string with a letter. *)
Lemma int_rejects_letters (v : string) : has_letter v = true -> int v = Reject.
Proof.
  intros H.
  assert (Hd : all_digits v = false).
  { induction v as [| c v IH]; [discriminate H |].
    simpl in H |- *. apply orb_prop in H. destruct H as [H | H].
    - rewrite (letter_not_digit c H). reflexivity.
    - rewrite (IH H). apply andb_false_r. }
  unfold int. destruct v as [| c v]; [reflexivity |].
  rewrite Hd, H. reflexivity.
Qed.

Lemma usage_error_run {A} hint (p : ArgumentParser A) body w argv :
  w_import w = Returns tt ->
  parse_args p argv = Some UsageError ->
  option_map run_process (guarded hint (parse_then p body) w argv)
  = Some ([Import; ParseArgs argv; UsageMessage], Exited 2).
Proof.
  intros Hi Hp. unfold guarded, import_guard, ask, parse_then.
  rewrite Hi, Hp. reflexivity.
Qed.

(** X19. A value that the parser refuses ends the run before the body of
    [main]: the usage message, exit status 2, no client and no envelope,
    whatever words follow.  This holds of an action of the watcher script
    other than [start], [stop] and [status]; of a [--type] of
    [list chats] other than [group] and [direct]; and of a [--limit]
    with a letter in it, in [get messages] and in [list chats].  For the
    options, the words before them are any accepted command line. *)
Theorem refused_values_are_usage_errors w fuel :
  w_import w = Returns tt ->
  (forall action rest,
      String.prefix "-" action = false ->
      action <> "start" -> action <> "stop" -> action <> "status" ->
      run Watcher w (action :: rest) fuel
      = Some ([Import; ParseArgs (action :: rest); UsageMessage], Exited 2))
  /\ (forall argv a v rest,
         parse_args list_chats.parser argv = Some (Parsed a) ->
         String.prefix "-" v = false ->
         v <> "group" -> v <> "direct" ->
         run ListChats w (argv ++ "--type" :: v :: rest) fuel
         = Some ([Import; ParseArgs (argv ++ "--type" :: v :: rest); UsageMessage],
                 Exited 2))
  /\ (forall argv a v rest,
         parse_args list_chats.parser argv = Some (Parsed a) ->
         String.prefix "-" v = false ->
         has_letter v = true ->
         run ListChats w (argv ++ "--limit" :: v :: rest) fuel
         = Some ([Import; ParseArgs (argv ++ "--limit" :: v :: rest); UsageMessage],
                 Exited 2))
  /\ (forall argv a v rest,
         parse_args get_messages.parser argv = Some (Parsed a) ->
         String.prefix "-" v = false ->
         has_letter v = true ->
         run GetMessages w (argv ++ "--limit" :: v :: rest) fuel
         = Some ([Import; ParseArgs (argv ++ "--limit" :: v :: rest); UsageMessage],
                 Exited 2)).
Proof.
  intros Hi.
  assert (Hneq : forall s t : string, s <> t -> String.eqb s t = false)
    by (intros s t Hst; apply String.eqb_neq; exact Hst).
  split; [| split; [| split]].
  - intros action rest Hdash H1 H2 H3.
    unfold run, watcher.script, watcher.main. apply usage_error_run; [exact Hi |].
    unfold parse_args.
    change (positionals watcher.parser)
      with [add_argument "action"
              (store (Some ["start"; "stop"; "status"])
                 (fun v a => watcher.Args v (watcher.webhook_url a) (watcher.base_url a)))].
    cbn [parse_loop]. rewrite (classify_word _ action Hdash).
    unfold take. cbn [act allowed existsb].
    rewrite (Hneq _ _ H1), (Hneq _ _ H2), (Hneq _ _ H3). reflexivity.
  - intros argv a v rest Hparse Hdash H1 H2.
    unfold run, list_chats.script, list_chats.main. apply usage_error_run; [exact Hi |].
    rewrite (parse_args_app _ _ _ _ Hparse). cbn [parse_loop].
    change (classify list_chats.parser "--type") with (Flag "--type" None).
    cbn [is_help String.eqb Ascii.eqb Bool.eqb orb].
    change (find_optional list_chats.parser "--type")
      with (Some (add_argument "--type"
                    (store (Some ["group"; "direct"])
                       (fun v a => list_chats.Args (list_chats.limit a) (Some v)
                                     (list_chats.base_url a))))).
    cbn [act]. rewrite (classify_word _ v Hdash).
    unfold take. cbn [act allowed existsb].
    rewrite (Hneq _ _ H1), (Hneq _ _ H2). reflexivity.
  - intros argv a v rest Hparse Hdash Hletter.
    unfold run, list_chats.script, list_chats.main. apply usage_error_run; [exact Hi |].
    rewrite (parse_args_app _ _ _ _ Hparse). cbn [parse_loop].
    change (classify list_chats.parser "--limit") with (Flag "--limit" None).
    cbn [is_help String.eqb Ascii.eqb Bool.eqb orb].
    change (find_optional list_chats.parser "--limit")
      with (Some (add_argument "--limit"
                    (store_int
                       (fun v a => list_chats.Args v (list_chats.type a)
                                     (list_chats.base_url a))))).
    cbn [act]. rewrite (classify_word _ v Hdash).
    unfold take. cbn [act]. rewrite (int_rejects_letters v Hletter). reflexivity.
  - intros argv a v rest Hparse Hdash Hletter.
    unfold run, get_messages.script, get_messages.main.
    apply usage_error_run; [exact Hi |].
    rewrite (parse_args_app _ _ _ _ Hparse). cbn [parse_loop].
    change (classify get_messages.parser "--limit") with (Flag "--limit" None).
    cbn [is_help String.eqb Ascii.eqb Bool.eqb orb].
    change (find_optional get_messages.parser "--limit")
      with (Some (add_argument "--limit"
                    (store_int
                       (fun v a =>
                          get_messages.Args v (get_messages.sender a)
                            (get_messages.unread_only a) (get_messages.base_url a))))).
    cbn [act]. rewrite (classify_word _ v Hdash).
    unfold take. cbn [act]. rewrite (int_rejects_letters v Hletter). reflexivity.
Qed.

Lemma refused_values_are_usage_errors_witness :
  run ListChats (calm (PList [])) (["--limit"; "5"] ++ "--type" :: "all" :: ["--help"]) 0
  = Some ([Import; ParseArgs (["--limit"; "5"] ++ "--type" :: "all" :: ["--help"]);
           UsageMessage],
          Exited 2).
Proof.
  apply (proj1 (proj2 (refused_values_are_usage_errors (calm (PList [])) 0 eq_refl))
           ["--limit"; "5"]
           (list_chats.Args 5 None "http://localhost:3000") "all" ["--help"]);
    [reflexivity | reflexivity | discriminate | discriminate].
Defined.
